(** * Planner: the step-dependency execution engine of planner.py

    A shallow embedding of [src/planner.py]: the data model ([PlanStep],
    [Plan], [ToolCapability]), the capability registry, the readiness pass
    [_update_ready_status], [get_next_steps], [execute_step],
    [execute_full_plan], the reply extractor [_extract_json] and
    [create_plan].

    Conventions.
    - A Python [str] is a [string] whose characters are code points below
      256; [dict] objects with string keys that the planner only reads with
      [.get] are association lists in insertion order.
    - The planner's two tables ([self.tools], [self.plans]) are [gmap]s
      keyed by name; the set [completed] of the readiness pass is a [gset].
    - Plans and steps are mutable objects shared through [self.plans]; the
      embedding passes the planner explicitly and writes a mutated plan back
      under its key.
    - The code checks no field of a step. The development has two
      layers. In the first, the dataclass annotations are the types of
      the fields ([id : str], [tool : Optional[str]],
      [depends_on : list[str]], [deferred_requirements : list[dict]] with
      string entries), and a reply that gives a field another type is
      refused. The module [Raw] is the code on every reply: a field is
      any JSON value, and hashing, iterating, [.get] and [str.join] raise
      where Python raises. On fields of the annotated types the two
      layers coincide (section [Refinement]).
    - Everything outside the repository (the generation backend, the
      memory service, [json.loads], [uuid], the clock) is an operation of
      the class [Collaborators] over a state [World] of the outside: the
      theorems hold for every behaviour of these collaborators. A
      collaborator that raises returns [Raise] with the text of the
      exception.
    - [print] calls are not modelled. *)

From Stdlib Require Import ZArith Ascii String Lia.
From stdpp Require Import gmap strings list fin_maps pretty relations.

Set Warnings "-register-all".
Local Open Scope string_scope.
Local Open Scope list_scope.

(** ** Values *)

(** Python values that flow through the planner as [Any]: parsed JSON,
    tool inputs, handler results. *)
Inductive value : Type :=
| VNone
| VBool (b : bool)
| VInt (z : Z)
| VFloat (repr : string)
| VStr (s : string)
| VList (l : list value)
| VDict (d : list (string * value)).

(** [d.get(k)] on an association list: the entry for [k], if any. *)
Fixpoint dict_get {A : Type} (k : string) (d : list (string * A)) : option A :=
  match d with
  | [] => None
  | (k', v) :: rest => if String.eqb k k' then Some v else dict_get k rest
  end.

(** [d[k] = v]: overwrite in place, or append a new key. *)
Fixpoint dict_set {A : Type} (k : string) (v : A) (d : list (string * A))
  : list (string * A) :=
  match d with
  | [] => [(k, v)]
  | (k', v') :: rest =>
      if String.eqb k k' then (k, v) :: rest else (k', v') :: dict_set k v rest
  end.

(** Python truthiness of a value ([if x:]). *)
Definition truthy (v : value) : bool :=
  match v with
  | VNone => false
  | VBool b => b
  | VInt z => negb (Z.eqb z 0)
  | VFloat r => negb (String.eqb r "0.0" || String.eqb r "-0.0")
  | VStr s => negb (String.eqb s EmptyString)
  | VList l => match l with [] => false | _ => true end
  | VDict d => match d with [] => false | _ => true end
  end.

(** The result of a call that may raise: [Raise msg] carries [str(e)]. *)
Inductive outcome (A : Type) : Type :=
| Ok (a : A)
| Raise (msg : string).
Arguments Ok {A} a.
Arguments Raise {A} msg.

(** ** Data model *)

Inductive StepStatus : Set :=
| PENDING | READY | EXECUTING | COMPLETED | FAILED | NEEDS_TOOL.

Global Instance StepStatus_eq_dec : EqDecision StepStatus.
Proof. solve_decision. Defined.

Inductive Complexity : Set := ATOMIC | SIMPLE | MODERATE | COMPLEX.

Record ToolCapability : Type := {
  name : string;
  tc_description : string;
  input_schema : list (string * string);
  output_schema : list (string * string);
  examples : list string
}.

(** A deferred-requirement descriptor: a dict read with [r.get("type")]
    and [r.get("name")]. *)
Definition requirement : Type := list (string * string).

Record PlanStep : Type := {
  step_id : string;                       (* id *)
  description : string;
  tool : option string;                   (* None = LLM generation *)
  tool_input : value;
  expected_output : string;
  status : StepStatus;
  depends_on : list string;
  output_data : value;                    (* VNone until COMPLETED *)
  error : option string;
  deferred_requirements : list requirement
}.

Record Plan : Type := {
  plan_id : string;                       (* id *)
  goal : string;
  complexity : Complexity;
  steps : list PlanStep;
  created_at : string;
  context : list (string * value)
}.

(** The planner object: [self.tools], [self.plans], and the [plans] table
    of the database behind [self.memory.conn] (one row per saved plan). *)
Record Planner : Type := {
  tools : gmap string ToolCapability;
  plans : gmap string Plan;
  plans_table : list Plan
}.

Definition set_status (st : StepStatus) (s : PlanStep) : PlanStep :=
  {| step_id := step_id s; description := description s; tool := tool s;
     tool_input := tool_input s; expected_output := expected_output s;
     status := st; depends_on := depends_on s;
     output_data := output_data s; error := error s;
     deferred_requirements := deferred_requirements s |}.

Definition set_output_data (v : value) (s : PlanStep) : PlanStep :=
  {| step_id := step_id s; description := description s; tool := tool s;
     tool_input := tool_input s; expected_output := expected_output s;
     status := status s; depends_on := depends_on s;
     output_data := v; error := error s;
     deferred_requirements := deferred_requirements s |}.

Definition set_error (e : string) (s : PlanStep) : PlanStep :=
  {| step_id := step_id s; description := description s; tool := tool s;
     tool_input := tool_input s; expected_output := expected_output s;
     status := status s; depends_on := depends_on s;
     output_data := output_data s; error := Some e;
     deferred_requirements := deferred_requirements s |}.

Definition set_steps (l : list PlanStep) (p : Plan) : Plan :=
  {| plan_id := plan_id p; goal := goal p; complexity := complexity p;
     steps := l; created_at := created_at p; context := context p |}.

Definition set_context (c : list (string * value)) (p : Plan) : Plan :=
  {| plan_id := plan_id p; goal := goal p; complexity := complexity p;
     steps := steps p; created_at := created_at p; context := c |}.

Definition set_plans (m : gmap string Plan) (pl : Planner) : Planner :=
  {| tools := tools pl; plans := m; plans_table := plans_table pl |}.

(** ** Capability registry *)

(** [register_tool]: [self.tools[capability.name] = capability]. *)
Definition register_tool (capability : ToolCapability) (pl : Planner) : Planner :=
  {| tools := <[name capability := capability]> (tools pl);
     plans := plans pl; plans_table := plans_table pl |}.

(** [n in self.tools] *)
Definition registered (tl : gmap string ToolCapability) (n : string) : bool :=
  bool_decide (is_Some (tl !! n)).

(** ** Readiness pass *)

(** [{s.id for s in plan.steps if s.status == StepStatus.COMPLETED}] *)
Definition completed_ids (l : list PlanStep) : gset string :=
  list_to_set (step_id <$> filter (fun s => status s = COMPLETED) l).

(** [r.get("type") == "tool" and r.get("name") not in self.tools];
    an absent name is [None], which is no key of the registry. *)
Definition unmet_requirement (tl : gmap string ToolCapability) (r : requirement) : bool :=
  bool_decide (dict_get "type" r = Some "tool")
  && match dict_get "name" r with
     | Some n => negb (registered tl n)
     | None => true
     end.

Definition unmet (tl : gmap string ToolCapability) (s : PlanStep) : list requirement :=
  List.filter (unmet_requirement tl) (deferred_requirements s).

(** The body of the loop of [_update_ready_status] for one step. *)
Definition update_step (tl : gmap string ToolCapability) (completed : gset string)
    (s : PlanStep) : PlanStep :=
  if negb (bool_decide (status s = PENDING)) then s
  else
    match unmet tl s with
    | _ :: _ => set_status NEEDS_TOOL s
    | [] =>
        if forallb (fun dep => bool_decide (dep ∈ completed)) (depends_on s)
        then set_status READY s
        else s
    end.

(** [_update_ready_status]: [completed] is computed once, before the
    loop; each iteration touches only its own step. *)
Definition _update_ready_status (tl : gmap string ToolCapability) (p : Plan) : Plan :=
  set_steps (update_step tl (completed_ids (steps p)) <$> steps p) p.

(** [get_next_steps]: the planner after the pass, and the READY steps. *)
Definition get_next_steps (pl : Planner) (pid : string) : Planner * list PlanStep :=
  match plans pl !! pid with
  | None => (pl, [])
  | Some plan =>
      let plan' := _update_ready_status (tools pl) plan in
      (set_plans (<[pid := plan']> (plans pl)) pl,
       filter (fun s => status s = READY) (steps plan'))
  end.

(** ** Execution engine *)

(** [self.plans[pid]] after the plan object was mutated in place. *)
Definition store_plan (pid : string) (p : Plan) (pl : Planner) : Planner :=
  set_plans (<[pid := p]> (plans pl)) pl.

(** [next((s for s in plan.steps if s.id == step_id), None)], with the
    position of the step in [plan.steps]. *)
Definition find_step (sid : string) (l : list PlanStep) : option (nat * PlanStep) :=
  list_find (fun s => step_id s = sid) l.

(** The dict built by [_get_execution_context]. *)
Record exec_context : Type := {
  plan_goal : string;
  ctx_step : PlanStep;
  dependency_outputs : list (string * value);
  plan_context : list (string * value)
}.

Definition _get_execution_context (p : Plan) (s : PlanStep) : exec_context :=
  {| plan_goal := goal p;
     ctx_step := s;
     dependency_outputs :=
       fold_left
         (fun acc dep_id =>
            match find_step dep_id (steps p) with
            | Some (_, dep_step) =>
                if truthy (output_data dep_step)
                then dict_set dep_id (output_data dep_step) acc
                else acc
            | None => acc
            end)
         (depends_on s) [];
     plan_context := context p |}.

Definition type_name (v : value) : string :=
  match v with
  | VNone => "NoneType" | VBool _ => "bool" | VInt _ => "int"
  | VFloat _ => "float" | VStr _ => "str" | VList _ => "list"
  | VDict _ => "dict"
  end.

(** [v.get(k, default)]: only a dict has [get]. *)
Definition value_get (v : value) (k : string) (default : value) : outcome value :=
  match v with
  | VDict d => Ok (match dict_get k d with Some x => x | None => default end)
  | _ => Raise ("'" ++ type_name v ++ "' object has no attribute 'get'")
  end.

(** [f[k]] on a dict: [KeyError] when the key is missing. *)
Definition dict_index (k : string) (d : list (string * value)) : outcome value :=
  match dict_get k d with
  | Some x => Ok x
  | None => Raise ("'" ++ k ++ "'")
  end.

Definition bind_outcome {A B : Type} (o : outcome A) (f : A -> outcome B) : outcome B :=
  match o with
  | Ok a => f a
  | Raise e => Raise e
  end.

Notation "'letO' x ':=' o 'in' k" := (bind_outcome o (fun x => k))
  (at level 10, x name, o at level 100, k at level 200).

Fixpoint map_outcome {A B : Type} (f : A -> outcome B) (l : list A) : outcome (list B) :=
  match l with
  | [] => Ok []
  | a :: rest =>
      letO b := f a in letO bs := map_outcome f rest in Ok (b :: bs)
  end.

Definition status_is (st : StepStatus) (s : PlanStep) : bool :=
  bool_decide (status s = st).

(** COMPLETED and FAILED. *)
Definition terminal (s : PlanStep) : bool :=
  status_is COMPLETED s || status_is FAILED s.

(** One entry of the [results] list of [execute_full_plan]. *)
Definition result_entry : Type := (string * value)%type.

(** What [execute_full_plan] returns. *)
Inductive full_result : Type :=
| PlanNotFound
| FullResult (pid : string) (g : string) (results : list result_entry)
             (final_plan : Plan).

(** ** Strings *)

(** [c.isspace()] for a code point below 256. *)
Definition isspace (c : ascii) : bool :=
  let n := nat_of_ascii c in
  (((9 <=? n) && (n <=? 13)) || ((28 <=? n) && (n <=? 32))
   || (n =? 133) || (n =? 160))%nat.

Fixpoint lstrip (s : string) : string :=
  match s with
  | String c rest => if isspace c then lstrip rest else s
  | EmptyString => EmptyString
  end.

Fixpoint rstrip (s : string) : string :=
  match s with
  | EmptyString => EmptyString
  | String c rest =>
      match rstrip rest with
      | EmptyString => if isspace c then EmptyString else String c EmptyString
      | r => String c r
      end
  end.

(** [s.strip()] *)
Definition strip (s : string) : string := rstrip (lstrip s).

(** [sub in s] *)
Fixpoint contains (sub s : string) : bool :=
  String.prefix sub s
  || match s with
     | EmptyString => false
     | String _ rest => contains sub rest
     end.

Definition newline : ascii := "010"%char.

(** [s.split("\n")] *)
Fixpoint split_lines (s : string) : list string :=
  match s with
  | EmptyString => [EmptyString]
  | String c rest =>
      if Ascii.eqb c newline then EmptyString :: split_lines rest
      else
        match split_lines rest with
        | line :: more => String c line :: more
        | [] => [String c EmptyString]
        end
  end.

(** ["\n".join(lines)] *)
Fixpoint join_lines (lines : list string) : string :=
  match lines with
  | [] => EmptyString
  | [line] => line
  | line :: more => line ++ String newline (join_lines more)
  end.

(** Position of the first occurrence of [c]. *)
Fixpoint first_index (c : ascii) (s : string) : option nat :=
  match s with
  | EmptyString => None
  | String c' rest =>
      if Ascii.eqb c c' then Some 0 else S <$> first_index c rest
  end.

(** Position of the last occurrence of [c]. *)
Fixpoint last_index (c : ascii) (s : string) : option nat :=
  match s with
  | EmptyString => None
  | String c' rest =>
      match last_index c rest with
      | Some i => Some (S i)
      | None => if Ascii.eqb c c' then Some 0 else None
      end
  end.

(** [text[i:j]] *)
Definition slice (i j : nat) (text : string) : string := substring i (j - i) text.

(** ** External collaborators *)

(** Everything the planner calls that is not code of the repository,
    over the state [World] of the outside (generation backend, memory
    service, random source, clock). *)
Class Collaborators (World : Type) : Type := {
  (** [json.loads]: the parsed value, [None] when it raises. *)
  json_loads : string -> option value;
  (** [ollama.chat] as used by [create_plan], from the goal, the context
      and the registry the prompt is built from; returns
      [response['message']['content']]. *)
  ollama_plan : World -> string -> value -> gmap string ToolCapability
                -> World * outcome string;
  (** [uuid.uuid4().hex[:8]] *)
  uuid4_hex8 : World -> World * string;
  (** [datetime.now()] *)
  datetime_now : World -> World * string;
  (** [ollama.chat] as used by [_execute_llm]: the prompt ([tool_input]'s
      entry or the description) and the outputs of the dependencies that
      are appended to it; returns [response['message']['content']]. *)
  ollama_chat : World -> value -> list (string * value) -> World * outcome value;
  (** The embedding search of [_execute_memory_search] (encoder,
      [find_all_topic_matches], [get_topic_facts]) on [query] and [limit];
      returns the list stored under ["topics"]. *)
  memory_search : World -> value -> value -> World * outcome value;
  (** [self.memory.get_topic_facts(topic_name)]: a list of fact dicts. *)
  get_topic_facts : World -> value -> World * outcome (list (list (string * value)));
  (** [self.memory.save_topic_fact(topic, fact_type, fact)]. *)
  save_topic_fact : World -> value -> value -> value -> World * outcome unit
}.

Section Engine.

Context {World : Type} `{Collaborators World}.

Definition _execute_llm (w : World) (s : PlanStep) (ctx : exec_context)
  : World * outcome value :=
  match value_get (tool_input s) "prompt" (VStr (description s)) with
  | Ok prompt => ollama_chat w prompt (dependency_outputs ctx)
  | Raise e => (w, Raise e)
  end.

Definition _execute_memory_search (w : World) (s : PlanStep) : World * outcome value :=
  match (letO query := value_get (tool_input s) "query" (VStr EmptyString) in
         letO limit := value_get (tool_input s) "limit" (VInt 5) in
         Ok (query, limit)) with
  | Ok (query, limit) =>
      match memory_search w query limit with
      | (w', Ok results) => (w', Ok (VDict [("topics", results)]))
      | (w', Raise e) => (w', Raise e)
      end
  | Raise e => (w, Raise e)
  end.

Definition _execute_get_facts (w : World) (s : PlanStep) : World * outcome value :=
  match value_get (tool_input s) "topic_name" (VStr EmptyString) with
  | Ok topic_name =>
      match get_topic_facts w topic_name with
      | (w', Ok facts) =>
          (w',
           letO fs :=
             map_outcome
               (fun f =>
                  letO ty := dict_index "type" f in
                  letO co := dict_index "fact" f in
                  letO lo := dict_index "locked" f in
                  Ok (VDict [("type", ty); ("content", co); ("locked", lo)]))
               facts in
           Ok (VDict [("topic", topic_name); ("facts", VList fs)]))
      | (w', Raise e) => (w', Raise e)
      end
  | Raise e => (w, Raise e)
  end.

(** The three [.get] calls are outside the [try]; the call to the memory
    service is inside it. *)
Definition _execute_save_fact (w : World) (s : PlanStep) : World * outcome value :=
  match (letO topic := value_get (tool_input s) "topic_name" (VStr EmptyString) in
         letO fact_type := value_get (tool_input s) "fact_type" (VStr "WHAT") in
         letO fact := value_get (tool_input s) "fact" (VStr EmptyString) in
         Ok (topic, fact_type, fact)) with
  | Ok (topic, fact_type, fact) =>
      match save_topic_fact w topic fact_type fact with
      | (w', Ok _) => (w', Ok (VDict [("success", VBool true)]))
      | (w', Raise e) =>
          (w', Ok (VDict [("success", VBool false); ("error", VStr e)]))
      end
  | Raise e => (w, Raise e)
  end.

(** The [if]/[elif] chain of [execute_step]. *)
Definition dispatch (w : World) (s : PlanStep) (ctx : exec_context)
  : World * outcome value :=
  match tool s with
  | None => _execute_llm w s ctx
  | Some t =>
      if String.eqb t "llm_generate" then _execute_llm w s ctx
      else if String.eqb t "memory_search_topics" then _execute_memory_search w s
      else if String.eqb t "memory_get_facts" then _execute_get_facts w s
      else if String.eqb t "memory_save_fact" then _execute_save_fact w s
      else (w, Ok (VStr ("Tool '" ++ t ++ "' not implemented yet")))
  end.

(** [execute_step]: the planner and the world afterwards, and the value
    returned ([VNone] is Python's [None]). In the code the writes of the
    result and the readiness pass are inside the [try] as well; on steps
    whose fields have their annotated types neither can raise, so in
    this layer only the handler fails a step. [Raw.execute_step] is the
    code on every plan, with the pass inside the [try]; on typed plans
    the two agree (section [Refinement]). *)
Definition execute_step (pl : Planner) (w : World) (pid sid : string)
  : Planner * World * value :=
  match plans pl !! pid with
  | None => (pl, w, VNone)
  | Some plan =>
      match find_step sid (steps plan) with
      | None => (pl, w, VNone)
      | Some (i, step) =>
          if negb (status_is READY step) then (pl, w, VNone)
          else
            let step1 := set_status EXECUTING step in
            let plan1 := set_steps (<[i := step1]> (steps plan)) plan in
            let ctx := _get_execution_context plan1 step1 in
            match dispatch w step1 ctx with
            | (w', Ok result) =>
                let step2 := set_output_data result (set_status COMPLETED step1) in
                let plan2 :=
                  set_context (dict_set ("output_" ++ sid) result (context plan1))
                    (set_steps (<[i := step2]> (steps plan1)) plan1) in
                (store_plan pid (_update_ready_status (tools pl) plan2) pl, w', result)
            | (w', Raise e) =>
                let step2 := set_error e (set_status FAILED step1) in
                (store_plan pid (set_steps (<[i := step2]> (steps plan1)) plan1) pl,
                 w', VNone)
            end
      end
  end.

(** The [for step in next_steps] loop of one wave: every step of the wave
    is dispatched by its id, and an entry is appended to [results]. *)
Fixpoint run_wave (pl : Planner) (w : World) (pid : string)
    (next_steps : list PlanStep) (results : list result_entry)
  : Planner * World * list result_entry :=
  match next_steps with
  | [] => (pl, w, results)
  | step :: rest =>
      let '(pl', w', result) := execute_step pl w pid (step_id step) in
      run_wave pl' w' pid rest (results ++ [(description step, result)])
  end.

(** The [while next_steps := self.get_next_steps(plan_id)] loop; [None]
    when [fuel] waves were not enough to reach an empty wave. *)
Fixpoint wave_loop (fuel : nat) (pl : Planner) (w : World) (pid : string)
    (results : list result_entry)
  : option (Planner * World * list result_entry) :=
  match fuel with
  | O => None
  | S fuel' =>
      match get_next_steps pl pid with
      | (pl1, []) => Some (pl1, w, results)
      | (pl1, next_steps) =>
          let '(pl2, w2, results2) := run_wave pl1 w pid next_steps results in
          wave_loop fuel' pl2 w2 pid results2
      end
  end.

(** [execute_full_plan]; [None] when the wave loop did not finish within
    [fuel] waves. *)
Definition execute_full_plan (fuel : nat) (pl : Planner) (w : World) (pid : string)
  : option (Planner * World * full_result) :=
  match plans pl !! pid with
  | None => Some (pl, w, PlanNotFound)
  | Some plan =>
      match wave_loop fuel pl w pid [] with
      | None => None
      | Some (pl', w', results) =>
          (* [plan] is the object the table holds under [pid] *)
          let plan' := default plan (plans pl' !! pid) in
          Some (pl', w', FullResult pid (goal plan') results plan')
      end
  end.

(** ** Plan generator *)

(** [json.loads(s)] does not raise. *)
Definition parses (s : string) : bool :=
  match json_loads s with Some _ => true | None => false end.

(** Try 2: the lines between fence lines. *)
Fixpoint fence_scan (in_code : bool) (lines : list string) : list string :=
  match lines with
  | [] => []
  | line :: rest =>
      if String.prefix "```" (strip line) then fence_scan (negb in_code) rest
      else if in_code then line :: fence_scan in_code rest
      else fence_scan in_code rest
  end.

Definition try_fences (text : string) : option string :=
  if contains "```json" text || contains "```" text then
    match fence_scan false (split_lines text) with
    | [] => None
    | json_lines =>
        let potential := join_lines json_lines in
        if parses potential then Some potential else None
    end
  else None.

(** Try 3: the [for i, char in enumerate(text)] loop; [rest] is
    [text[i:]]. *)
Fixpoint brace_scan (text rest : string) (i : nat) (brace_count : Z)
    (start_idx : option nat) : option string :=
  match rest with
  | EmptyString => None
  | String char rest' =>
      if Ascii.eqb char "{"%char then
        brace_scan text rest' (S i) (brace_count + 1)
          (if Z.eqb brace_count 0 then Some i else start_idx)
      else if Ascii.eqb char "}"%char then
        let brace_count' := (brace_count - 1)%Z in
        match (if Z.eqb brace_count' 0 then start_idx else None) with
        | Some st =>
            let potential := slice st (i + 1) text in
            if parses potential then Some potential
            else brace_scan text rest' (S i) brace_count' start_idx
        | None => brace_scan text rest' (S i) brace_count' start_idx
        end
      else brace_scan text rest' (S i) brace_count start_idx
  end.

(** Try 4: [re.findall] of a brace, anything, a brace: the pattern is
    greedy, so its only match runs from the first opening brace to the
    last closing brace. *)
Definition regex_matches (text : string) : list string :=
  match first_index "{"%char text, last_index "}"%char text with
  | Some a, Some b => if (a <? b)%nat then [slice a (b + 1) text] else []
  | _, _ => []
  end.

(** [_extract_json]: the empty string when every strategy fails. *)
Definition _extract_json (text : string) : string :=
  if parses text then text
  else
    match try_fences text with
    | Some potential => potential
    | None =>
        match brace_scan text text 0 0%Z None with
        | Some potential => potential
        | None =>
            match List.find parses (regex_matches text) with
            | Some m => m
            | None => EmptyString
            end
        end
    end.

(** The exceptions that leave [create_plan]. *)
Inductive create_error : Type :=
| BackendRaised (msg : string)   (* raised by [ollama.chat] *)
| NoJsonInReply                  (* ValueError: LLM did not return valid JSON *)
| JsonDecodeError                (* json.JSONDecodeError, re-raised *)
| NotAnObject                    (* TypeError / AttributeError: data is no dict *)
| MissingRequiredFields          (* ValueError: Missing required fields in plan *)
| StepsNotIterable               (* TypeError: data["steps"] is not iterable *)
| StepNotAnObject                (* AttributeError: a step has no [get] *)
| InvalidComplexity              (* ValueError: not a valid Complexity *)
| FieldTypeMismatch              (* typed layer only: a field without its annotated type *)
| PersistError.                  (* raised by the INSERT of [_save_plan_to_db] *)

(** [Complexity(v)] *)
Definition complexity_of_value (v : value) : option Complexity :=
  match v with
  | VStr s =>
      if String.eqb s "atomic" then Some ATOMIC
      else if String.eqb s "simple" then Some SIMPLE
      else if String.eqb s "moderate" then Some MODERATE
      else if String.eqb s "complex" then Some COMPLEX
      else None
  | _ => None
  end.

Definition as_str (v : value) : option string :=
  match v with VStr s => Some s | _ => None end.

Definition as_requirement (v : value) : option requirement :=
  match v with
  | VDict d => mapM (fun kv => pair (fst kv) <$> as_str (snd kv)) d
  | _ => None
  end.

Definition as_list {A : Type} (f : value -> option A) (v : value) : option (list A) :=
  match v with VList l => mapM f l | _ => None end.

(** [s.get(k, default)] read at the annotated type of the field. *)
Definition field {A : Type} (f : value -> option A) (k : string) (default : A)
    (d : list (string * value)) : create_error + A :=
  match dict_get k d with
  | None => inr default
  | Some v => match f v with Some a => inr a | None => inl FieldTypeMismatch end
  end.

Definition bind_sum {E A B : Type} (o : E + A) (f : A -> E + B) : E + B :=
  match o with inr a => f a | inl e => inl e end.

Notation "'letE' x ':=' o 'in' k" := (bind_sum o (fun x => k))
  (at level 10, x name, o at level 100, k at level 200).

(** [PlanStep(id=s.get("id", f"step_{len(steps)+1}"), ...)]; [n] is
    [len(steps)]. This is the typed layer: a reply whose fields do not
    have the annotated types is refused ([FieldTypeMismatch]), where the
    code builds the step unchecked. [Raw.parse_step] is the code on such
    replies; on the others the two agree (section [Refinement]). *)
Definition parse_step (n : nat) (s : value) : create_error + PlanStep :=
  match s with
  | VDict d =>
      letE i := field as_str "id" ("step_" ++ pretty (S n))%string d in
      letE de := field as_str "description" EmptyString d in
      letE t := field (fun v => match v with
                                | VNone => Some None
                                | VStr x => Some (Some x)
                                | _ => None
                                end) "tool" None d in
      letE eo := field as_str "expected_output" EmptyString d in
      letE deps := field (as_list as_str) "depends_on" [] d in
      letE reqs := field (as_list as_requirement) "deferred_requirements" [] d in
      inr {| step_id := i; description := de; tool := t;
             tool_input := default (VDict []) (dict_get "tool_input" d);
             expected_output := eo; status := PENDING; depends_on := deps;
             output_data := VNone; error := None;
             deferred_requirements := reqs |}
  | _ => inl StepNotAnObject
  end.

(** [for s in data["steps"]: steps.append(...)] *)
Fixpoint parse_steps (acc : list PlanStep) (l : list value)
  : create_error + list PlanStep :=
  match l with
  | [] => inr acc
  | s :: rest =>
      letE st := parse_step (length acc) s in parse_steps (acc ++ [st]) rest
  end.

(** What [for s in v] iterates over. *)
Definition iterate (v : value) : create_error + list value :=
  match v with
  | VList l => inr l
  | VDict d => inr (map (fun kv => VStr (fst kv)) d)
  | VStr s => inr (map (fun c => VStr (String c EmptyString)) (list_ascii_of_string s))
  | _ => inl StepsNotIterable
  end.

(** [_save_plan_to_db]: the INSERT into a table whose primary key is
    [id]. *)
Definition _save_plan_to_db (p : Plan) (table : list Plan) : create_error + list Plan :=
  if existsb (fun row => String.eqb (plan_id row) (plan_id p)) table
  then inl PersistError
  else inr (table ++ [p]).

(** [create_plan]: the planner and the world afterwards, and the plan
    returned or the exception raised. *)
Definition create_plan (pl : Planner) (w : World) (goal_ : string) (context_ : value)
  : Planner * World * (create_error + Plan) :=
  match ollama_plan w goal_ context_ (tools pl) with
  | (w1, Raise e) => (pl, w1, inl (BackendRaised e))
  | (w1, Ok content) =>
      let llm_output := strip content in
      let json_str := _extract_json llm_output in
      if String.eqb json_str EmptyString then (pl, w1, inl NoJsonInReply)
      else
        match json_loads json_str with
        | None => (pl, w1, inl JsonDecodeError)
        | Some (VDict data) =>
            match dict_get "complexity" data, dict_get "steps" data with
            | Some cv, Some sv =>
                match (letE l := iterate sv in parse_steps [] l) with
                | inl e => (pl, w1, inl e)
                | inr steps_ =>
                    let (w2, hex) := uuid4_hex8 w1 in
                    match complexity_of_value cv with
                    | None => (pl, w2, inl InvalidComplexity)
                    | Some c =>
                        let (w3, now) := datetime_now w2 in
                        let plan :=
                          _update_ready_status (tools pl)
                            {| plan_id := ("plan_" ++ hex)%string; goal := goal_;
                               complexity := c; steps := steps_;
                               created_at := now;
                               context :=
                                 [("reasoning",
                                   default (VStr EmptyString) (dict_get "reasoning" data))] |} in
                        let pl1 := store_plan (plan_id plan) plan pl in
                        match _save_plan_to_db plan (plans_table pl1) with
                        | inl e => (pl1, w3, inl e)
                        | inr table =>
                            ({| tools := tools pl1; plans := plans pl1;
                                plans_table := table |}, w3, inr plan)
                        end
                    end
                end
            | _, _ => (pl, w1, inl MissingRequiredFields)
            end
        | Some _ => (pl, w1, inl NotAnObject)
        end
  end.

(** [Planner.__init__]: the four built-in capabilities, no plans. *)
Definition builtin (n d : string) (i o : list (string * string)) (e : list string)
  : ToolCapability :=
  {| name := n; tc_description := d; input_schema := i; output_schema := o;
     examples := e |}.

Definition _register_builtin_tools (pl : Planner) : Planner :=
  register_tool
    (builtin "memory_save_fact" "Save a new fact to memory under a topic"
       [("topic_name", "string"); ("fact_type", "WHO|WHAT|WHEN|WHERE|WHY|HOW");
        ("fact", "string")]
       [("success", "boolean")]
       ["Save that user likes coffee"; "Remember user's birthday"])
    (register_tool
       (builtin "memory_get_facts" "Get all facts about a specific topic"
          [("topic_name", "string")]
          [("facts", "list of {type, content, locked}")]
          ["Get facts about Jazz Guitar"; "What do I know about Python"])
       (register_tool
          (builtin "memory_search_topics"
             "Search Selene's memory for topics by keyword or semantic similarity"
             [("query", "string"); ("limit", "int (default 5)")]
             [("topics", "list of {name, description, facts}")]
             ["Find topics about music"; "Search for coding discussions"])
          (register_tool
             (builtin "llm_generate"
                "General text generation and reasoning. Use when no specialized tool needed."
                [("prompt", "string"); ("context", "optional dict")]
                [("response", "string")]
                ["Answer a question"; "Summarize text"; "Analyze and explain"])
             pl))).

Definition new_planner : Planner :=
  _register_builtin_tools {| tools := ∅; plans := ∅; plans_table := [] |}.

End Engine.

(** [line.strip().startswith(fence)] for the fence of three backquotes. *)
Definition fence_line (line : string) : bool := String.prefix "```" (strip line).

(** A body between an opening and a closing fence line. *)
Definition fenced (opening body closing : string) : string :=
  opening ++ String newline (body ++ String newline closing).

(** ** The planner on replies of any shape

    [create_plan] checks the two top-level keys of a reply and nothing
    else: the fields of a step are whatever JSON values the reply holds,
    and Python finds out when it uses them. The definitions above read
    each field at its annotated type and refuse the other replies; the
    module [Raw] below follows the code on every reply: a field is a
    [value], and the operations that Python lets raise on it (hashing a
    list, iterating a number, [.get] on something that is no dict,
    [str.join] on something that is no string) raise.

    Two things of the interpreter are left open, as operations of the
    class [Interpreter]: the comparison of floats ([==] on a float and a
    float, on a float and an int or bool), and [repr] of a value that is
    no string. Exception texts of the interpreter are those of CPython up
    to 3.13. A float NaN (which [json.loads] accepts as an extension) is
    compared as the class says, whatever the identity of the objects. *)

Class Interpreter : Type := {
  (** [x == y] for two floats, given by their [repr] *)
  float_eq : string -> string -> bool;
  (** [x == n] for a float [x] and an integer [n] *)
  float_eq_int : string -> Z -> bool;
  (** [repr(v)] *)
  repr : value -> string
}.

(** [hash(v)] does not raise: lists and dicts are unhashable. *)
Definition hashable (v : value) : bool :=
  match v with
  | VList _ | VDict _ => false
  | _ => true
  end.

(** [str(e)] of the [TypeError] raised when [v] is hashed. *)
Definition unhashable (v : value) : string :=
  ("unhashable type: '" ++ type_name v ++ "'")%string.

(** [iter(v)]: the elements of a list, the keys of a dict, the characters
    of a string; anything else is not iterable. *)
Definition py_iter (v : value) : outcome (list value) :=
  match v with
  | VList l => Ok l
  | VDict d => Ok (map (fun kv => VStr (fst kv)) d)
  | VStr s => Ok (map (fun c => VStr (String c EmptyString)) (list_ascii_of_string s))
  | _ => Raise ("'" ++ type_name v ++ "' object is not iterable")%string
  end.

(** The key [json.dumps] writes for a dict key that is no string. *)
Definition json_key `{Interpreter} (k : value) : string :=
  match k with
  | VStr s => s
  | VNone => "null"
  | VBool true => "true"
  | VBool false => "false"
  | VInt z => pretty z
  | VFloat r => r
  | _ => repr k
  end.

Section Builtins.

Context `{Interpreter}.

(** [a == b] on JSON values: numbers compare by value across [bool],
    [int] and [float]; lists element by element; dicts key by key,
    whatever the order. *)
Fixpoint py_eq (a b : value) {struct a} : bool :=
  match a with
  | VNone => match b with VNone => true | _ => false end
  | VBool x =>
      match b with
      | VBool y => Bool.eqb x y
      | VInt z => Z.eqb (Z.b2z x) z
      | VFloat r => float_eq_int r (Z.b2z x)
      | _ => false
      end
  | VInt z =>
      match b with
      | VBool y => Z.eqb z (Z.b2z y)
      | VInt z' => Z.eqb z z'
      | VFloat r => float_eq_int r z
      | _ => false
      end
  | VFloat r =>
      match b with
      | VBool y => float_eq_int r (Z.b2z y)
      | VInt z => float_eq_int r z
      | VFloat r' => float_eq r r'
      | _ => false
      end
  | VStr s => match b with VStr t => String.eqb s t | _ => false end
  | VList l =>
      match b with
      | VList l' =>
          (fix go (l l' : list value) {struct l} : bool :=
             match l, l' with
             | [], [] => true
             | x :: xs, y :: ys => py_eq x y && go xs ys
             | _, _ => false
             end) l l'
      | _ => false
      end
  | VDict d =>
      match b with
      | VDict d' =>
          Nat.eqb (length d) (length d')
          && (fix go (d : list (string * value)) {struct d} : bool :=
                match d with
                | [] => true
                | kv :: rest =>
                    match dict_get (fst kv) d' with
                    | Some v' => py_eq (snd kv) v'
                    | None => false
                    end && go rest
                end) d
      | _ => false
      end
  end.

(** [str(v)], as an f-string formats [v]. *)
Definition py_str (v : value) : string :=
  match v with
  | VStr s => s
  | _ => repr v
  end.

(** [d[k] = v] on a dict whose keys are hashable values: the entry of an
    equal key is overwritten (the key object stays), else one is added. *)
Fixpoint vdict_set (k v : value) (d : list (value * value)) : list (value * value) :=
  match d with
  | [] => [(k, v)]
  | (k', v') :: rest =>
      if py_eq k' k then (k', v) :: rest else (k', v') :: vdict_set k v rest
  end.

End Builtins.

(** [self.tools] of a fresh planner. *)
Definition builtin_registry : gmap string ToolCapability := tools new_planner.

Module Raw.

Record PlanStep : Type := {
  step_id : value;                        (* id *)
  description : value;
  tool : value;                           (* None = LLM generation *)
  tool_input : value;
  expected_output : value;
  status : StepStatus;
  depends_on : value;
  output_data : value;                    (* None until a handler returns *)
  error : option string;
  deferred_requirements : value
}.

Record Plan : Type := {
  plan_id : string;                       (* id *)
  goal : string;
  complexity : Complexity;
  steps : list PlanStep;
  created_at : string;
  context : list (string * value)
}.

Record Planner : Type := {
  tools : gmap string ToolCapability;
  plans : gmap string Plan;
  plans_table : list Plan
}.

Definition set_status (st : StepStatus) (s : PlanStep) : PlanStep :=
  {| step_id := step_id s; description := description s; tool := tool s;
     tool_input := tool_input s; expected_output := expected_output s;
     status := st; depends_on := depends_on s;
     output_data := output_data s; error := error s;
     deferred_requirements := deferred_requirements s |}.

Definition set_output_data (v : value) (s : PlanStep) : PlanStep :=
  {| step_id := step_id s; description := description s; tool := tool s;
     tool_input := tool_input s; expected_output := expected_output s;
     status := status s; depends_on := depends_on s;
     output_data := v; error := error s;
     deferred_requirements := deferred_requirements s |}.

Definition set_error (e : string) (s : PlanStep) : PlanStep :=
  {| step_id := step_id s; description := description s; tool := tool s;
     tool_input := tool_input s; expected_output := expected_output s;
     status := status s; depends_on := depends_on s;
     output_data := output_data s; error := Some e;
     deferred_requirements := deferred_requirements s |}.

Definition set_steps (l : list PlanStep) (p : Plan) : Plan :=
  {| plan_id := plan_id p; goal := goal p; complexity := complexity p;
     steps := l; created_at := created_at p; context := context p |}.

Definition set_context (c : list (string * value)) (p : Plan) : Plan :=
  {| plan_id := plan_id p; goal := goal p; complexity := complexity p;
     steps := steps p; created_at := created_at p; context := c |}.

Definition set_plans (m : gmap string Plan) (pl : Planner) : Planner :=
  {| tools := tools pl; plans := m; plans_table := plans_table pl |}.

Definition store_plan (pid : string) (p : Plan) (pl : Planner) : Planner :=
  set_plans (<[pid := p]> (plans pl)) pl.

(** [register_tool]: [self.tools[capability.name] = capability]. *)
Definition register_tool (capability : ToolCapability) (pl : Planner) : Planner :=
  {| tools := <[name capability := capability]> (tools pl);
     plans := plans pl; plans_table := plans_table pl |}.

(** The dict built by [_get_execution_context]. *)
Record exec_context : Type := {
  plan_goal : string;
  ctx_step : PlanStep;
  dependency_outputs : list (value * value);
  plan_context : list (string * value)
}.

(** What names a plan: its id and its goal. *)
Definition label (p : Plan) : string * string := (plan_id p, goal p).

(** What a readiness pass can make of a step: nothing, or READY or
    NEEDS_TOOL out of PENDING, every other field as it was. *)
Definition pass_moves (x x' : PlanStep) : Prop :=
  x' = x
  \/ (status x = PENDING
      /\ (status x' = READY \/ status x' = NEEDS_TOOL)
      /\ step_id x' = step_id x /\ description x' = description x
      /\ tool x' = tool x /\ tool_input x' = tool_input x
      /\ expected_output x' = expected_output x
      /\ depends_on x' = depends_on x /\ output_data x' = output_data x
      /\ error x' = error x
      /\ deferred_requirements x' = deferred_requirements x).

(** What [execute_full_plan] returns. *)
Inductive full_result : Type :=
| PlanNotFound
| FullResult (pid : string) (g : string) (results : list (value * value))
             (final_plan : Plan).

(** The exceptions that leave [create_plan]: those raised before the
    readiness pass, and the one the pass raises. *)
Inductive creation_error : Type :=
| Rejected (e : create_error)
| ReadinessRaised (msg : string).

Section Untyped.

Context {World : Type} `{Collaborators World} `{Interpreter}.

(** *** Readiness pass *)

(** [{s.id for s in plan.steps if s.status == StepStatus.COMPLETED}]:
    each id that goes into the set is hashed. *)
Fixpoint completed_ids (l : list PlanStep) : outcome (list value) :=
  match l with
  | [] => Ok []
  | s :: rest =>
      if bool_decide (status s = COMPLETED) then
        if hashable (step_id s)
        then letO c := completed_ids rest in Ok (step_id s :: c)
        else Raise (unhashable (step_id s))
      else completed_ids rest
  end.

(** [dep in completed]: the probe is hashed, then compared. *)
Definition py_in (dep : value) (completed : list value) : outcome bool :=
  if hashable dep then Ok (existsb (fun c => py_eq c dep) completed)
  else Raise (unhashable dep).

(** [r.get("type") == "tool" and r.get("name") not in self.tools] *)
Definition unmet_requirement (tl : gmap string ToolCapability) (r : value)
  : outcome bool :=
  letO ty := value_get r "type" VNone in
  if py_eq ty (VStr "tool") then
    letO nm := value_get r "name" VNone in
    if hashable nm
    then Ok (negb (match nm with VStr n => registered tl n | _ => false end))
    else Raise (unhashable nm)
  else Ok false.

(** The list comprehension [unmet]. *)
Fixpoint unmet_of (tl : gmap string ToolCapability) (rs : list value)
  : outcome (list value) :=
  match rs with
  | [] => Ok []
  | r :: rest =>
      letO b := unmet_requirement tl r in
      letO u := unmet_of tl rest in
      Ok (if b then r :: u else u)
  end.

(** [all(dep in completed for dep in ...)]: stops at the first dependency
    that is not completed. *)
Fixpoint all_in (completed : list value) (deps : list value) : outcome bool :=
  match deps with
  | [] => Ok true
  | dep :: rest =>
      letO b := py_in dep completed in
      if b then all_in completed rest else Ok false
  end.

(** The body of the loop of [_update_ready_status] for one step. *)
Definition update_step (tl : gmap string ToolCapability) (completed : list value)
    (s : PlanStep) : outcome PlanStep :=
  if negb (bool_decide (status s = PENDING)) then Ok s
  else
    letO flagged :=
      (if truthy (deferred_requirements s) then
         letO rs := py_iter (deferred_requirements s) in
         letO u := unmet_of tl rs in
         Ok (match u with [] => false | _ :: _ => true end)
       else Ok false) in
    if (flagged : bool) then Ok (set_status NEEDS_TOOL s)
    else
      letO deps := py_iter (depends_on s) in
      letO ok := all_in completed deps in
      Ok (if (ok : bool) then set_status READY s else s).

(** The loop over [plan.steps]: the steps before the one that raises
    keep their new status. *)
Fixpoint pass_loop (tl : gmap string ToolCapability) (completed : list value)
    (l : list PlanStep) : list PlanStep * option string :=
  match l with
  | [] => ([], None)
  | s :: rest =>
      match update_step tl completed s with
      | Ok s' =>
          let (rest', e) := pass_loop tl completed rest in (s' :: rest', e)
      | Raise m => (s :: rest, Some m)
      end
  end.

(** [_update_ready_status]: the plan afterwards, and the text of the
    exception when it raises. *)
Definition _update_ready_status (tl : gmap string ToolCapability) (p : Plan)
  : Plan * option string :=
  match completed_ids (steps p) with
  | Raise m => (p, Some m)
  | Ok completed =>
      let (l, e) := pass_loop tl completed (steps p) in (set_steps l p, e)
  end.

(** [get_next_steps]: the planner afterwards, and the READY steps or the
    exception of the pass. *)
Definition get_next_steps (pl : Planner) (pid : string)
  : Planner * outcome (list PlanStep) :=
  match plans pl !! pid with
  | None => (pl, Ok [])
  | Some plan =>
      let (plan', e) := _update_ready_status (tools pl) plan in
      (store_plan pid plan' pl,
       match e with
       | Some m => Raise m
       | None => Ok (filter (fun s => status s = READY) (steps plan'))
       end)
  end.

(** *** Execution engine *)

(** [next((s for s in plan.steps if s.id == step_id), None)] *)
Definition find_step (sid : value) (l : list PlanStep) : option (nat * PlanStep) :=
  list_find (fun s => py_eq (step_id s) sid = true) l.

(** The loop of [_get_execution_context]: a dependency id is hashed only
    when a step carries it and has a truthy output. *)
Fixpoint dep_loop (l : list PlanStep) (deps : list value)
    (dep_outputs : list (value * value)) : outcome (list (value * value)) :=
  match deps with
  | [] => Ok dep_outputs
  | dep_id :: rest =>
      match find_step dep_id l with
      | Some (_, dep_step) =>
          if truthy (output_data dep_step) then
            if hashable dep_id
            then dep_loop l rest (vdict_set dep_id (output_data dep_step) dep_outputs)
            else Raise (unhashable dep_id)
          else dep_loop l rest dep_outputs
      | None => dep_loop l rest dep_outputs
      end
  end.

Definition _get_execution_context (p : Plan) (s : PlanStep) : outcome exec_context :=
  letO deps := py_iter (depends_on s) in
  letO dep_outputs := dep_loop (steps p) deps [] in
  Ok {| plan_goal := goal p; ctx_step := s;
        dependency_outputs := dep_outputs; plan_context := context p |}.

(** The dependency outputs as [json.dumps] writes them into the prompt. *)
Definition dumped (d : list (value * value)) : list (string * value) :=
  map (fun kv => (json_key (fst kv), snd kv)) d.

Definition _execute_llm (w : World) (s : PlanStep) (ctx : exec_context)
  : World * outcome value :=
  match value_get (tool_input s) "prompt" (description s) with
  | Ok prompt => ollama_chat w prompt (dumped (dependency_outputs ctx))
  | Raise e => (w, Raise e)
  end.

Definition _execute_memory_search (w : World) (s : PlanStep) : World * outcome value :=
  match (letO query := value_get (tool_input s) "query" (VStr EmptyString) in
         letO limit := value_get (tool_input s) "limit" (VInt 5) in
         Ok (query, limit)) with
  | Ok (query, limit) =>
      match memory_search w query limit with
      | (w', Ok results) => (w', Ok (VDict [("topics", results)]))
      | (w', Raise e) => (w', Raise e)
      end
  | Raise e => (w, Raise e)
  end.

Definition _execute_get_facts (w : World) (s : PlanStep) : World * outcome value :=
  match value_get (tool_input s) "topic_name" (VStr EmptyString) with
  | Ok topic_name =>
      match get_topic_facts w topic_name with
      | (w', Ok facts) =>
          (w',
           letO fs :=
             map_outcome
               (fun f =>
                  letO ty := dict_index "type" f in
                  letO co := dict_index "fact" f in
                  letO lo := dict_index "locked" f in
                  Ok (VDict [("type", ty); ("content", co); ("locked", lo)]))
               facts in
           Ok (VDict [("topic", topic_name); ("facts", VList fs)]))
      | (w', Raise e) => (w', Raise e)
      end
  | Raise e => (w, Raise e)
  end.

Definition _execute_save_fact (w : World) (s : PlanStep) : World * outcome value :=
  match (letO topic := value_get (tool_input s) "topic_name" (VStr EmptyString) in
         letO fact_type := value_get (tool_input s) "fact_type" (VStr "WHAT") in
         letO fact := value_get (tool_input s) "fact" (VStr EmptyString) in
         Ok (topic, fact_type, fact)) with
  | Ok (topic, fact_type, fact) =>
      match save_topic_fact w topic fact_type fact with
      | (w', Ok _) => (w', Ok (VDict [("success", VBool true)]))
      | (w', Raise e) =>
          (w', Ok (VDict [("success", VBool false); ("error", VStr e)]))
      end
  | Raise e => (w, Raise e)
  end.

(** The [if]/[elif] chain of [execute_step]: a tool that is neither
    [None] nor one of the four names gets the placeholder. *)
Definition dispatch (w : World) (s : PlanStep) (ctx : exec_context)
  : World * outcome value :=
  match tool s with
  | VNone => _execute_llm w s ctx
  | VStr t =>
      if String.eqb t "llm_generate" then _execute_llm w s ctx
      else if String.eqb t "memory_search_topics" then _execute_memory_search w s
      else if String.eqb t "memory_get_facts" then _execute_get_facts w s
      else if String.eqb t "memory_save_fact" then _execute_save_fact w s
      else (w, Ok (VStr ("Tool '" ++ t ++ "' not implemented yet")))
  | t => (w, Ok (VStr ("Tool '" ++ py_str t ++ "' not implemented yet")%string))
  end.

(** The [except] branch of [execute_step] on the step at position [i]. *)
Definition fail_step (i : nat) (e : string) (p : Plan) : Plan :=
  match steps p !! i with
  | Some s => set_steps (<[i := set_error e (set_status FAILED s)]> (steps p)) p
  | None => p
  end.

(** [execute_step]. The context, the handler, the writes of the result
    and the readiness pass are all inside the [try]: whichever raises,
    the step ends FAILED with the text of the exception and [None] is
    returned; what was written before stays written. *)
Definition execute_step (pl : Planner) (w : World) (pid : string) (sid : value)
  : Planner * World * value :=
  match plans pl !! pid with
  | None => (pl, w, VNone)
  | Some plan =>
      match find_step sid (steps plan) with
      | None => (pl, w, VNone)
      | Some (i, step) =>
          if negb (bool_decide (status step = READY)) then (pl, w, VNone)
          else
            let step1 := set_status EXECUTING step in
            let plan1 := set_steps (<[i := step1]> (steps plan)) plan in
            match _get_execution_context plan1 step1 with
            | Raise e => (store_plan pid (fail_step i e plan1) pl, w, VNone)
            | Ok ctx =>
                match dispatch w step1 ctx with
                | (w', Raise e) => (store_plan pid (fail_step i e plan1) pl, w', VNone)
                | (w', Ok result) =>
                    let step2 := set_output_data result (set_status COMPLETED step1) in
                    let plan2 :=
                      set_context
                        (dict_set ("output_" ++ py_str sid)%string result
                           (context plan1))
                        (set_steps (<[i := step2]> (steps plan1)) plan1) in
                    match _update_ready_status (tools pl) plan2 with
                    | (plan3, None) => (store_plan pid plan3 pl, w', result)
                    | (plan3, Some e) =>
                        (store_plan pid (fail_step i e plan3) pl, w', VNone)
                    end
                end
            end
      end
  end.

(** The [for step in next_steps] loop of one wave. *)
Fixpoint run_wave (pl : Planner) (w : World) (pid : string)
    (next_steps : list PlanStep) (results : list (value * value))
  : Planner * World * list (value * value) :=
  match next_steps with
  | [] => (pl, w, results)
  | step :: rest =>
      let '(pl', w', result) := execute_step pl w pid (step_id step) in
      run_wave pl' w' pid rest (results ++ [(description step, result)])
  end.

(** The [while next_steps := self.get_next_steps(plan_id)] loop: [None]
    when [fuel] waves were not enough; [Raise] when a readiness pass
    raised, which ends [execute_full_plan]. *)
Fixpoint wave_loop (fuel : nat) (pl : Planner) (w : World) (pid : string)
    (results : list (value * value))
  : option (Planner * World * outcome (list (value * value))) :=
  match fuel with
  | O => None
  | S fuel' =>
      match get_next_steps pl pid with
      | (pl1, Raise m) => Some (pl1, w, Raise m)
      | (pl1, Ok []) => Some (pl1, w, Ok results)
      | (pl1, Ok next_steps) =>
          let '(pl2, w2, results2) := run_wave pl1 w pid next_steps results in
          wave_loop fuel' pl2 w2 pid results2
      end
  end.

(** [', '.join(step.depends_on)], evaluated by [to_readable] when
    [step.depends_on] is truthy: the text of the [TypeError], if any. *)
Fixpoint join_items (i : nat) (l : list value) : option string :=
  match l with
  | [] => None
  | VStr _ :: rest => join_items (S i) rest
  | v :: _ =>
      Some ("sequence item " ++ pretty i ++ ": expected str instance, "
            ++ type_name v ++ " found")%string
  end.

Definition join_error (v : value) : option string :=
  if truthy v then
    match v with
    | VList l => join_items 0 l
    | VStr _ | VDict _ => None
    | _ => Some "can only join an iterable"
    end
  else None.

(** [Plan.to_readable]: the text is not modelled, the plan stands for
    it; the call raises when the join of some step does. *)
Definition to_readable (p : Plan) : outcome Plan :=
  match list_find (fun s => is_Some (join_error (depends_on s))) (steps p) with
  | Some (_, s) => Raise (default EmptyString (join_error (depends_on s)))
  | None => Ok p
  end.

(** [execute_full_plan]: [None] when the wave loop did not finish within
    [fuel] waves; [Raise] when a readiness pass or [to_readable] raised. *)
Definition execute_full_plan (fuel : nat) (pl : Planner) (w : World) (pid : string)
  : option (Planner * World * outcome full_result) :=
  match plans pl !! pid with
  | None => Some (pl, w, Ok PlanNotFound)
  | Some plan =>
      match wave_loop fuel pl w pid [] with
      | None => None
      | Some (pl', w', Raise m) => Some (pl', w', Raise m)
      | Some (pl', w', Ok results) =>
          let plan' := default plan (plans pl' !! pid) in
          Some (pl', w',
                (letO text := to_readable plan' in
                 Ok (FullResult pid (goal plan') results text)))
      end
  end.

(** *** Plan generator *)

(** [PlanStep(id=s.get("id", f"step_{len(steps)+1}"), ...)]: nothing is
    checked but that [s] has a [get]. *)
Definition parse_step (n : nat) (s : value) : create_error + PlanStep :=
  match s with
  | VDict d =>
      inr {| step_id :=
               default (VStr ("step_" ++ pretty (S n))%string) (dict_get "id" d);
             description := default (VStr EmptyString) (dict_get "description" d);
             tool := default VNone (dict_get "tool" d);
             tool_input := default (VDict []) (dict_get "tool_input" d);
             expected_output :=
               default (VStr EmptyString) (dict_get "expected_output" d);
             status := PENDING;
             depends_on := default (VList []) (dict_get "depends_on" d);
             output_data := VNone; error := None;
             deferred_requirements :=
               default (VList []) (dict_get "deferred_requirements" d) |}
  | _ => inl StepNotAnObject
  end.

Fixpoint parse_steps (acc : list PlanStep) (l : list value)
  : create_error + list PlanStep :=
  match l with
  | [] => inr acc
  | s :: rest =>
      bind_sum (parse_step (length acc) s)
        (fun st => parse_steps (acc ++ [st]) rest)
  end.

Definition _save_plan_to_db (p : Plan) (table : list Plan) : create_error + list Plan :=
  if existsb (fun row => String.eqb (plan_id row) (plan_id p)) table
  then inl PersistError
  else inr (table ++ [p]).

(** [create_plan]. *)
Definition create_plan (pl : Planner) (w : World) (goal_ : string) (context_ : value)
  : Planner * World * (creation_error + Plan) :=
  match ollama_plan w goal_ context_ (tools pl) with
  | (w1, Raise e) => (pl, w1, inl (Rejected (BackendRaised e)))
  | (w1, Ok content) =>
      let llm_output := strip content in
      let json_str := _extract_json llm_output in
      if String.eqb json_str EmptyString then (pl, w1, inl (Rejected NoJsonInReply))
      else
        match json_loads json_str with
        | None => (pl, w1, inl (Rejected JsonDecodeError))
        | Some (VDict data) =>
            match dict_get "complexity" data, dict_get "steps" data with
            | Some cv, Some sv =>
                match bind_sum (iterate sv) (parse_steps []) with
                | inl e => (pl, w1, inl (Rejected e))
                | inr steps_ =>
                    let (w2, hex) := uuid4_hex8 w1 in
                    match complexity_of_value cv with
                    | None => (pl, w2, inl (Rejected InvalidComplexity))
                    | Some c =>
                        let (w3, now) := datetime_now w2 in
                        match
                          _update_ready_status (tools pl)
                            {| plan_id := ("plan_" ++ hex)%string; goal := goal_;
                               complexity := c; steps := steps_;
                               created_at := now;
                               context :=
                                 [("reasoning",
                                   default (VStr EmptyString)
                                     (dict_get "reasoning" data))] |}
                        with
                        | (_, Some m) => (pl, w3, inl (ReadinessRaised m))
                        | (plan, None) =>
                            let pl1 := store_plan (plan_id plan) plan pl in
                            match _save_plan_to_db plan (plans_table pl1) with
                            | inl e => (pl1, w3, inl (Rejected e))
                            | inr table =>
                                ({| tools := tools pl1; plans := plans pl1;
                                    plans_table := table |}, w3, inr plan)
                            end
                        end
                    end
                end
            | _, _ => (pl, w1, inl (Rejected MissingRequiredFields))
            end
        | Some _ => (pl, w1, inl (Rejected NotAnObject))
        end
  end.

(** [Planner.__init__]: the four built-in capabilities, no plans. *)
Definition new_planner : Planner :=
  {| tools := builtin_registry; plans := ∅; plans_table := [] |}.

End Untyped.

End Raw.

(** *** The typed layer inside the untyped one

    A step whose fields have their annotated types, as a step of [Raw]. *)
Definition embed_requirement (r : requirement) : value :=
  VDict (map (fun kv => (fst kv, VStr (snd kv))) r).

Definition embed_step (s : PlanStep) : Raw.PlanStep :=
  {| Raw.step_id := VStr (step_id s);
     Raw.description := VStr (description s);
     Raw.tool := match tool s with Some t => VStr t | None => VNone end;
     Raw.tool_input := tool_input s;
     Raw.expected_output := VStr (expected_output s);
     Raw.status := status s;
     Raw.depends_on := VList (VStr <$> depends_on s);
     Raw.output_data := output_data s;
     Raw.error := error s;
     Raw.deferred_requirements :=
       VList (embed_requirement <$> deferred_requirements s) |}.

Definition embed_plan (p : Plan) : Raw.Plan :=
  {| Raw.plan_id := plan_id p; Raw.goal := goal p;
     Raw.complexity := complexity p; Raw.steps := embed_step <$> steps p;
     Raw.created_at := created_at p; Raw.context := context p |}.

Definition embed (pl : Planner) : Raw.Planner :=
  {| Raw.tools := tools pl; Raw.plans := embed_plan <$> plans pl;
     Raw.plans_table := embed_plan <$> plans_table pl |}.

Definition embed_keys (d : list (string * value)) : list (value * value) :=
  map (fun kv => (VStr (fst kv), snd kv)) d.

Definition embed_results (results : list result_entry) : list (value * value) :=
  map (fun e => (VStr (fst e), snd e)) results.

Definition embed_result (r : full_result) : Raw.full_result :=
  match r with
  | PlanNotFound => Raw.PlanNotFound
  | FullResult pid g results final_plan =>
      Raw.FullResult pid g (embed_results results) (embed_plan final_plan)
  end.

Definition embed_created (r : create_error + Plan) : Raw.creation_error + Raw.Plan :=
  match r with
  | inl e => inl (Raw.Rejected e)
  | inr p => inr (embed_plan p)
  end.

(** ** A sample world

    A concrete instance of the collaborators, for running the engine on
    examples: the world counts the calls made to it; the planning backend
    answers with the goal text itself; the generation backend echoes its
    prompt and raises on the prompt [raise]; the memory service refuses
    to save under the topic [locked]; [json.loads] is restricted to the
    replies listed in [sample_json]. *)
Module Sample.

Definition dq : string := String "034"%char EmptyString.

(** A string literal of JSON: the text between double quotes. *)
Definition q (s : string) : string := dq ++ s ++ dq.

(** A reply with no braces. *)
Definition prose_reply : string := "Sure! Here's your plan for you.".

(** Prose around a fenced number: no braces, not JSON as a whole. *)
Definition fenced_number : string :=
  "Your plan has" ++ String newline
    (fenced "```" "3" "```" ++ String newline "steps.").

(** An empty object between fences. *)
Definition fenced_object : string := fenced "```json" "{}" "```".

(** [{"complexity":"simple","steps":[{"id":"step_2"},{}]}]: the id
    synthesized for the second step is the id given to the first. *)
Definition clash_reply : string :=
  "{" ++ q "complexity" ++ ":" ++ q "simple" ++ "," ++ q "steps" ++ ":[{"
  ++ q "id" ++ ":" ++ q "step_2" ++ "},{}]}".

Definition clash_value : value :=
  VDict [("complexity", VStr "simple");
         ("steps", VList [VDict [("id", VStr "step_2")]; VDict []])].

(** [{"complexity":"huge","steps":[]}] *)
Definition huge_reply : string :=
  "{" ++ q "complexity" ++ ":" ++ q "huge" ++ "," ++ q "steps" ++ ":[]}".

Definition huge_value : value :=
  VDict [("complexity", VStr "huge"); ("steps", VList [])].

(** [{"complexity":"simple","steps":[{"id":"a"},
     {"id":"b","depends_on":["a"]}]}] *)
Definition chain_reply : string :=
  "{" ++ q "complexity" ++ ":" ++ q "simple" ++ "," ++ q "steps" ++ ":[{"
  ++ q "id" ++ ":" ++ q "a" ++ "},{" ++ q "id" ++ ":" ++ q "b" ++ ","
  ++ q "depends_on" ++ ":[" ++ q "a" ++ "]}]}".

Definition chain_value : value :=
  VDict [("complexity", VStr "simple");
         ("steps",
          VList [VDict [("id", VStr "a")];
                 VDict [("id", VStr "b"); ("depends_on", VList [VStr "a"])]])].

(** [{"complexity":"atomic","steps":[{"id":"step_1","tool":"image_gen",
     "deferred_requirements":[{"type":"tool","name":"image_gen"}]}]}] *)
Definition image_reply : string :=
  "{" ++ q "complexity" ++ ":" ++ q "atomic" ++ "," ++ q "steps" ++ ":[{"
  ++ q "id" ++ ":" ++ q "step_1" ++ "," ++ q "tool" ++ ":" ++ q "image_gen"
  ++ "," ++ q "deferred_requirements" ++ ":[{" ++ q "type" ++ ":" ++ q "tool"
  ++ "," ++ q "name" ++ ":" ++ q "image_gen" ++ "}]}]}".

Definition image_value : value :=
  VDict [("complexity", VStr "atomic");
         ("steps",
          VList [VDict [("id", VStr "step_1"); ("tool", VStr "image_gen");
                        ("deferred_requirements",
                         VList [VDict [("type", VStr "tool");
                                       ("name", VStr "image_gen")]])]])].

(** [{"complexity":"simple","steps":[{"id":"a","description":"collect"},
     {"id":"c","depends_on":["a"]},{"id":"b","depends_on":["a",["x"]]}]}]:
    the second dependency of [b] is a list. *)
Definition nested_reply : string :=
  "{" ++ q "complexity" ++ ":" ++ q "simple" ++ "," ++ q "steps" ++ ":[{"
  ++ q "id" ++ ":" ++ q "a" ++ "," ++ q "description" ++ ":" ++ q "collect"
  ++ "},{" ++ q "id" ++ ":" ++ q "c" ++ "," ++ q "depends_on" ++ ":["
  ++ q "a" ++ "]},{" ++ q "id" ++ ":" ++ q "b" ++ "," ++ q "depends_on"
  ++ ":[" ++ q "a" ++ ",[" ++ q "x" ++ "]]}]}".

Definition nested_value : value :=
  VDict [("complexity", VStr "simple");
         ("steps",
          VList [VDict [("id", VStr "a"); ("description", VStr "collect")];
                 VDict [("id", VStr "c"); ("depends_on", VList [VStr "a"])];
                 VDict [("id", VStr "b");
                        ("depends_on", VList [VStr "a"; VList [VStr "x"]])]])].

Definition sample_json : list (string * value) :=
  [("{}", VDict []); ("3", VInt 3);
   (clash_reply, clash_value); (huge_reply, huge_value);
   (chain_reply, chain_value); (image_reply, image_value);
   (nested_reply, nested_value)].

#[export] Instance sample_world : Collaborators nat := {|
  json_loads := fun s => dict_get s sample_json;
  ollama_plan := fun w g _ _ => (S w, Ok g);
  uuid4_hex8 := fun w => (S w, pretty w);
  datetime_now := fun w => (S w, pretty w);
  ollama_chat := fun w prompt _ =>
    (S w, match prompt with
          | VStr "raise" => Raise "backend unreachable"
          | _ => Ok prompt
          end);
  memory_search := fun w _ _ => (S w, Ok (VList []));
  get_topic_facts := fun w _ => (S w, Ok []);
  save_topic_fact := fun w topic _ _ =>
    (S w, match topic with
          | VStr "locked" => Raise "database is locked"
          | _ => Ok tt
          end)
|}.

(** The interpreter on the values of the examples: floats are compared
    by their [repr] (an integer [n] equals the float written [n.0]), and
    [repr] abbreviates strings and containers to the name of their
    type. *)
#[export] Instance sample_interpreter : Interpreter := {|
  float_eq := String.eqb;
  float_eq_int := fun r z => String.eqb r (pretty z ++ ".0")%string;
  repr := fun v =>
    match v with
    | VNone => "None"
    | VBool true => "True"
    | VBool false => "False"
    | VInt z => pretty z
    | VFloat r => r
    | _ => ("<" ++ type_name v ++ ">")%string
    end
|}.

Definition mk_step (i : string) (t : option string) (inp : value)
    (st : StepStatus) (deps : list string) (reqs : list requirement) : PlanStep :=
  {| step_id := i; description := EmptyString; tool := t; tool_input := inp;
     expected_output := EmptyString; status := st; depends_on := deps;
     output_data := VNone; error := None; deferred_requirements := reqs |}.

Definition mk_plan (l : list PlanStep) : Plan :=
  {| plan_id := "plan_0"; goal := EmptyString; complexity := SIMPLE; steps := l;
     created_at := "0"; context := [] |}.

Definition with_plan (l : list PlanStep) : Planner :=
  store_plan "plan_0" (mk_plan l) new_planner.

Definition image_gen : ToolCapability :=
  builtin "image_gen" "Generate an image" [] [] [].

Definition needs_image_gen : requirement :=
  [("type", "tool"); ("name", "image_gen")].

(** A step whose generation raises. *)
Definition raising_step : PlanStep :=
  mk_step "a" None (VDict [("prompt", VStr "raise")]) READY [] [].

(** A step whose save is refused by the memory service. *)
Definition locked_step : PlanStep :=
  mk_step "save" (Some "memory_save_fact")
    (VDict [("topic_name", VStr "locked"); ("fact", VStr "likes coffee")])
    READY [] [].


(** A step that needs a capability nobody registered. *)
Definition image_step : PlanStep :=
  mk_step "step_1" (Some "image_gen") (VDict []) PENDING [] [needs_image_gen].

End Sample.


(** ** The step state machine and the operations of the engine *)

(** The transitions a step can make: the two of the readiness pass and
    the two of [execute_step]. *)
Inductive step_trans : PlanStep -> PlanStep -> Prop :=
| trans_ready s :
    status s = PENDING -> step_trans s (set_status READY s)
| trans_needs_tool s :
    status s = PENDING -> step_trans s (set_status NEEDS_TOOL s)
| trans_completed s r :
    status s = READY ->
    step_trans s (set_output_data r (set_status COMPLETED s))
| trans_failed s e :
    status s = READY ->
    step_trans s (set_error e (set_status FAILED s)).

(** One call into the engine on an existing planner. *)
Inductive engine_op {World : Type} `{Collaborators World} : Planner -> Planner -> Prop :=
| op_register pl c : engine_op pl (register_tool c pl)
| op_next_steps pl pid : engine_op pl (get_next_steps pl pid).1
| op_execute_step pl w pid sid : engine_op pl (execute_step pl w pid sid).1.1
| op_execute_full_plan fuel pl w pid pl' w' r :
    execute_full_plan fuel pl w pid = Some (pl', w', r) -> engine_op pl pl'.

(** The planners a program can hold: a fresh one, and what the public
    operations make of it. *)
Inductive reachable {World : Type} `{Collaborators World} : Planner -> Prop :=
| reach_new : reachable new_planner
| reach_create pl w g c : reachable pl -> reachable (create_plan pl w g c).1.1
| reach_op pl pl' : reachable pl -> engine_op pl pl' -> reachable pl'.

(** Every plan of the first planner is still registered in the second,
    its steps related position by position. *)
Definition plans_related (R : PlanStep -> PlanStep -> Prop) (pl pl' : Planner) : Prop :=
  forall pid plan, plans pl !! pid = Some plan ->
    exists plan', plans pl' !! pid = Some plan'
                  /\ Forall2 R (steps plan) (steps plan').

(** The READY step at position [j] carries an id that an earlier step
    carries too: looking its id up finds the other step. *)
Definition shadowed (l : list PlanStep) (j : nat) : Prop :=
  exists s i s0, l !! j = Some s /\ status s = READY
                 /\ find_step (step_id s) l = Some (i, s0) /\ i <> j.

(** No step is READY with a dependency outside the COMPLETED ids. *)
Definition ready_sound (p : Plan) : Prop :=
  forall s, s ∈ steps p -> status s = READY ->
    forall d, d ∈ depends_on s -> d ∈ completed_ids (steps p).

Definition planner_sound (pl : Planner) : Prop :=
  forall pid plan, plans pl !! pid = Some plan -> ready_sound plan.

(** Number of steps that are neither COMPLETED nor FAILED. *)
Definition open_steps (l : list PlanStep) : nat :=
  length (filter (fun s => terminal s = false) l).

(** The three ways [execute_step] can go. *)
Inductive execute_step_outcome {World : Type} `{Collaborators World}
    (pl : Planner) (w : World) (pid sid : string)
  : Planner * World * value -> Prop :=
| exec_refused :
    (plans pl !! pid = None
     \/ exists plan, plans pl !! pid = Some plan
          /\ (find_step sid (steps plan) = None
              \/ exists i s, find_step sid (steps plan) = Some (i, s)
                             /\ status s <> READY)) ->
    execute_step_outcome pl w pid sid (pl, w, VNone)
| exec_completed plan i s w' r :
    plans pl !! pid = Some plan ->
    find_step sid (steps plan) = Some (i, s) ->
    status s = READY ->
    dispatch w (set_status EXECUTING s)
      (_get_execution_context
         (set_steps (<[i := set_status EXECUTING s]> (steps plan)) plan)
         (set_status EXECUTING s)) = (w', Ok r) ->
    execute_step_outcome pl w pid sid
      (store_plan pid
         (_update_ready_status (tools pl)
            (set_context (dict_set ("output_" ++ sid) r (context plan))
               (set_steps
                  (<[i := set_output_data r (set_status COMPLETED s)]> (steps plan))
                  plan)))
         pl, w', r)
| exec_failed plan i s w' e :
    plans pl !! pid = Some plan ->
    find_step sid (steps plan) = Some (i, s) ->
    status s = READY ->
    dispatch w (set_status EXECUTING s)
      (_get_execution_context
         (set_steps (<[i := set_status EXECUTING s]> (steps plan)) plan)
         (set_status EXECUTING s)) = (w', Raise e) ->
    execute_step_outcome pl w pid sid
      (store_plan pid
         (set_steps (<[i := set_error e (set_status FAILED s)]> (steps plan)) plan)
         pl, w', VNone).

(** ** The rest of planner.py *)

(** [Complexity.value] *)
Definition complexity_value (c : Complexity) : string :=
  match c with
  | ATOMIC => "atomic"
  | SIMPLE => "simple"
  | MODERATE => "moderate"
  | COMPLEX => "complex"
  end.

(** [get_plan]: [self.plans.get(plan_id)]. *)
Definition get_plan (pl : Planner) (pid : string) : option Plan := plans pl !! pid.

(** The names registered by [_register_builtin_tools]. *)
Definition builtin_names : list string :=
  ["llm_generate"; "memory_search_topics"; "memory_get_facts"; "memory_save_fact"].

(** No step carrying the id [d] can still complete: each one is FAILED
    or NEEDS_TOOL (or there is none). *)
Definition dead_dependency (l : list PlanStep) (d : string) : Prop :=
  forall x, x ∈ l -> step_id x = d -> status x = FAILED \/ status x = NEEDS_TOOL.

(** The step at position [j] is [s], possibly flagged NEEDS_TOOL, and
    its dependency [d] is dead. *)
Definition blocked_by (l : list PlanStep) (j : nat) (s : PlanStep) (d : string) : Prop :=
  (exists s', l !! j = Some s' /\ (s' = s \/ s' = set_status NEEDS_TOOL s))
  /\ dead_dependency l d.

(** The output of the dependency [d] that [_get_execution_context]
    passes on: that of the first step carrying the id, if it is truthy. *)
Definition dep_output (p : Plan) (d : string) : option value :=
  match find_step d (steps p) with
  | Some (_, dep_step) =>
      if truthy (output_data dep_step) then Some (output_data dep_step) else None
  | None => None
  end.

(** What identifies a plan and never changes once it is created. *)
Definition plan_header (p : Plan) : string * string * Complexity * string * list string :=
  (plan_id p, goal p, complexity p, created_at p, step_id <$> steps p).

(** Scanning [s] from nesting depth [depth], the depth comes back to
    zero at the last character of [s] and not before. *)
Fixpoint closes_at_end (depth : Z) (s : string) : bool :=
  match s with
  | EmptyString => false
  | String c rest =>
      let depth' :=
        if Ascii.eqb c "{"%char then (depth + 1)%Z
        else if Ascii.eqb c "}"%char then (depth - 1)%Z
        else depth in
      if Z.eqb depth' 0
      then match rest with EmptyString => true | _ => false end
      else closes_at_end depth' rest
  end.

(** ** Sample runs *)

Module Runs.

Import Sample.

(** Two generation steps, the second waiting for the first. *)
Definition chain_steps : list PlanStep :=
  [mk_step "a" None (VDict []) READY [] [];
   mk_step "b" None (VDict []) PENDING ["a"] []].

(** The plan [create_plan] makes of [chain_reply] in a fresh planner. *)
Definition chain_plan : Plan :=
  {| plan_id := "plan_1"; goal := chain_reply; complexity := SIMPLE;
     steps := chain_steps; created_at := "2";
     context := [("reasoning", VStr EmptyString)] |}.

Definition chain_created : Planner * nat * (create_error + Plan) :=
  create_plan new_planner 0 chain_reply VNone.

(** [chain_steps] after both waves. *)
Definition chain_done : Plan :=
  {| plan_id := "plan_0"; goal := EmptyString; complexity := SIMPLE;
     steps :=
       [set_output_data (VStr EmptyString) (mk_step "a" None (VDict []) COMPLETED [] []);
        set_output_data (VStr EmptyString)
          (mk_step "b" None (VDict []) COMPLETED ["a"] [])];
     created_at := "0";
     context := [("output_a", VStr EmptyString); ("output_b", VStr EmptyString)] |}.

(** A READY step bound to a capability without a handler. *)
Definition draw_step : PlanStep :=
  mk_step "draw" (Some "image_gen") (VDict []) READY [] [].

(** A READY generation step whose [tool_input] is a JSON null. *)
Definition null_step : PlanStep := mk_step "n" None VNone READY [] [].

(** A fact-fetch step. *)
Definition facts_step : PlanStep :=
  mk_step "f" (Some "memory_get_facts") (VDict [("topic_name", VStr "coffee")])
    READY [] [].

(** A failed step and a step that waits for it. *)
Definition starved_steps : list PlanStep :=
  [set_error "backend unreachable" (mk_step "a" None (VDict []) FAILED [] []);
   mk_step "b" None (VDict []) PENDING ["a"] []].

(** Prose around an empty object. *)
Definition embedded_reply : string := "Plan: {} done".

(** A step whose generation raises, and another step of the same wave. *)
Definition contained_steps : list PlanStep :=
  [raising_step; mk_step "b" None (VDict []) READY [] []].

(** [contained_steps] after [execute_full_plan]. *)
Definition contained_done : Plan :=
  {| plan_id := "plan_0"; goal := EmptyString; complexity := SIMPLE;
     steps :=
       [set_error "backend unreachable" (set_status FAILED raising_step);
        set_output_data (VStr EmptyString)
          (mk_step "b" None (VDict []) COMPLETED [] [])];
     created_at := "0";
     context := [("output_b", VStr EmptyString)] |}.

(** Steps and plans of the untyped layer. *)
Definition raw_step (i : string) (de t inp : value) (st : StepStatus) (deps : value)
  : Raw.PlanStep :=
  {| Raw.step_id := VStr i; Raw.description := de; Raw.tool := t;
     Raw.tool_input := inp; Raw.expected_output := VStr EmptyString;
     Raw.status := st; Raw.depends_on := deps; Raw.output_data := VNone;
     Raw.error := None; Raw.deferred_requirements := VList [] |}.

Definition raw_plan (l : list Raw.PlanStep) : Raw.Plan :=
  {| Raw.plan_id := "plan_0"; Raw.goal := EmptyString; Raw.complexity := SIMPLE;
     Raw.steps := l; Raw.created_at := "0"; Raw.context := [] |}.

Definition raw_with_plan (l : list Raw.PlanStep) : Raw.Planner :=
  Raw.store_plan "plan_0" (raw_plan l) Raw.new_planner.

Definition raw_ctx (s : Raw.PlanStep) : Raw.exec_context :=
  {| Raw.plan_goal := EmptyString; Raw.ctx_step := s;
     Raw.dependency_outputs := []; Raw.plan_context := [] |}.

(** A step whose save is refused by the memory service. *)
Definition raw_locked_step : Raw.PlanStep :=
  raw_step "save" (VStr EmptyString) (VStr "memory_save_fact")
    (VDict [("topic_name", VStr "locked"); ("fact", VStr "likes coffee")])
    READY (VList []).

(** A READY step bound to a capability without a handler. *)
Definition raw_draw_step : Raw.PlanStep :=
  raw_step "draw" (VStr EmptyString) (VStr "image_gen") (VDict []) READY (VList []).

(** The plan [create_plan] makes of [nested_reply] in a fresh planner. *)
Definition nested_created : Raw.Planner * nat * (Raw.creation_error + Raw.Plan) :=
  Raw.create_plan Raw.new_planner 0 nested_reply VNone.

Definition nested_a : Raw.PlanStep :=
  raw_step "a" (VStr "collect") VNone (VDict []) READY (VList []).

Definition nested_plan : Raw.Plan :=
  {| Raw.plan_id := "plan_1"; Raw.goal := nested_reply; Raw.complexity := SIMPLE;
     Raw.steps :=
       [nested_a;
        raw_step "c" (VStr EmptyString) VNone (VDict []) PENDING (VList [VStr "a"]);
        raw_step "b" (VStr EmptyString) VNone (VDict []) PENDING
          (VList [VStr "a"; VList [VStr "x"]])];
     Raw.created_at := "2";
     Raw.context := [("reasoning", VStr EmptyString)] |}.

(** [nested_plan] when the handler of its first step has returned and
    [execute_step] has written the result: the step is COMPLETED. *)
Definition nested_written : Raw.Plan :=
  Raw.set_context
    (dict_set "output_a" (VStr "collect") (Raw.context nested_plan))
    (Raw.set_steps
       (<[0 := Raw.set_output_data (VStr "collect")
                 (Raw.set_status COMPLETED nested_a)]> (Raw.steps nested_plan))
       nested_plan).

(** The plan of [nested_reply] when [execute_full_plan] is through
    with it. *)
Definition nested_done : Raw.Plan :=
  {| Raw.plan_id := "plan_1"; Raw.goal := nested_reply; Raw.complexity := SIMPLE;
     Raw.steps :=
       [Raw.set_error "unhashable type: 'list'"
          (Raw.set_status FAILED (Raw.set_output_data (VStr "collect") nested_a));
        Raw.set_output_data (VStr EmptyString)
          (raw_step "c" (VStr EmptyString) VNone (VDict []) COMPLETED
             (VList [VStr "a"]));
        raw_step "b" (VStr EmptyString) VNone (VDict []) PENDING
          (VList [VStr "a"; VList [VStr "x"]])];
     Raw.created_at := "2";
     Raw.context :=
       [("reasoning", VStr EmptyString); ("output_a", VStr "collect");
        ("output_c", VStr EmptyString)] |}.

End Runs.

(** * Properties *)

Section Readiness.

Implicit Types (tl : gmap string ToolCapability) (c : gset string).
Implicit Types (s : PlanStep) (l : list PlanStep).

Lemma update_step_frozen tl c s :
  status s <> PENDING -> update_step tl c s = s.
Proof.
  intros Hs. unfold update_step.
  rewrite bool_decide_eq_false_2 by done. done.
Qed.

Lemma update_step_pending tl c s :
  status s = PENDING ->
  (unmet tl s <> [] /\ update_step tl c s = set_status NEEDS_TOOL s)
  \/ (unmet tl s = [] /\ Forall (fun d => d ∈ c) (depends_on s)
      /\ update_step tl c s = set_status READY s)
  \/ (unmet tl s = [] /\ update_step tl c s = s).
Proof.
  intros Hs. unfold update_step.
  rewrite bool_decide_eq_true_2 by done. simpl.
  destruct (unmet tl s) as [|r rs] eqn:Hu.
  - destruct (forallb _ _) eqn:Hf.
    + right; left. split; [done|]. split; [|done].
      apply Forall_forall. intros d Hd.
      rewrite forallb_forall in Hf.
      apply list_elem_of_In in Hd. apply Hf in Hd.
      by apply bool_decide_eq_true_1 in Hd.
    + right; right. done.
  - left. done.
Qed.

Lemma update_step_trans tl c s :
  rtc step_trans s (update_step tl c s).
Proof.
  destruct (decide (status s = PENDING)) as [Hs|Hs].
  - destruct (update_step_pending tl c s Hs) as [[_ ->]|[(_ & _ & ->)|[_ ->]]].
    + apply rtc_once. by constructor.
    + apply rtc_once. by constructor.
    + done.
  - by rewrite update_step_frozen.
Qed.

Lemma update_step_id tl c s : step_id (update_step tl c s) = step_id s.
Proof.
  destruct (decide (status s = PENDING)) as [Hs|Hs].
  - by destruct (update_step_pending tl c s Hs) as [[_ ->]|[(_ & _ & ->)|[_ ->]]].
  - by rewrite update_step_frozen.
Qed.

Lemma update_step_completed tl c s :
  status (update_step tl c s) = COMPLETED <-> status s = COMPLETED.
Proof.
  destruct (decide (status s = PENDING)) as [Hs|Hs].
  - destruct (update_step_pending tl c s Hs) as [[_ ->]|[(_ & _ & ->)|[_ ->]]];
      simpl; rewrite ?Hs; done.
  - by rewrite update_step_frozen.
Qed.

Lemma elem_of_completed_ids l d :
  d ∈ completed_ids l <-> exists s, s ∈ l /\ status s = COMPLETED /\ step_id s = d.
Proof.
  unfold completed_ids. rewrite elem_of_list_to_set, list_elem_of_fmap.
  split.
  - intros (s & -> & Hs). apply list_elem_of_filter in Hs as [? ?]. eauto.
  - intros (s & ? & ? & <-). exists s. split; [done|].
    by apply list_elem_of_filter.
Qed.

Lemma completed_ids_update tl c l :
  completed_ids (update_step tl c <$> l) = completed_ids l.
Proof.
  apply set_eq. intros d. rewrite !elem_of_completed_ids. split.
  - intros (s' & Hin & Hst & Hid).
    apply list_elem_of_fmap in Hin as (s & -> & Hin).
    exists s. by rewrite update_step_completed, update_step_id in *.
  - intros (s & Hin & Hst & Hid).
    exists (update_step tl c s). split; [by apply list_elem_of_fmap_2|].
    by rewrite update_step_completed, update_step_id.
Qed.

End Readiness.

Section EngineFacts.

Context {World : Type} `{Collaborators World}.

Implicit Types (pl : Planner) (w : World) (p plan : Plan).
Implicit Types (s : PlanStep) (l : list PlanStep).

Lemma find_step_Some sid l i s :
  find_step sid l = Some (i, s) ->
  l !! i = Some s /\ step_id s = sid
  /\ forall j y, l !! j = Some y -> j < i -> step_id y <> sid.
Proof. unfold find_step. intros Hf. by apply list_find_Some in Hf. Qed.

Lemma update_pass_trans tl p :
  Forall2 (rtc step_trans) (steps p) (steps (_update_ready_status tl p)).
Proof.
  simpl. apply Forall2_fmap_r, Forall_Forall2_diag, Forall_forall.
  intros s _. apply update_step_trans.
Qed.

Lemma insert_then_update_trans tl c l i s s' :
  l !! i = Some s -> step_trans s s' -> status s' <> PENDING ->
  Forall2 (rtc step_trans) l (update_step tl c <$> <[i := s']> l).
Proof.
  intros Hi Ht Hs'. apply Forall2_fmap_r.
  rewrite <- (list_insert_id l i s) at 1 by done.
  apply Forall2_insert.
  - apply Forall_Forall2_diag, Forall_forall. intros x _. apply update_step_trans.
  - simpl. rewrite update_step_frozen by done. by apply rtc_once.
Qed.

Lemma insert_trans l i s s' :
  l !! i = Some s -> step_trans s s' ->
  Forall2 (rtc step_trans) l (<[i := s']> l).
Proof.
  intros Hi Ht.
  rewrite <- (list_insert_id l i s) at 1 by done.
  apply Forall2_insert; [|by apply rtc_once].
  by apply Forall_Forall2_diag, Forall_forall.
Qed.

Lemma execute_step_cases pl w pid sid :
  execute_step_outcome pl w pid sid (execute_step pl w pid sid).
Proof.
  unfold execute_step.
  destruct (plans pl !! pid) as [plan|] eqn:Hp; [|constructor; by left].
  destruct (find_step sid (steps plan)) as [[i s]|] eqn:Hf;
    [|constructor; right; eauto].
  unfold status_is.
  destruct (decide (status s = READY)) as [Hs|Hs].
  - rewrite bool_decide_eq_true_2 by done. simpl.
    destruct (dispatch _ _ _) as [w' [r|e]] eqn:Hd.
    + rewrite list_insert_insert_eq.
      by eapply (exec_completed pl w pid sid plan i s w' r).
    + rewrite list_insert_insert_eq.
      by eapply (exec_failed pl w pid sid plan i s w' e).
  - rewrite bool_decide_eq_false_2 by done. simpl.
    constructor. right. exists plan. split; [done|]. right. eauto.
Qed.

Lemma plans_related_refl (R : PlanStep -> PlanStep -> Prop) pl :
  (forall s, R s s) -> plans_related R pl pl.
Proof.
  intros HR pid plan Hp. exists plan. split; [done|].
  by apply Forall_Forall2_diag, Forall_forall.
Qed.

Lemma plans_related_trans pl1 pl2 pl3 :
  plans_related (rtc step_trans) pl1 pl2 ->
  plans_related (rtc step_trans) pl2 pl3 ->
  plans_related (rtc step_trans) pl1 pl3.
Proof.
  intros H12 H23 pid plan Hp.
  destruct (H12 pid plan Hp) as (plan2 & Hp2 & HF2).
  destruct (H23 pid plan2 Hp2) as (plan3 & Hp3 & HF3).
  exists plan3. split; [done|].
  revert HF3. generalize (steps plan3). clear -HF2.
  induction HF2; intros k HF3; inversion HF3; subst; constructor.
  - by etrans.
  - by apply IHHF2.
Qed.

Lemma store_plan_related pl pid plan plan' :
  plans pl !! pid = Some plan ->
  Forall2 (rtc step_trans) (steps plan) (steps plan') ->
  plans_related (rtc step_trans) pl (store_plan pid plan' pl).
Proof.
  intros Hp HF pid' q Hq. simpl.
  destruct (decide (pid = pid')) as [<-|Hne].
  - rewrite lookup_insert_eq. exists plan'. split; [done|]. congruence.
  - rewrite lookup_insert_ne by done. exists q. split; [done|].
    by apply Forall_Forall2_diag, Forall_forall.
Qed.

Lemma execute_step_related pl w pid sid :
  plans_related (rtc step_trans) pl (execute_step pl w pid sid).1.1.
Proof.
  destruct (execute_step_cases pl w pid sid) as [?|plan i s w' r Hp Hf Hs Hd
                                                  |plan i s w' e Hp Hf Hs Hd]; simpl.
  - by apply plans_related_refl.
  - apply find_step_Some in Hf as (Hi & _ & _).
    apply (store_plan_related _ _ plan); [done|]. simpl.
    apply (insert_then_update_trans _ _ _ _ s); [done|by constructor|done].
  - apply find_step_Some in Hf as (Hi & _ & _).
    apply (store_plan_related _ _ plan); [done|]. simpl.
    apply (insert_trans _ _ s); [done|by constructor].
Qed.

Lemma get_next_steps_related pl pid :
  plans_related (rtc step_trans) pl (get_next_steps pl pid).1.
Proof.
  unfold get_next_steps.
  destruct (plans pl !! pid) as [plan|] eqn:Hp; simpl.
  - apply (store_plan_related _ _ plan); [done|]. apply update_pass_trans.
  - by apply plans_related_refl.
Qed.

Lemma run_wave_related pl w pid wave results :
  plans_related (rtc step_trans) pl (run_wave pl w pid wave results).1.1.
Proof.
  revert pl w results. induction wave as [|s wave IH]; intros pl w results; simpl.
  - by apply plans_related_refl.
  - pose proof (execute_step_related pl w pid (step_id s)) as H1.
    destruct (execute_step pl w pid (step_id s)) as [[pl1 w1] r1]. simpl in H1.
    eapply plans_related_trans; [exact H1|apply IH].
Qed.

Lemma wave_loop_related fuel pl w pid results pl' w' results' :
  wave_loop fuel pl w pid results = Some (pl', w', results') ->
  plans_related (rtc step_trans) pl pl'.
Proof.
  revert pl w results. induction fuel as [|fuel IH]; intros pl w results; simpl; [done|].
  pose proof (get_next_steps_related pl pid) as H1.
  destruct (get_next_steps pl pid) as [pl1 [|s wave]]; simpl in H1.
  - intros [= <- <- <-]. done.
  - pose proof (run_wave_related pl1 w pid (s :: wave) results) as H2.
    destruct (run_wave pl1 w pid (s :: wave) results) as [[pl2 w2] r2].
    simpl in H2. intros Hl. apply IH in Hl.
    eapply plans_related_trans; [exact H1|].
    eapply plans_related_trans; [exact H2|exact Hl].
Qed.




(** A step that is neither PENDING nor READY has no transition. *)
Lemma frozen_step_stays s s' :
  status s <> PENDING -> status s <> READY -> rtc step_trans s s' -> s' = s.
Proof.
  intros Hp Hr Ht. destruct Ht as [|s1 s2 s3 H1 _]; [done|].
  destruct H1; congruence.
Qed.

End EngineFacts.

Section Claims.

Context {World : Type} `{Collaborators World}.

Implicit Types (pl : Planner) (w : World) (p plan : Plan).
Implicit Types (s : PlanStep) (l : list PlanStep).

(** C10. [execute_step] called with an unknown plan id, with a step id
    that no step of the plan carries, or for a step whose status is not
    READY, returns [None] and changes nothing: the planner (every plan,
    every step's status, output and error, every context map) and the
    outside world are as before. *)
Theorem execute_step_refused_is_noop pl w pid sid :
  (plans pl !! pid = None
   \/ (exists plan, plans pl !! pid = Some plan
         /\ forall s, s ∈ steps plan -> step_id s <> sid)
   \/ (exists plan i s, plans pl !! pid = Some plan
         /\ find_step sid (steps plan) = Some (i, s)
         /\ status s <> READY)) ->
  execute_step pl w pid sid = (pl, w, VNone).
Proof.
  intros Hcase. unfold execute_step.
  destruct Hcase as [->|[(plan & -> & Hno)|(plan & i & s & -> & -> & Hs)]].
  - done.
  - destruct (find_step sid (steps plan)) as [[i s]|] eqn:Hf; [|done].
    apply find_step_Some in Hf as (Hi & Hid & _).
    destruct (Hno s); [by eapply list_elem_of_lookup_2|done].
  - unfold status_is. by rewrite bool_decide_eq_false_2.
Qed.

Lemma dict_get_set {A : Type} (k : string) (v : A) (c : list (string * A)) :
  dict_get k (dict_set k v c) = Some v.
Proof.
  induction c as [|[k' v'] c IH]; simpl.
  - by rewrite String.eqb_refl.
  - destruct (String.eqb k k') eqn:E; simpl.
    + by rewrite String.eqb_refl.
    + by rewrite E.
Qed.

Lemma save_fact_outcome w s d :
  tool_input s = VDict d ->
  let topic := default (VStr EmptyString) (dict_get "topic_name" d) in
  let fact_type := default (VStr "WHAT") (dict_get "fact_type" d) in
  let fact := default (VStr EmptyString) (dict_get "fact" d) in
  _execute_save_fact w s
  = ((save_topic_fact w topic fact_type fact).1,
     Ok match (save_topic_fact w topic fact_type fact).2 with
        | Ok _ => VDict [("success", VBool true)]
        | Raise e => VDict [("success", VBool false); ("error", VStr e)]
        end).
Proof.
  intros Hin topic fact_type fact.
  unfold _execute_save_fact, value_get. rewrite Hin.
  subst topic fact_type fact. cbn.
  by destruct (save_topic_fact w _ _ _) as [w1 [[]|e]].
Qed.

(** The life of a step under any number of transitions: it stays as it
    is, or it is flagged from PENDING, or it ends COMPLETED with an output
    or FAILED with an error, from PENDING or READY. *)
Lemma step_lifetime s s' :
  rtc step_trans s s' ->
  s' = s
  \/ (status s = PENDING
      /\ (s' = set_status READY s \/ s' = set_status NEEDS_TOOL s))
  \/ ((status s = PENDING \/ status s = READY)
      /\ ((exists r, s' = set_output_data r (set_status COMPLETED s))
          \/ (exists e, s' = set_error e (set_status FAILED s)))).
Proof.
  induction 1 as [s|s s1 s' H1 _ IH]; [by left|].
  destruct H1 as [s Hs|s Hs|s r Hs|s e Hs];
    destruct IH as [->|[[Hs1 _]|[[Hs1|Hs1] [[r' ->]|[e' ->]]]]];
    simpl in *; try discriminate; eauto 10.
Qed.


(** *** The READY invariant *)

Lemma ready_sound_update tl p :
  ready_sound p -> ready_sound (_update_ready_status tl p).
Proof.
  intros Hp s' Hin Hst d Hd. simpl in *.
  rewrite completed_ids_update.
  apply list_elem_of_fmap in Hin as (s & -> & Hin).
  destruct (decide (status s = PENDING)) as [Hs|Hs].
  - destruct (update_step_pending tl (completed_ids (steps p)) s Hs)
      as [[_ Hu]|[(_ & Hall & Hu)|[_ Hu]]]; rewrite Hu in Hst, Hd; simpl in *.
    + done.
    + rewrite Forall_forall in Hall. by apply Hall.
    + congruence.
  - rewrite update_step_frozen in Hst, Hd by done. by eapply Hp.
Qed.

Lemma ready_sound_no_ready p :
  Forall (fun s => status s <> READY) (steps p) -> ready_sound p.
Proof.
  intros Hall s Hin Hst. rewrite Forall_forall in Hall. by destruct (Hall s Hin).
Qed.

(** Replacing a READY step by a step that is not READY keeps the
    invariant: the COMPLETED ids can only grow. *)
Lemma ready_sound_insert p i s s' :
  ready_sound p -> steps p !! i = Some s -> status s = READY ->
  status s' <> READY ->
  ready_sound (set_steps (<[i := s']> (steps p)) p).
Proof.
  intros Hp Hi Hs Hs' x Hin Hst d Hd. simpl in *.
  apply list_elem_of_lookup in Hin as (j & Hj).
  destruct (decide (i = j)) as [<-|Hne].
  - rewrite list_lookup_insert_eq in Hj by (by eapply lookup_lt_Some).
    congruence.
  - rewrite list_lookup_insert_ne in Hj by done.
    assert (Hd' : d ∈ completed_ids (steps p)).
    { eapply Hp; [by eapply list_elem_of_lookup_2|done|done]. }
    apply elem_of_completed_ids in Hd' as (y & Hy & Hyst & Hyid).
    apply elem_of_completed_ids. exists y. split; [|done].
    apply list_elem_of_lookup in Hy as (k & Hk).
    apply list_elem_of_lookup. exists k.
    rewrite list_lookup_insert_ne; [done|]. intros <-. congruence.
Qed.

Lemma ready_sound_context p c :
  ready_sound p -> ready_sound (set_context c p).
Proof. done. Qed.

Lemma planner_sound_store pl pid plan :
  planner_sound pl -> ready_sound plan -> planner_sound (store_plan pid plan pl).
Proof.
  intros Hpl Hplan pid' q. simpl.
  destruct (decide (pid = pid')) as [<-|Hne].
  - rewrite lookup_insert_eq. by intros [= <-].
  - rewrite lookup_insert_ne by done. apply Hpl.
Qed.

Lemma execute_step_sound pl w pid sid :
  planner_sound pl -> planner_sound (execute_step pl w pid sid).1.1.
Proof.
  intros Hpl.
  destruct (execute_step_cases pl w pid sid) as [?|plan i s w' r Hp Hf Hs Hd
                                                  |plan i s w' e Hp Hf Hs Hd]; simpl.
  - done.
  - apply find_step_Some in Hf as (Hi & _ & _).
    apply planner_sound_store; [done|]. apply ready_sound_update.
    apply (ready_sound_insert plan i s); [by eapply Hpl|done|done|done].
  - apply find_step_Some in Hf as (Hi & _ & _).
    apply planner_sound_store; [done|].
    apply (ready_sound_insert plan i s); [by eapply Hpl|done|done|done].
Qed.

Lemma get_next_steps_sound pl pid :
  planner_sound pl -> planner_sound (get_next_steps pl pid).1.
Proof.
  intros Hpl. unfold get_next_steps.
  destruct (plans pl !! pid) as [plan|] eqn:Hp; simpl; [|done].
  apply (planner_sound_store pl); [done|].
  apply ready_sound_update. by eapply Hpl.
Qed.

Lemma run_wave_sound pl w pid wave results :
  planner_sound pl -> planner_sound (run_wave pl w pid wave results).1.1.
Proof.
  revert pl w results. induction wave as [|s wave IH]; intros pl w results Hpl;
    simpl; [done|].
  pose proof (execute_step_sound pl w pid (step_id s) Hpl) as H1.
  destruct (execute_step pl w pid (step_id s)) as [[pl1 w1] r1].
  by apply IH.
Qed.

Lemma wave_loop_sound fuel pl w pid results pl' w' results' :
  wave_loop fuel pl w pid results = Some (pl', w', results') ->
  planner_sound pl -> planner_sound pl'.
Proof.
  revert pl w results. induction fuel as [|fuel IH]; intros pl w results; simpl; [done|].
  pose proof (get_next_steps_sound pl pid) as H1.
  destruct (get_next_steps pl pid) as [pl1 [|s wave]]; simpl in H1.
  - intros [= <- <- <-]. done.
  - pose proof (run_wave_sound pl1 w pid (s :: wave) results) as H2.
    destruct (run_wave pl1 w pid (s :: wave) results) as [[pl2 w2] r2].
    simpl in H2. intros Hl Hpl. eapply IH; eauto.
Qed.

Lemma engine_op_sound pl pl' :
  engine_op pl pl' -> planner_sound pl -> planner_sound pl'.
Proof.
  destruct 1 as [pl c|pl pid|pl w pid sid|fuel pl w pid pl' w' r Hfull]; intros Hpl.
  - done.
  - by apply get_next_steps_sound.
  - by apply execute_step_sound.
  - unfold execute_full_plan in Hfull.
    destruct (plans pl !! pid) as [plan|]; [|by simplify_eq].
    destruct (wave_loop fuel pl w pid []) as [[[pl2 w2] r2]|] eqn:Hl; [|done].
    simplify_eq. by eapply wave_loop_sound.
Qed.

Lemma parse_step_pending n v s : parse_step n v = inr s -> status s = PENDING.
Proof.
  unfold parse_step. destruct v; try done.
  unfold bind_sum.
  repeat (match goal with
          | |- context [field ?f ?k ?x ?d] => destruct (field f k x d)
          end; [done|]).
  by intros [= <-].
Qed.

Lemma parse_steps_pending acc (vs : list value) res :
  Forall (fun s => status s = PENDING) acc ->
  parse_steps acc vs = inr res ->
  Forall (fun s => status s = PENDING) res.
Proof.
  revert acc. induction vs as [|v vs IH]; intros acc Hacc; simpl.
  - by intros [= <-].
  - destruct (parse_step (length acc) v) as [|s] eqn:Hs; [done|]. simpl.
    apply IH. apply Forall_app. split; [done|].
    constructor; [|done]. by eapply parse_step_pending.
Qed.

Lemma create_plan_sound pl w g c :
  planner_sound pl -> planner_sound (create_plan pl w g c).1.1.
Proof.
  intros Hpl. unfold create_plan.
  destruct (ollama_plan w g c (tools pl)) as [w1 [content|e]]; [|done].
  destruct (String.eqb _ _); [done|].
  destruct (json_loads _) as [[| | | | | |data]|]; try done.
  destruct (dict_get "complexity" data) as [cv|]; [|done].
  destruct (dict_get "steps" data) as [sv|]; [|done].
  destruct (bind_sum _ _) as [e|steps_] eqn:Hparse; [done|].
  destruct (uuid4_hex8 w1) as [w2 hex].
  destruct (complexity_of_value cv) as [cx|]; [|done].
  destruct (datetime_now w2) as [w3 now].
  match goal with
  | |- context [store_plan ?k ?p pl] =>
      assert (Hnew : planner_sound (store_plan k p pl))
  end.
  { apply planner_sound_store; [done|]. apply ready_sound_update.
    apply ready_sound_no_ready. simpl.
    unfold bind_sum in Hparse. destruct (iterate sv) as [|vs]; [done|].
    apply parse_steps_pending in Hparse; [|done].
    eapply Forall_impl; [exact Hparse|]. simpl. intros s Hs. congruence. }
  destruct (_save_plan_to_db _ _); done.
Qed.

(** In the typed layer the invariant holds: in every planner reachable
    from a fresh one by [create_plan], capability registration, readiness
    passes, [execute_step] and [execute_full_plan], no step is READY while
    one of its dependency ids is missing from the ids of the COMPLETED
    steps of its plan. *)
Lemma reachable_planner_sound pl : reachable pl -> planner_sound pl.
Proof.
  intros Hreach.
  induction Hreach as [|pl w g c _ IH|pl pl' _ IH Hop].
  - intros k q Hq. done.
  - by apply create_plan_sound.
  - by eapply engine_op_sound.
Qed.

(** *** Plan creation *)

Lemma create_plan_failure_before_registration pl w g c pl' w' e :
  create_plan pl w g c = (pl', w', inl e) -> e <> PersistError -> pl' = pl.
Proof.
  unfold create_plan.
  destruct (ollama_plan w g c (tools pl)) as [w1 [content|msg]];
    [|by intros [= <- _ _]].
  destruct (String.eqb _ _); [by intros [= <- _ _]|].
  destruct (json_loads _) as [[| | | | | |data]|]; try by intros [= <- _ _].
  destruct (dict_get "complexity" data) as [cv|]; [|by intros [= <- _ _]].
  destruct (dict_get "steps" data) as [sv|]; [|by intros [= <- _ _]].
  destruct (bind_sum _ _) as [e0|steps_]; [by intros [= <- _ _]|].
  destruct (uuid4_hex8 w1) as [w2 hex].
  destruct (complexity_of_value cv) as [cx|]; [|by intros [= <- _ _]].
  destruct (datetime_now w2) as [w3 now].
  unfold _save_plan_to_db. destruct (existsb _ _); [|done].
  intros [= _ _ <-]. done.
Qed.

(** C5. When [create_plan] raises because no JSON could be extracted
    from the reply, because the extracted text does not parse, because
    [complexity] or [steps] is missing, or because the complexity value is
    invalid, the planner is exactly as before the call: the same plan
    table, the same rows in the database, the same registry. *)
Theorem create_plan_failure_is_atomic pl w g c pl' w' e :
  create_plan pl w g c = (pl', w', inl e) ->
  e = NoJsonInReply \/ e = JsonDecodeError
  \/ e = MissingRequiredFields \/ e = InvalidComplexity ->
  pl' = pl /\ plans pl' = plans pl /\ plans_table pl' = plans_table pl.
Proof.
  intros Hc He.
  assert (pl' = pl) as ->; [|done].
  eapply create_plan_failure_before_registration; [exact Hc|].
  destruct He as [-> | [-> | [-> | ->]]]; done.
Qed.

End Claims.

Section Strings.

Implicit Types (s a b p x y : string) (c : ascii).

Lemma append_nil_l y : (EmptyString ++ y)%string = y.
Proof. reflexivity. Qed.

Lemma append_cons c x y : (String c x ++ y)%string = String c (x ++ y).
Proof. reflexivity. Qed.

Lemma split_lines_nonempty s : split_lines s <> [].
Proof.
  destruct s as [|c s]; cbn [split_lines]; [done|].
  destruct (Ascii.eqb c newline); [done|].
  by destruct (split_lines s).
Qed.

Lemma split_lines_app x y :
  split_lines (x ++ String newline y) = split_lines x ++ split_lines y.
Proof.
  induction x as [|c x IH]; rewrite ?append_nil_l, ?append_cons;
    cbn [split_lines].
  - by rewrite Ascii.eqb_refl.
  - destruct (Ascii.eqb c newline); [by rewrite IH|].
    rewrite IH. pose proof (split_lines_nonempty x).
    by destruct (split_lines x).
Qed.

Lemma split_lines_single a :
  first_index newline a = None -> split_lines a = [a].
Proof.
  induction a as [|c a IH]; [done|]. cbn [first_index split_lines].
  rewrite (Ascii.eqb_sym c newline).
  destruct (Ascii.eqb newline c); [done|].
  destruct (first_index newline a); [done|]. intros _. by rewrite IH.
Qed.

Lemma join_split_lines s : join_lines (split_lines s) = s.
Proof.
  induction s as [|c s IH]; [done|]. cbn [split_lines].
  destruct (Ascii.eqb c newline) eqn:E.
  - apply Ascii.eqb_eq in E as ->.
    pose proof (split_lines_nonempty s).
    cbn [join_lines]. destruct (split_lines s) eqn:E'; [done|].
    by rewrite IH.
  - pose proof (split_lines_nonempty s).
    destruct (split_lines s) as [|line more]; [done|].
    cbn [join_lines] in *. destruct more; simpl; by rewrite <- IH.
Qed.

Lemma prefix_rstrip p x :
  String.prefix p (rstrip x) = true -> String.prefix p x = true.
Proof.
  revert p. induction x as [|c x IH]; intros p; simpl; [done|].
  destruct p as [|a p]; [done|].
  destruct (rstrip x) as [|c' r] eqn:Er.
  - destruct (isspace c); simpl; [done|].
    destruct (ascii_dec a c); [|done]. destruct p; [by destruct x|done].
  - simpl. destruct (ascii_dec a c); [|done]. apply IH.
Qed.

Lemma contains_prefix p x : String.prefix p x = true -> contains p x = true.
Proof. intros Hp. destruct x; simpl in *; by rewrite Hp. Qed.

Lemma contains_cons p c x : contains p x = true -> contains p (String c x) = true.
Proof. intros Hp. cbn [contains]. rewrite Hp. apply orb_true_r. Qed.

Lemma contains_lstrip p x : contains p (lstrip x) = true -> contains p x = true.
Proof.
  induction x as [|c x IH]; [done|]. cbn [lstrip].
  destruct (isspace c); [|done]. intros Hp. by apply contains_cons, IH.
Qed.

Lemma prefix_app p x y :
  String.prefix p x = true -> String.prefix p (x ++ y) = true.
Proof.
  revert p. induction x as [|c x IH]; intros p;
    rewrite ?append_nil_l, ?append_cons; simpl.
  - destruct p; [by destruct y|done].
  - destruct p as [|a p]; [done|]. destruct (ascii_dec a c); [|done]. apply IH.
Qed.

Lemma contains_app p x y : contains p x = true -> contains p (x ++ y) = true.
Proof.
  induction x as [|c x IH].
  - simpl. destruct p; [intros _|done]. apply contains_prefix. by destruct y.
  - cbn [contains]. intros [Hp|Hp]%orb_true_iff.
    + apply contains_prefix. by apply (prefix_app p (String c x) y).
    + rewrite append_cons. by apply contains_cons, IH.
Qed.

Lemma fence_line_contains line :
  fence_line line = true -> contains "```" line = true.
Proof.
  unfold fence_line, strip. intros Hp.
  by apply contains_lstrip, contains_prefix, prefix_rstrip.
Qed.

Lemma fence_scan_inside body rest :
  Forall (fun line => fence_line line = false) body ->
  fence_scan true (body ++ rest) = body ++ fence_scan true rest.
Proof.
  induction 1 as [|line body Hl _ IH]; [done|].
  simpl. unfold fence_line in Hl. rewrite Hl. by rewrite IH.
Qed.

Lemma first_index_None_cons c c' x :
  first_index c (String c' x) = None ->
  Ascii.eqb c c' = false /\ first_index c x = None.
Proof.
  simpl. destruct (Ascii.eqb c c'); [done|].
  by destruct (first_index c x).
Qed.

End Strings.

Section ExtractionClaims.

Context {World : Type} `{Collaborators World}.

Lemma brace_scan_no_braces text rest i n st :
  first_index "{"%char rest = None ->
  first_index "}"%char rest = None ->
  brace_scan text rest i n st = None.
Proof.
  revert i n st. induction rest as [|c rest IH]; intros i n st; [done|].
  intros [Ho Ho']%first_index_None_cons [Hc Hc']%first_index_None_cons.
  cbn [brace_scan].
  rewrite (Ascii.eqb_sym c "{"%char), Ho, (Ascii.eqb_sym c "}"%char), Hc.
  by apply IH.
Qed.

Lemma try_fences_fenced opening body closing :
  fence_line opening = true -> fence_line closing = true ->
  first_index newline closing = None ->
  first_index newline opening = None ->
  Forall (fun line => fence_line line = false) (split_lines body) ->
  parses body = true ->
  try_fences (fenced opening body closing) = Some body.
Proof.
  intros Ho Hc Hnc Hno Hbody Hp. unfold try_fences, fenced.
  rewrite (contains_app "```" opening) by by apply fence_line_contains.
  rewrite orb_true_r.
  rewrite !split_lines_app, (split_lines_single opening),
    (split_lines_single closing) by done.
  cbn [app fence_scan]. unfold fence_line in Ho. rewrite Ho. cbn [negb].
  rewrite fence_scan_inside by done.
  cbn [fence_scan]. unfold fence_line in Hc. rewrite Hc. cbn [fence_scan].
  rewrite app_nil_r.
  pose proof (split_lines_nonempty body) as Hne.
  pose proof (join_split_lines body) as Hj.
  destruct (split_lines body) as [|line more]; [done|].
  by rewrite Hj, Hp.
Qed.

(** C7, as the code has it. [_extract_json] returns a reply that parses
    as it is; for a parsing body between an opening and a closing fence
    line it returns the body as it is (the fenced reply itself does not
    parse, and no line of the body starts a fence); and for a reply with
    no brace that does not parse and whose fenced lines, if it has any,
    do not parse either, it returns the empty string, so that
    [create_plan] raises its "no JSON" error and leaves the planner as it
    was. *)
Theorem extract_json_round_trip :
  (forall text, parses text = true -> _extract_json text = text)
  /\ (forall opening body closing,
        parses (fenced opening body closing) = false ->
        parses body = true ->
        fence_line opening = true -> first_index newline opening = None ->
        fence_line closing = true -> first_index newline closing = None ->
        Forall (fun line => fence_line line = false) (split_lines body) ->
        _extract_json (fenced opening body closing) = body)
  /\ (forall text,
        first_index "{"%char text = None ->
        first_index "}"%char text = None ->
        parses text = false ->
        try_fences text = None ->
        _extract_json text = EmptyString
        /\ forall pl w g c w1 content,
             ollama_plan w g c (tools pl) = (w1, Ok content) ->
             strip content = text ->
             create_plan pl w g c = (pl, w1, inl NoJsonInReply)).
Proof.
  split_and!.
  - intros text Hp. unfold _extract_json. by rewrite Hp.
  - intros opening body closing Hnp Hp Ho Hno Hc Hnc Hbody.
    unfold _extract_json. rewrite Hnp.
    by rewrite try_fences_fenced.
  - intros text Ho Hc Hnp Hf.
    assert (He : _extract_json text = EmptyString).
    { unfold _extract_json. rewrite Hnp, Hf.
      rewrite brace_scan_no_braces by done.
      unfold regex_matches. by rewrite Ho. }
    split; [done|].
    intros pl w g c w1 content Hchat Hstrip.
    unfold create_plan. rewrite Hchat, Hstrip, He. done.
Qed.

End ExtractionClaims.

Section Termination.

Context {World : Type} `{Collaborators World}.

Implicit Types (pl : Planner) (w : World) (p plan : Plan).
Implicit Types (s : PlanStep) (l : list PlanStep).

Lemma step_trans_id s s' : rtc step_trans s s' -> step_id s' = step_id s.
Proof.
  induction 1 as [|s s1 s' H1 _ IH]; [done|].
  rewrite IH. by destruct H1.
Qed.

Lemma step_trans_terminal s s' :
  rtc step_trans s s' -> terminal s = true -> s' = s.
Proof.
  intros Ht Hs. apply frozen_step_stays in Ht; [done| |];
    intros Hst; unfold terminal, status_is in Hs; rewrite Hst in Hs; done.
Qed.

Lemma related_ids l l' :
  Forall2 (rtc step_trans) l l' -> step_id <$> l' = step_id <$> l.
Proof.
  induction 1 as [|s s' l l' Ht _ IH]; [done|].
  rewrite !fmap_cons. f_equal; [by apply step_trans_id|done].
Qed.

Lemma open_steps_cons s l :
  open_steps (s :: l) = (if terminal s then 0 else 1) + open_steps l.
Proof.
  unfold open_steps. rewrite filter_cons.
  destruct (terminal s); by case_decide.
Qed.

Lemma related_open l l' :
  Forall2 (rtc step_trans) l l' -> open_steps l' <= open_steps l.
Proof.
  induction 1 as [|s s' l l' Ht _ IH]; [done|].
  rewrite !open_steps_cons.
  destruct (terminal s) eqn:Hs.
  - apply step_trans_terminal in Ht as ->; [|done]. rewrite Hs. simpl. lia.
  - destruct (terminal s'); simpl; lia.
Qed.

Lemma open_insert l i s s' :
  l !! i = Some s -> terminal s = false -> terminal s' = true ->
  open_steps (<[i := s']> l) < open_steps l.
Proof.
  revert i. induction l as [|x l IH]; intros i Hi Hs Hs'; [done|].
  destruct i as [|i]; simpl in *.
  - simplify_eq. rewrite !open_steps_cons, Hs, Hs'. simpl. lia.
  - rewrite !open_steps_cons. specialize (IH i Hi Hs Hs'). lia.
Qed.

Lemma find_step_nodup l i s :
  NoDup (step_id <$> l) -> l !! i = Some s ->
  find_step (step_id s) l = Some (i, s).
Proof.
  intros Hnd Hi. apply list_find_Some. split_and!; [done|done|].
  intros j y Hj Hlt Hid.
  assert (j = i); [|lia].
  eapply (NoDup_lookup _ j i (step_id s) Hnd).
  - by rewrite list_lookup_fmap, Hj, <- Hid.
  - by rewrite list_lookup_fmap, Hi.
Qed.

Lemma find_step_ids l l' sid i s0 :
  step_id <$> l' = step_id <$> l ->
  find_step sid l = Some (i, s0) ->
  exists s0', find_step sid l' = Some (i, s0').
Proof.
  intros Hids (Hi & Hid & Hfirst)%find_step_Some.
  assert (Hlk : forall k x, l' !! k = Some x ->
            exists x0, l !! k = Some x0 /\ step_id x0 = step_id x).
  { intros k x Hk.
    assert (Hk' : (step_id <$> l) !! k = Some (step_id x)).
    { by rewrite <- Hids, list_lookup_fmap, Hk. }
    apply list_lookup_fmap_Some in Hk' as (x0 & ? & ?). eauto. }
  assert (Hi' : (step_id <$> l') !! i = Some (step_id s0)).
  { by rewrite Hids, list_lookup_fmap, Hi. }
  apply list_lookup_fmap_Some in Hi' as (s0' & Hi' & Hid').
  exists s0'. apply list_find_Some. split_and!; [done|congruence|].
  intros k x Hk Hlt Hx.
  destruct (Hlk k x Hk) as (x0 & Hk0 & Hx0).
  apply (Hfirst k x0 Hk0 Hlt). congruence.
Qed.

(** Executing a READY step that its id finds closes it. *)
Lemma execute_step_progress pl w pid sid plan i s :
  plans pl !! pid = Some plan ->
  find_step sid (steps plan) = Some (i, s) ->
  status s = READY ->
  exists plan',
    plans (execute_step pl w pid sid).1.1 !! pid = Some plan'
    /\ Forall2 (rtc step_trans) (steps plan) (steps plan')
    /\ open_steps (steps plan') < open_steps (steps plan).
Proof.
  intros Hp Hf Hs.
  destruct (execute_step_related pl w pid sid pid plan Hp) as (plan' & Hp' & HF).
  exists plan'. split; [done|]. split; [done|].
  pose proof (find_step_Some _ _ _ _ Hf) as (Hi & _ & _).
  assert (Hopen : terminal s = false).
  { unfold terminal, status_is. by rewrite Hs. }
  destruct (execute_step_cases pl w pid sid) as [Hno|plan0 i0 s0 w' r Hp0 Hf0 Hs0 Hd
                                                  |plan0 i0 s0 w' e Hp0 Hf0 Hs0 Hd].
  - exfalso. destruct Hno as [Hno|(q & Hq & [Hno|(k & x & Hk & Hx)])];
      [congruence| |]; assert (q = plan) as -> by congruence; congruence.
  - simplify_eq. simpl in Hp'. rewrite lookup_insert_eq in Hp'. simplify_eq.
    eapply Nat.le_lt_trans; [apply related_open, update_pass_trans|].
    simpl. by apply (open_insert _ _ s).
  - simplify_eq. simpl in Hp'. rewrite lookup_insert_eq in Hp'. simplify_eq.
    simpl. by apply (open_insert _ _ s).
Qed.

Lemma wave_loop_terminates fuel pl w pid results plan :
  plans pl !! pid = Some plan ->
  NoDup (step_id <$> steps plan) ->
  open_steps (steps plan) < fuel ->
  exists res, wave_loop fuel pl w pid results = Some res.
Proof.
  revert pl w results plan.
  induction fuel as [|fuel IH]; intros pl w results plan Hp Hnd Hlt; [lia|].
  cbn [wave_loop].
  pose proof (get_next_steps_related pl pid pid plan Hp) as (plan1 & Hp1 & HF1).
  assert (Hwave : forall x, x ∈ (get_next_steps pl pid).2 ->
            x ∈ steps plan1 /\ status x = READY).
  { intros x. unfold get_next_steps in *. rewrite Hp in *. simpl in *.
    rewrite lookup_insert_eq in Hp1. simplify_eq.
    intros Hx. by apply list_elem_of_filter in Hx as [? ?]. }
  destruct (get_next_steps pl pid) as [pl1 [|x rest]]; [eauto|].
  simpl in Hp1, Hwave.
  destruct (Hwave x) as [Hx Hxs]; [left|].
  apply list_elem_of_lookup in Hx as (i & Hi).
  assert (Hnd1 : NoDup (step_id <$> steps plan1)) by by rewrite (related_ids _ _ HF1).
  pose proof (find_step_nodup _ _ _ Hnd1 Hi) as Hf.
  cbn [run_wave].
  destruct (execute_step_progress pl1 w pid (step_id x) plan1 i x Hp1 Hf Hxs)
    as (plan2 & Hp2 & HF2 & Hlt2).
  destruct (execute_step pl1 w pid (step_id x)) as [[pl2 w2] r2]. simpl in Hp2.
  pose proof (run_wave_related pl2 w2 pid rest
                (results ++ [(description x, r2)]) pid plan2 Hp2)
    as (plan3 & Hp3 & HF3).
  destruct (run_wave pl2 w2 pid rest _) as [[pl3 w3] r3]. simpl in Hp3.
  apply (IH pl3 w3 r3 plan3 Hp3).
  - by rewrite (related_ids _ _ HF3), (related_ids _ _ HF2).
  - pose proof (related_open _ _ HF1). pose proof (related_open _ _ HF3). lia.
Qed.

(** With pairwise distinct step ids [execute_full_plan] returns: one
    wave more than there are open steps is enough. *)
Lemma execute_full_plan_terminates pl w pid plan fuel :
  plans pl !! pid = Some plan ->
  NoDup (step_id <$> steps plan) ->
  open_steps (steps plan) < fuel ->
  exists pl' w' results plan',
    execute_full_plan fuel pl w pid
    = Some (pl', w', FullResult pid (goal plan') results plan')
    /\ Forall2 (rtc step_trans) (steps plan) (steps plan').
Proof.
  intros Hp Hnd Hlt. unfold execute_full_plan. rewrite Hp.
  destruct (wave_loop_terminates fuel pl w pid [] plan Hp Hnd Hlt)
    as ([[pl' w'] results] & Hl).
  rewrite Hl.
  destruct (wave_loop_related _ _ _ _ _ _ _ _ Hl pid plan Hp) as (plan' & Hp' & HF).
  rewrite Hp'. simpl. eauto 10.
Qed.

(** *** A shadowed READY step blocks the loop *)

Lemma shadowed_update tl p j :
  shadowed (steps p) j -> shadowed (steps (_update_ready_status tl p)) j.
Proof.
  intros (s & i & s0 & Hj & Hs & Hf & Hne).
  destruct (find_step_ids (steps p) (steps (_update_ready_status tl p))
              (step_id s) i s0) as (s0' & Hf'); [|done|].
  { apply related_ids, update_pass_trans. }
  exists s, i, s0'. split_and!; try done.
  simpl. rewrite list_lookup_fmap, Hj. simpl.
  rewrite update_step_frozen; [done|congruence].
Qed.

Lemma shadowed_execute_step pl w pid pid' sid plan j :
  plans pl !! pid = Some plan -> shadowed (steps plan) j ->
  exists plan', plans (execute_step pl w pid' sid).1.1 !! pid = Some plan'
                /\ shadowed (steps plan') j.
Proof.
  intros Hp Hsh.
  destruct (execute_step_cases pl w pid' sid) as [?|plan0 k sk w' r Hp0 Hf0 Hs0 Hd
                                                   |plan0 k sk w' e Hp0 Hf0 Hs0 Hd];
    simpl; [eauto| |].
  all: destruct (decide (pid' = pid)) as [->|Hne];
    [rewrite lookup_insert_eq|rewrite lookup_insert_ne by done; eauto].
  all: simplify_eq; eexists; split; [done|].
  all: destruct Hsh as (s & i & s0 & Hj & Hs & Hf & Hij).
  all: assert (Hkj : k <> j)
    by (intros ->; pose proof (find_step_Some _ _ _ _ Hf0) as (Hk & Hid & _);
        assert (sk = s) as -> by congruence; subst sid; congruence).
  all: pose proof (find_step_Some _ _ _ _ Hf0) as (Hk & _ & _).
  - apply shadowed_update. simpl.
    destruct (find_step_ids (steps plan)
                (<[k := set_output_data r (set_status COMPLETED sk)]> (steps plan))
                (step_id s) i s0) as (s0' & Hf'); [|done|].
    { apply related_ids. apply (insert_trans _ _ sk); [done|by constructor]. }
    exists s, i, s0'. split_and!; try done.
    by rewrite list_lookup_insert_ne.
  - simpl.
    destruct (find_step_ids (steps plan)
                (<[k := set_error e (set_status FAILED sk)]> (steps plan))
                (step_id s) i s0) as (s0' & Hf'); [|done|].
    { apply related_ids. apply (insert_trans _ _ sk); [done|by constructor]. }
    exists s, i, s0'. split_and!; try done.
    by rewrite list_lookup_insert_ne.
Qed.

Lemma shadowed_run_wave pl w pid wave results plan j :
  plans pl !! pid = Some plan -> shadowed (steps plan) j ->
  exists plan', plans (run_wave pl w pid wave results).1.1 !! pid = Some plan'
                /\ shadowed (steps plan') j.
Proof.
  revert pl w results plan.
  induction wave as [|x wave IH]; intros pl w results plan Hp Hsh; simpl; [eauto|].
  destruct (shadowed_execute_step pl w pid pid (step_id x) plan j Hp Hsh)
    as (plan1 & Hp1 & Hsh1).
  destruct (execute_step pl w pid (step_id x)) as [[pl1 w1] r1].
  by eapply IH.
Qed.

Lemma shadowed_blocks_wave_loop fuel pl w pid results plan j :
  plans pl !! pid = Some plan -> shadowed (steps plan) j ->
  wave_loop fuel pl w pid results = None.
Proof.
  revert pl w results plan.
  induction fuel as [|fuel IH]; intros pl w results plan Hp Hsh; [done|].
  cbn [wave_loop].
  assert (Hnext : exists plan1 x rest,
            plans (get_next_steps pl pid).1 !! pid = Some plan1
            /\ shadowed (steps plan1) j
            /\ (get_next_steps pl pid).2 = x :: rest).
  { unfold get_next_steps. rewrite Hp. simpl. rewrite lookup_insert_eq.
    pose proof (shadowed_update (tools pl) plan j Hsh) as Hsh1.
    destruct Hsh1 as (s & i & s0 & Hj & Hs & Hf & Hij).
    assert (Hin : s ∈ filter (fun s => status s = READY)
                      (steps (_update_ready_status (tools pl) plan))).
    { apply list_elem_of_filter. split; [done|]. by eapply list_elem_of_lookup_2. }
    destruct (filter _ _) as [|x rest] eqn:E; [by apply elem_of_nil in Hin|].
    exists (_update_ready_status (tools pl) plan), x, rest.
    split_and!; [done| |done]. exists s, i, s0. done. }
  destruct Hnext as (plan1 & x & rest & Hp1 & Hsh1 & Hwave).
  destruct (get_next_steps pl pid) as [pl1 wave]. simpl in *. subst wave.
  destruct (shadowed_run_wave pl1 w pid (x :: rest) results plan1 j Hp1 Hsh1)
    as (plan2 & Hp2 & Hsh2).
  destruct (run_wave pl1 w pid (x :: rest) results) as [[pl2 w2] r2].
  by eapply IH.
Qed.

(** A plan with a READY step whose id is carried by an earlier step
    never leaves the wave loop, whatever the collaborators do. *)
Lemma shadowed_blocks_execute_full_plan fuel pl w pid plan j :
  plans pl !! pid = Some plan -> shadowed (steps plan) j ->
  execute_full_plan fuel pl w pid = None.
Proof.
  intros Hp Hsh. unfold execute_full_plan. rewrite Hp.
  by rewrite (shadowed_blocks_wave_loop fuel pl w pid [] plan j).
Qed.

(** *** Dependency cycles *)

Lemma update_step_blocked tl c s d :
  status s = PENDING \/ status s = NEEDS_TOOL ->
  d ∈ depends_on s -> d ∉ c ->
  let s' := update_step tl c s in
  (s' = s \/ s' = set_status NEEDS_TOOL s)
  /\ (status s' = PENDING \/ status s' = NEEDS_TOOL).
Proof.
  intros [Hs|Hs] Hd Hc; simpl.
  - destruct (update_step_pending tl c s Hs) as [[_ ->]|[(_ & Hall & _)|[_ ->]]].
    + split; [by right|by right].
    + rewrite Forall_forall in Hall. destruct Hc. by apply Hall.
    + split; [by left|by left].
  - rewrite update_step_frozen by congruence. split; [by left|by right].
Qed.

(** Two steps that depend on each other: [execute_full_plan] returns at
    once, with no result entry; neither step was executed, and both are
    still PENDING or NEEDS_TOOL. *)
Lemma dependency_cycle_halts pl w pid plan a b fuel :
  plans pl !! pid = Some plan ->
  steps plan = [a; b] ->
  status a = PENDING \/ status a = NEEDS_TOOL ->
  status b = PENDING \/ status b = NEEDS_TOOL ->
  step_id b ∈ depends_on a ->
  step_id a ∈ depends_on b ->
  exists pl' plan' a' b',
    execute_full_plan (S fuel) pl w pid
    = Some (pl', w, FullResult pid (goal plan) [] plan')
    /\ plans pl' !! pid = Some plan'
    /\ steps plan' = [a'; b']
    /\ (a' = a \/ a' = set_status NEEDS_TOOL a)
    /\ (b' = b \/ b' = set_status NEEDS_TOOL b)
    /\ (status a' = PENDING \/ status a' = NEEDS_TOOL)
    /\ (status b' = PENDING \/ status b' = NEEDS_TOOL).
Proof.
  intros Hp Hsteps Ha Hb Hab Hba.
  assert (Hc : completed_ids (steps plan) = ∅).
  { apply set_eq. intros d. rewrite elem_of_completed_ids, Hsteps. split.
    - intros (s & Hin & Hst & _).
      apply elem_of_cons in Hin as [->|Hin];
        [destruct Ha; congruence|].
      apply elem_of_cons in Hin as [->|Hin];
        [destruct Hb; congruence|by apply elem_of_nil in Hin].
    - by intros ?%elem_of_empty. }
  destruct (update_step_blocked (tools pl) ∅ a (step_id b) Ha Hab)
    as [Ha1 Ha2]; [apply not_elem_of_empty|].
  destruct (update_step_blocked (tools pl) ∅ b (step_id a) Hb Hba)
    as [Hb1 Hb2]; [apply not_elem_of_empty|].
  set (a' := update_step (tools pl) ∅ a) in *.
  set (b' := update_step (tools pl) ∅ b) in *.
  assert (Hup : steps (_update_ready_status (tools pl) plan) = [a'; b']).
  { simpl. by rewrite Hc, Hsteps. }
  exists (store_plan pid (_update_ready_status (tools pl) plan) pl),
    (_update_ready_status (tools pl) plan), a', b'.
  split_and!; try done; [|simpl; by rewrite lookup_insert_eq].
  unfold execute_full_plan. rewrite Hp. cbn [wave_loop].
  unfold get_next_steps. rewrite Hp, Hup.
  rewrite filter_cons, decide_False by (destruct Ha2; congruence).
  rewrite filter_cons, decide_False by (destruct Hb2; congruence).
  rewrite filter_nil. simpl. by rewrite lookup_insert_eq.
Qed.

End Termination.

(** * The engine on the sample world *)

Section Examples.

Import Sample.

Example extract_fenced_object : _extract_json fenced_object = "{}".
Proof. reflexivity. Qed.

Example extract_prose : _extract_json prose_reply = EmptyString.
Proof. reflexivity. Qed.

(** The plan of [chain_reply] runs in two waves. *)
Example chain_runs_in_two_waves :
  let r := create_plan new_planner 0 chain_reply VNone in
  (fun x => match x.2 with
            | FullResult _ _ results p => (length results, status <$> steps p)
            | PlanNotFound => (0, [])
            end)
    <$> execute_full_plan 3 r.1.1 r.1.2 "plan_1"
  = Some (2, [COMPLETED; COMPLETED]).
Proof. vm_compute. reflexivity. Qed.

(** C1 on the code. A step that needs [image_gen] is NEEDS_TOOL when its
    plan is created; after [register_tool] has registered [image_gen] the
    step has no unmet requirement and no dependency, yet the next
    readiness pass leaves it NEEDS_TOOL and the wave is empty: the pass
    looks at PENDING steps only. *)
Theorem needs_tool_survives_registration :
  let r := create_plan new_planner 0 image_reply VNone in
  let pl1 := r.1.1 in
  let pl2 := register_tool image_gen pl1 in
  let next := get_next_steps pl2 "plan_1" in
  ((fun p => status <$> steps p) <$> plans pl1 !! "plan_1") = Some [NEEDS_TOOL]
  /\ registered (tools pl1) "image_gen" = false
  /\ registered (tools pl2) "image_gen" = true
  /\ ((fun p => unmet (tools pl2) <$> steps p) <$> plans pl2 !! "plan_1")
     = Some [[]]
  /\ ((fun p => depends_on <$> steps p) <$> plans pl2 !! "plan_1") = Some [[]]
  /\ ((fun p => status <$> steps p) <$> plans next.1 !! "plan_1")
     = Some [NEEDS_TOOL]
  /\ next.2 = [].
Proof. vm_compute. repeat split; reflexivity. Qed.

(** C4 on the code. The reply [clash_reply] gives a plan whose two steps
    carry the same id and are both READY; [execute_full_plan] on it does
    not return, whatever the number of waves allowed: the first step is
    executed, the second stays READY and every later wave looks its id up
    and finds the first. *)
Theorem duplicate_step_ids_block_full_plan (fuel : nat) :
  let r := create_plan new_planner 0 clash_reply VNone in
  ((fun p => (step_id <$> steps p, status <$> steps p))
     <$> plans r.1.1 !! "plan_1")
  = Some (["step_2"; "step_2"], [READY; READY])
  /\ execute_full_plan fuel r.1.1 r.1.2 "plan_1" = None.
Proof.
  split; [vm_compute; reflexivity|].
  eapply (shadowed_blocks_execute_full_plan fuel _ _ _ _ 1).
  - vm_compute. reflexivity.
  - eexists _, 0, _. split_and!; [reflexivity|reflexivity|reflexivity|lia].
Qed.

(** C7 as stated fails: a reply without braces that does not parse can
    still be extracted. The reply [fenced_number] is prose around a fenced
    [3]: it has no brace and is not JSON, yet extraction returns the
    fenced line, and [create_plan] then fails on the parsed number, not
    on the extraction. *)
Lemma braceless_reply_can_be_extracted :
  first_index "{"%char fenced_number = None
  /\ first_index "}"%char fenced_number = None
  /\ parses fenced_number = false
  /\ _extract_json fenced_number = "3"
  /\ _extract_json fenced_number <> EmptyString
  /\ (create_plan new_planner 0 fenced_number VNone).2 = inl NotAnObject.
Proof. vm_compute. repeat split; (reflexivity || discriminate). Qed.

Lemma execute_step_refused_is_noop_witness :
  execute_step new_planner 0 "plan_9" "step_1" = (new_planner, 0, VNone)
  /\ (let r := create_plan new_planner 0 chain_reply VNone in
      execute_step r.1.1 r.1.2 "plan_1" "b" = (r.1.1, r.1.2, VNone)).
Proof.
  split.
  - apply execute_step_refused_is_noop. left. vm_compute. reflexivity.
  - apply execute_step_refused_is_noop. right. right.
    eexists _, 1, _. split_and!;
      [vm_compute; reflexivity|vm_compute; reflexivity|vm_compute; discriminate].
Defined.


Lemma create_plan_failure_is_atomic_witness :
  (create_plan new_planner 0 huge_reply VNone).2 = inl InvalidComplexity
  /\ (create_plan new_planner 0 huge_reply VNone).1.1 = new_planner.
Proof.
  split; [vm_compute; reflexivity|].
  apply (create_plan_failure_is_atomic new_planner 0 huge_reply VNone
           (create_plan new_planner 0 huge_reply VNone).1.1
           (create_plan new_planner 0 huge_reply VNone).1.2 InvalidComplexity).
  - vm_compute. reflexivity.
  - right. right. right. reflexivity.
Defined.

Lemma extract_json_round_trip_witness :
  _extract_json "{}" = "{}"
  /\ _extract_json fenced_object = "{}"
  /\ _extract_json prose_reply = EmptyString
  /\ create_plan new_planner 0 prose_reply VNone
     = (new_planner, 1, inl NoJsonInReply).
Proof.
  destruct (extract_json_round_trip (World := nat)) as (H1 & H2 & H3).
  split; [apply H1; reflexivity|].
  split.
  - apply (H2 "```json" "{}" "```"); try reflexivity.
    repeat constructor.
  - destruct (H3 prose_reply) as [H4 H5]; try reflexivity.
    split; [exact H4|].
    apply (H5 new_planner 0 prose_reply VNone 1 prose_reply); reflexivity.
Defined.

End Examples.

(** * Further properties of the planner *)

Section PassFacts.

Implicit Types (tl : gmap string ToolCapability) (c : gset string).
Implicit Types (s : PlanStep) (l : list PlanStep) (p : Plan).

Lemma update_step_twice tl c s :
  update_step tl c (update_step tl c s) = update_step tl c s.
Proof.
  destruct (decide (status s = PENDING)) as [Hs|Hs].
  - destruct (update_step_pending tl c s Hs) as [[_ Hu]|[(_ & _ & Hu)|[_ Hu]]];
      rewrite Hu; [by apply update_step_frozen|by apply update_step_frozen|done].
  - by rewrite !(update_step_frozen tl c s).
Qed.

Lemma update_pass_twice tl p :
  _update_ready_status tl (_update_ready_status tl p) = _update_ready_status tl p.
Proof.
  unfold _update_ready_status, set_steps. cbn [steps plan_id goal complexity
    created_at context].
  f_equal. rewrite completed_ids_update, <- list_fmap_compose.
  apply list_fmap_ext. intros i s _. simpl. apply update_step_twice.
Qed.

Lemma unmet_grow tl tl' s :
  (forall n, is_Some (tl !! n) -> is_Some (tl' !! n)) ->
  unmet tl s = [] -> unmet tl' s = [].
Proof.
  intros Hsub. unfold unmet.
  induction (deferred_requirements s) as [|r rs IH]; [done|]. simpl.
  destruct (unmet_requirement tl r) eqn:Hr; [done|]. intros Hnil.
  rewrite (IH Hnil).
  destruct (unmet_requirement tl' r) eqn:Hr'; [|done].
  exfalso. unfold unmet_requirement, registered in *.
  apply andb_true_iff in Hr' as [Hty Hnm]. rewrite Hty in Hr. simpl in Hr.
  destruct (dict_get "name" r) as [n|]; [|done].
  apply negb_false_iff, bool_decide_eq_true_1, Hsub in Hr.
  apply negb_true_iff, bool_decide_eq_false_1 in Hnm. done.
Qed.

Lemma update_step_same_unmet tl tl' c s :
  unmet tl s = [] -> unmet tl' s = [] -> update_step tl' c s = update_step tl c s.
Proof. intros H1 H2. unfold update_step. by rewrite H1, H2. Qed.

(** X1. The readiness pass is idempotent, and stays so when the registry
    grows in between: a pass with a registry that has at least the
    capabilities of the previous pass gives back the plan the previous
    pass gave. Whatever the first pass left PENDING or NEEDS_TOOL,
    registering capabilities does not move. *)
Theorem update_ready_status_idempotent tl tl' p :
  (forall n, is_Some (tl !! n) -> is_Some (tl' !! n)) ->
  _update_ready_status tl' (_update_ready_status tl p) = _update_ready_status tl p.
Proof.
  intros Hsub.
  unfold _update_ready_status, set_steps. cbn [steps plan_id goal complexity
    created_at context].
  f_equal. rewrite completed_ids_update, <- list_fmap_compose.
  apply list_fmap_ext. intros i s _. simpl.
  destruct (decide (status s = PENDING)) as [Hs|Hs].
  - destruct (update_step_pending tl (completed_ids (steps p)) s Hs)
      as [[_ Hu]|[(_ & _ & Hu)|[Hn Hu]]].
    + rewrite Hu. by apply update_step_frozen.
    + rewrite Hu. by apply update_step_frozen.
    + rewrite Hu at 2. rewrite Hu.
      rewrite (update_step_same_unmet tl tl'); [done|done|by eapply unmet_grow].
  - by rewrite !(update_step_frozen _ _ s).
Qed.


End PassFacts.

Section EngineFrame.

Context {World : Type} `{Collaborators World}.

Implicit Types (pl : Planner) (w : World) (p plan : Plan).
Implicit Types (s : PlanStep) (l : list PlanStep).

(** X2. [get_next_steps] returns exactly the READY steps of the plan as
    it is stored after the call, and is stable: a second call right away
    returns the same planner and the same steps. For an unknown plan id
    it returns the empty list and changes nothing. *)
Theorem get_next_steps_stable pl pid :
  get_next_steps (get_next_steps pl pid).1 pid = get_next_steps pl pid
  /\ (forall x, x ∈ (get_next_steps pl pid).2 -> status x = READY)
  /\ (plans pl !! pid = None -> get_next_steps pl pid = (pl, []))
  /\ (forall plan', plans (get_next_steps pl pid).1 !! pid = Some plan' ->
        (get_next_steps pl pid).2 = filter (fun s => status s = READY) (steps plan')).
Proof.
  unfold get_next_steps.
  destruct (plans pl !! pid) as [plan|] eqn:Hp; cbn [fst snd].
  - split_and!.
    + cbn [plans set_plans tools]. rewrite lookup_insert_eq.
      rewrite update_pass_twice.
      unfold set_plans. cbn [tools plans plans_table].
      by rewrite insert_insert_eq.
    + intros x Hx. by apply list_elem_of_filter in Hx as [? _].
    + done.
    + intros plan'. cbn [plans set_plans]. rewrite lookup_insert_eq.
      by intros [= <-].
  - rewrite Hp. split_and!; try done. by intros x ?%elem_of_nil.
Qed.

Lemma unmet_requirement_register c tl r :
  unmet_requirement (<[name c := c]> tl) r = true ->
  unmet_requirement tl r = true /\ dict_get "name" r <> Some (name c).
Proof.
  unfold unmet_requirement, registered.
  intros [Hty Hnm]%andb_true_iff. rewrite Hty. simpl.
  destruct (dict_get "name" r) as [n|]; [|done].
  apply negb_true_iff, bool_decide_eq_false_1 in Hnm.
  destruct (decide (n = name c)) as [->|Hne].
  - destruct Hnm. rewrite lookup_insert_eq. eauto.
  - rewrite lookup_insert_ne in Hnm by done.
    split; [|congruence].
    by apply negb_true_iff, bool_decide_eq_false_2.
Qed.

Lemma register_tool_keeps_registered c pl n :
  registered (tools pl) n = true ->
  registered (tools (register_tool c pl)) n = true.
Proof.
  intros Hn. unfold registered in *. simpl.
  apply bool_decide_eq_true_1 in Hn. apply bool_decide_eq_true_2.
  destruct (decide (name c = n)) as [->|Hne].
  - rewrite lookup_insert_eq. eauto.
  - by rewrite lookup_insert_ne.
Qed.

(** X4. Registering a capability resolves requirements and never adds
    one: the name is registered afterwards, every requirement still unmet
    was unmet before, and none of them names the new capability; plans
    and the database table are untouched. *)
Theorem register_tool_resolves_requirements c pl s :
  registered (tools (register_tool c pl)) (name c) = true
  /\ (forall n, registered (tools pl) n = true ->
        registered (tools (register_tool c pl)) n = true)
  /\ (forall r, In r (unmet (tools (register_tool c pl)) s) ->
        In r (unmet (tools pl) s) /\ dict_get "name" r <> Some (name c))
  /\ plans (register_tool c pl) = plans pl
  /\ plans_table (register_tool c pl) = plans_table pl.
Proof.
  split_and!; try done.
  - unfold registered. simpl. rewrite lookup_insert_eq.
    apply bool_decide_eq_true_2. eauto.
  - apply register_tool_keeps_registered.
  - intros r [Hin Hr]%filter_In. simpl in Hr.
    apply unmet_requirement_register in Hr as [Hr Hne].
    split; [|done]. by apply filter_In.
Qed.

Lemma execute_step_tools pl w pid sid :
  tools (execute_step pl w pid sid).1.1 = tools pl
  /\ plans_table (execute_step pl w pid sid).1.1 = plans_table pl.
Proof. by destruct (execute_step_cases pl w pid sid). Qed.

Lemma get_next_steps_tools pl pid :
  tools (get_next_steps pl pid).1 = tools pl
  /\ plans_table (get_next_steps pl pid).1 = plans_table pl.
Proof. unfold get_next_steps. by destruct (plans pl !! pid). Qed.

Lemma run_wave_tools pl w pid wave results :
  tools (run_wave pl w pid wave results).1.1 = tools pl
  /\ plans_table (run_wave pl w pid wave results).1.1 = plans_table pl.
Proof.
  revert pl w results. induction wave as [|x wave IH]; intros pl w results; [done|].
  cbn [run_wave].
  pose proof (execute_step_tools pl w pid (step_id x)) as [Ht Hb].
  destruct (execute_step pl w pid (step_id x)) as [[pl1 w1] r1].
  destruct (IH pl1 w1 (results ++ [(description x, r1)])) as [Ht' Hb'].
  simpl in *. split; congruence.
Qed.

Lemma wave_loop_tools fuel pl w pid results pl' w' results' :
  wave_loop fuel pl w pid results = Some (pl', w', results') ->
  tools pl' = tools pl /\ plans_table pl' = plans_table pl.
Proof.
  revert pl w results. induction fuel as [|fuel IH]; intros pl w results; [done|].
  cbn [wave_loop].
  pose proof (get_next_steps_tools pl pid) as [Ht Hb].
  destruct (get_next_steps pl pid) as [pl1 [|x wave]]; simpl in Ht, Hb.
  - by intros [= <- <- <-].
  - pose proof (run_wave_tools pl1 w pid (x :: wave) results) as [Ht2 Hb2].
    destruct (run_wave pl1 w pid (x :: wave) results) as [[pl2 w2] r2].
    simpl in Ht2, Hb2. intros Hl. apply IH in Hl as [Ht3 Hb3].
    split; congruence.
Qed.

Lemma execute_full_plan_tools fuel pl w pid pl' w' r :
  execute_full_plan fuel pl w pid = Some (pl', w', r) ->
  tools pl' = tools pl /\ plans_table pl' = plans_table pl.
Proof.
  unfold execute_full_plan. destruct (plans pl !! pid); [|by intros [= <- <- <-]].
  destruct (wave_loop fuel pl w pid []) as [[[pl2 w2] r2]|] eqn:Hl; [|done].
  intros [= <- <- <-]. by eapply wave_loop_tools.
Qed.

Lemma create_plan_tools pl w g c : tools (create_plan pl w g c).1.1 = tools pl.
Proof.
  unfold create_plan.
  destruct (ollama_plan w g c (tools pl)) as [w1 [content|e]]; [|done].
  destruct (String.eqb _ _); [done|].
  destruct (json_loads _) as [[| | | | | |data]|]; try done.
  destruct (dict_get "complexity" data) as [cv|]; [|done].
  destruct (dict_get "steps" data) as [sv|]; [|done].
  destruct (bind_sum _ _) as [e|steps_]; [done|].
  destruct (uuid4_hex8 w1) as [w2 hex].
  destruct (complexity_of_value cv) as [cx|]; [|done].
  destruct (datetime_now w2) as [w3 now].
  by destruct (_save_plan_to_db _ _).
Qed.

Lemma engine_op_registered pl pl' n :
  engine_op pl pl' -> registered (tools pl) n = true ->
  registered (tools pl') n = true.
Proof.
  destruct 1 as [pl c|pl pid|pl w pid sid|fuel pl w pid pl' w' r Hfull].
  - apply register_tool_keeps_registered.
  - by rewrite (proj1 (get_next_steps_tools pl pid)).
  - by rewrite (proj1 (execute_step_tools pl w pid sid)).
  - by rewrite (proj1 (execute_full_plan_tools _ _ _ _ _ _ _ Hfull)).
Qed.

(** X5. Nothing ever unregisters a capability: in every planner
    reachable from a fresh one, through plan creation (failed or not),
    registrations, readiness passes and execution, the four built-in
    capabilities are registered. *)
Theorem builtin_tools_stay_registered pl n :
  reachable pl -> n ∈ builtin_names -> registered (tools pl) n = true.
Proof.
  intros Hreach Hn. induction Hreach as [|pl w g c _ IH|pl pl' _ IH Hop].
  - unfold builtin_names in Hn.
    repeat (apply elem_of_cons in Hn as [->|Hn]; [by vm_compute|]).
    by apply elem_of_nil in Hn.
  - by rewrite create_plan_tools.
  - by eapply engine_op_registered.
Qed.

End EngineFrame.

Section Headers.

Context {World : Type} `{Collaborators World}.

Implicit Types (pl : Planner) (w : World) (p plan : Plan).
Implicit Types (s : PlanStep) (l : list PlanStep).

Lemma header_update tl p : plan_header (_update_ready_status tl p) = plan_header p.
Proof.
  unfold plan_header. simpl. f_equal.
  rewrite <- list_fmap_compose. apply list_fmap_ext.
  intros i s _. apply update_step_id.
Qed.

Lemma ids_insert l i s s' :
  l !! i = Some s -> step_id s' = step_id s ->
  step_id <$> <[i := s']> l = step_id <$> l.
Proof.
  intros Hi Hid. rewrite list_fmap_insert, Hid.
  apply list_insert_id. by rewrite list_lookup_fmap, Hi.
Qed.

Lemma header_store pl pid plan plan' :
  plans pl !! pid = Some plan -> plan_header plan' = plan_header plan ->
  forall k, plan_header <$> plans (store_plan pid plan' pl) !! k
            = plan_header <$> plans pl !! k.
Proof.
  intros Hp Hh k. simpl. destruct (decide (pid = k)) as [<-|Hne].
  - rewrite lookup_insert_eq, Hp. simpl. by rewrite Hh.
  - by rewrite lookup_insert_ne.
Qed.

Lemma execute_step_headers pl w pid sid k :
  plan_header <$> plans (execute_step pl w pid sid).1.1 !! k
  = plan_header <$> plans pl !! k.
Proof.
  destruct (execute_step_cases pl w pid sid) as [?|plan i s w' r Hp Hf Hs Hd
                                                  |plan i s w' e Hp Hf Hs Hd];
    cbn [fst]; [done| |];
    apply find_step_Some in Hf as (Hi & _ & _);
    apply (header_store pl pid plan); try done.
  - rewrite header_update. unfold plan_header. simpl.
    by rewrite (ids_insert _ _ s).
  - unfold plan_header. simpl. by rewrite (ids_insert _ _ s).
Qed.

Lemma get_next_steps_headers pl pid k :
  plan_header <$> plans (get_next_steps pl pid).1 !! k
  = plan_header <$> plans pl !! k.
Proof.
  unfold get_next_steps. destruct (plans pl !! pid) as [plan|] eqn:Hp; [|done].
  cbn [fst]. apply (header_store pl pid plan); [done|apply header_update].
Qed.

Lemma run_wave_headers pl w pid wave results k :
  plan_header <$> plans (run_wave pl w pid wave results).1.1 !! k
  = plan_header <$> plans pl !! k.
Proof.
  revert pl w results. induction wave as [|x wave IH]; intros pl w results; [done|].
  cbn [run_wave].
  pose proof (execute_step_headers pl w pid (step_id x) k) as H1.
  destruct (execute_step pl w pid (step_id x)) as [[pl1 w1] r1].
  rewrite IH. exact H1.
Qed.

Lemma wave_loop_headers fuel pl w pid results pl' w' results' k :
  wave_loop fuel pl w pid results = Some (pl', w', results') ->
  plan_header <$> plans pl' !! k = plan_header <$> plans pl !! k.
Proof.
  revert pl w results. induction fuel as [|fuel IH]; intros pl w results; [done|].
  cbn [wave_loop].
  pose proof (get_next_steps_headers pl pid k) as H1.
  destruct (get_next_steps pl pid) as [pl1 [|x wave]]; cbn [fst] in H1.
  - by intros [= <- <- <-].
  - pose proof (run_wave_headers pl1 w pid (x :: wave) results k) as H2.
    destruct (run_wave pl1 w pid (x :: wave) results) as [[pl2 w2] r2].
    cbn [fst] in H2. intros Hl. apply IH in Hl. congruence.
Qed.

Lemma engine_op_headers pl pl' k :
  engine_op pl pl' ->
  plan_header <$> plans pl' !! k = plan_header <$> plans pl !! k.
Proof.
  destruct 1 as [pl c|pl pid|pl w pid sid|fuel pl w pid pl' w' r Hfull].
  - done.
  - apply get_next_steps_headers.
  - apply execute_step_headers.
  - unfold execute_full_plan in Hfull.
    destruct (plans pl !! pid); [|by simplify_eq].
    destruct (wave_loop fuel pl w pid []) as [[[pl2 w2] r2]|] eqn:Hl; [|done].
    simplify_eq. by eapply wave_loop_headers.
Qed.

Lemma engine_op_table pl pl' :
  engine_op pl pl' -> plans_table pl' = plans_table pl.
Proof.
  destruct 1 as [pl c|pl pid|pl w pid sid|fuel pl w pid pl' w' r Hfull].
  - done.
  - apply get_next_steps_tools.
  - apply execute_step_tools.
  - by eapply execute_full_plan_tools.
Qed.

(** X6. Execution never reaches the database and never adds, removes or
    renames a plan: through any sequence of registrations, readiness
    passes, [execute_step] and [execute_full_plan] the rows of the plans
    table are the ones written by [create_plan] (their statuses are those
    of creation time), the same plan ids are registered, and each plan
    keeps its id, goal, complexity, creation time and the ids of its
    steps in order. *)
Theorem execution_keeps_table_and_headers pl pl' :
  rtc engine_op pl pl' ->
  plans_table pl' = plans_table pl
  /\ (forall pid, plan_header <$> get_plan pl' pid = plan_header <$> get_plan pl pid)
  /\ (forall pid, is_Some (get_plan pl' pid) <-> is_Some (get_plan pl pid)).
Proof.
  intros Hops.
  assert (Hboth : plans_table pl' = plans_table pl
                  /\ forall pid, plan_header <$> plans pl' !! pid
                                 = plan_header <$> plans pl !! pid).
  { induction Hops as [|pl1 pl2 pl3 Hop _ [IHt IHh]]; [done|].
    split.
    - rewrite IHt. by apply engine_op_table.
    - intros pid. rewrite IHh. by apply engine_op_headers. }
  destruct Hboth as [Ht Hh]. split_and!; [done|exact Hh|].
  intros pid. unfold get_plan. rewrite <- !fmap_is_Some with (f := plan_header).
  by rewrite Hh.
Qed.

End Headers.

Section Handlers.

Context {World : Type} `{Collaborators World}.

Implicit Types (pl : Planner) (w : World) (p plan : Plan).
Implicit Types (s : PlanStep) (l : list PlanStep).

Lemma dict_get_set_eq {A : Type} (k : string) (v : A) (c : list (string * A)) :
  dict_get k (dict_set k v c) = Some v.
Proof.
  induction c as [|[k' v'] c IH]; simpl.
  - by rewrite String.eqb_refl.
  - destruct (String.eqb k k') eqn:E; simpl.
    + by rewrite String.eqb_refl.
    + by rewrite E.
Qed.

Lemma dict_get_set_ne {A : Type} (k k0 : string) (v : A) (c : list (string * A)) :
  k0 <> k -> dict_get k0 (dict_set k v c) = dict_get k0 c.
Proof.
  intros Hne. induction c as [|[k' v'] c IH]; simpl.
  - by apply String.eqb_neq in Hne as ->.
  - destruct (String.eqb k k') eqn:E; simpl.
    + apply String.eqb_eq in E as <-.
      by apply String.eqb_neq in Hne as ->.
    + by rewrite IH.
Qed.


(** X8. The built-in handlers read their parameters with
    [tool_input.get]: when [tool_input] is not a dict (a JSON null, list,
    string or number), the step of any built-in capability, or of no
    capability, FAILS with the text of the AttributeError, before any
    collaborator is called. *)
Theorem non_dict_tool_input_fails_step pl w pid sid plan i s :
  plans pl !! pid = Some plan ->
  find_step sid (steps plan) = Some (i, s) ->
  status s = READY ->
  (forall d, tool_input s <> VDict d) ->
  (tool s = None \/ exists t, tool s = Some t /\ t ∈ builtin_names) ->
  let msg :=
    ("'" ++ type_name (tool_input s) ++ "' object has no attribute 'get'")%string in
  exists pl' plan',
    execute_step pl w pid sid = (pl', w, VNone)
    /\ plans pl' !! pid = Some plan'
    /\ steps plan' = <[i := set_error msg (set_status FAILED s)]> (steps plan)
    /\ context plan' = context plan.
Proof.
  intros Hp Hf Hs Hnd Ht msg.
  assert (Hget : forall k dv, value_get (tool_input s) k dv = Raise msg).
  { intros k dv. unfold value_get. destruct (tool_input s) eqn:E; try done.
    by destruct (Hnd d). }
  assert (Hd : forall ctx, dispatch w (set_status EXECUTING s) ctx = (w, Raise msg)).
  { intros ctx. unfold dispatch. cbn [tool set_status].
    assert (Hllm : _execute_llm w (set_status EXECUTING s) ctx = (w, Raise msg)).
    { unfold _execute_llm. cbn [tool_input set_status description]. by rewrite Hget. }
    destruct Ht as [->|(t & -> & Hin)]; [done|].
    unfold builtin_names in Hin.
    repeat (apply elem_of_cons in Hin as [->|Hin]);
      [| | | |by apply elem_of_nil in Hin]; cbn [String.eqb Ascii.eqb Bool.eqb];
      cbn match; [done| | |].
    - unfold _execute_memory_search. cbn [tool_input set_status].
      by rewrite Hget.
    - unfold _execute_get_facts. cbn [tool_input set_status]. by rewrite Hget.
    - unfold _execute_save_fact. cbn [tool_input set_status]. by rewrite Hget. }
  unfold execute_step. rewrite Hp, Hf. unfold status_is.
  rewrite bool_decide_eq_true_2 by done. cbn [negb]. cbv zeta. rewrite Hd.
  cbn [steps set_steps]. rewrite list_insert_insert_eq.
  eexists _, _. split; [reflexivity|]. split; [apply lookup_insert_eq|]. done.
Qed.



End Handlers.

Section Context_.

Context {World : Type} `{Collaborators World}.

Implicit Types (pl : Planner) (w : World) (p plan : Plan).
Implicit Types (s : PlanStep) (l : list PlanStep).

Lemma dependency_fold p (deps : list string) (acc : list (string * value)) d :
  dict_get d
    (fold_left
       (fun acc dep_id =>
          match find_step dep_id (steps p) with
          | Some (_, dep_step) =>
              if truthy (output_data dep_step)
              then dict_set dep_id (output_data dep_step) acc
              else acc
          | None => acc
          end) deps acc)
  = if decide (d ∈ deps)
    then match dep_output p d with Some v => Some v | None => dict_get d acc end
    else dict_get d acc.
Proof.
  revert acc. induction deps as [|a deps IH]; intros acc.
  - by rewrite decide_False by apply not_elem_of_nil.
  - cbn [fold_left]. rewrite IH.
    assert (Hstep : forall d0, dict_get d0
              match find_step a (steps p) with
              | Some (_, dep_step) =>
                  if truthy (output_data dep_step)
                  then dict_set a (output_data dep_step) acc
                  else acc
              | None => acc
              end
            = if decide (d0 = a)
              then match dep_output p a with
                   | Some v => Some v
                   | None => dict_get d0 acc
                   end
              else dict_get d0 acc).
    { intros d0. unfold dep_output.
      destruct (find_step a (steps p)) as [[k x]|];
        [|by destruct (decide (d0 = a))].
      destruct (truthy (output_data x)); [|by destruct (decide (d0 = a))].
      destruct (decide (d0 = a)) as [->|Hd0];
        [apply dict_get_set_eq|by apply dict_get_set_ne]. }
    rewrite Hstep.
    destruct (decide (d ∈ deps)) as [Hin|Hnin].
    + rewrite (decide_True (P := d ∈ a :: deps)) by (by apply list_elem_of_further).
      destruct (dep_output p d) as [v|] eqn:Hv; [done|].
      destruct (decide (d = a)) as [->|Hda]; [|done]. by rewrite Hv.
    + destruct (decide (d = a)) as [->|Hda].
      * by rewrite (decide_True (P := a ∈ a :: deps)) by apply list_elem_of_here.
      * rewrite (decide_False (P := d ∈ a :: deps)); [done|].
        by intros [?|?]%elem_of_cons.
Qed.

Lemma truthy_true_iff v :
  truthy v = true
  <-> v ∉ [VNone; VBool false; VInt 0; VFloat "0.0"; VFloat "-0.0";
           VStr EmptyString; VList []; VDict []].
Proof.
  assert (Hin : forall P : Prop,
            (v ∈ [VNone; VBool false; VInt 0; VFloat "0.0"; VFloat "-0.0";
                  VStr EmptyString; VList []; VDict []] -> P)
            <-> (v = VNone -> P) /\ (v = VBool false -> P) /\ (v = VInt 0 -> P)
                /\ (v = VFloat "0.0" -> P) /\ (v = VFloat "-0.0" -> P)
                /\ (v = VStr EmptyString -> P) /\ (v = VList [] -> P)
                /\ (v = VDict [] -> P)).
  { intros P. rewrite !elem_of_cons, elem_of_nil. tauto. }
  unfold not. rewrite Hin. clear Hin.
  assert (Hyes : forall Q : Prop, Q -> (true = true <-> Q)) by tauto.
  assert (Hno : forall Q : Prop, (Q -> False) -> (false = true <-> Q))
    by (intros Q HQ; split; [done|intros HQ'; by destruct (HQ HQ')]).
  destruct v as [|b|z|r|str|l|d]; simpl.
  - apply Hno. intros Hf. repeat (destruct Hf as [? Hf]); eauto.
  - destruct b; [apply Hyes; split_and!; discriminate|].
    apply Hno. intros Hf. repeat (destruct Hf as [? Hf]); eauto.
  - destruct (Z.eqb_spec z 0) as [->|Hz]; simpl.
    + apply Hno. intros Hf. repeat (destruct Hf as [? Hf]); eauto.
    + apply Hyes. split_and!; try discriminate. congruence.
  - destruct (String.eqb_spec r "0.0") as [->|H0]; simpl.
    { apply Hno. intros Hf. repeat (destruct Hf as [? Hf]); eauto. }
    destruct (String.eqb_spec r "-0.0") as [->|H1]; simpl.
    { apply Hno. intros Hf. repeat (destruct Hf as [? Hf]); eauto. }
    apply Hyes. split_and!; try discriminate; congruence.
  - destruct (String.eqb_spec str EmptyString) as [->|Hs]; simpl.
    + apply Hno. intros Hf. repeat (destruct Hf as [? Hf]); eauto.
    + apply Hyes. split_and!; try discriminate. congruence.
  - destruct l; [apply Hno; intros Hf; repeat (destruct Hf as [? Hf]); eauto|].
    apply Hyes. split_and!; discriminate.
  - destruct d; [apply Hno; intros Hf; repeat (destruct Hf as [? Hf]); eauto|].
    apply Hyes. split_and!; discriminate.
Qed.

(** X11. The dependency outputs handed to the generation handler hold
    an entry for the id [d] exactly when [d] is in [depends_on], a step
    carries that id, and the output of the first such step is truthy:
    not [None], [False], zero, the empty string, the empty list or the
    empty dict. The entry is that output. A dependency with a falsy
    output or an unknown id is left out. *)
Theorem dependency_outputs_are_truthy_outputs p s d out :
  dict_get d (dependency_outputs (_get_execution_context p s)) = Some out
  <-> d ∈ depends_on s
      /\ (exists i ds, find_step d (steps p) = Some (i, ds)
                       /\ output_data ds = out)
      /\ out ∉ [VNone; VBool false; VInt 0; VFloat "0.0"; VFloat "-0.0";
                VStr EmptyString; VList []; VDict []].
Proof.
  unfold _get_execution_context. cbn [dependency_outputs].
  rewrite dependency_fold. rewrite <- truthy_true_iff.
  assert (Hnone : dict_get d (@nil (string * value)) = None) by done.
  unfold dep_output.
  destruct (decide (d ∈ depends_on s)) as [Hd|Hd].
  - destruct (find_step d (steps p)) as [[i ds]|] eqn:Hf.
    + destruct (truthy (output_data ds)) eqn:Ht.
      * split.
        -- intros [= <-]. split; [done|]. split; [eauto|done].
        -- intros (_ & (i' & ds' & [= <- <-] & <-) & _). done.
      * rewrite Hnone. split; [done|].
        intros (_ & (i' & ds' & [= <- <-] & <-) & Ht'). congruence.
    + rewrite Hnone. split; [done|]. by intros (_ & (i' & ds' & ? & _) & _).
  - rewrite Hnone. split; [done|]. by intros (? & _).
Qed.

Lemma render_facts_cases (facts : list (list (string * value))) :
  (exists fs,
     map_outcome
       (fun f =>
          letO ty := dict_index "type" f in
          letO co := dict_index "fact" f in
          letO lo := dict_index "locked" f in
          Ok (VDict [("type", ty); ("content", co); ("locked", lo)])) facts = Ok fs
     /\ Forall2
          (fun f v => exists ty co lo,
             dict_get "type" f = Some ty /\ dict_get "fact" f = Some co
             /\ dict_get "locked" f = Some lo
             /\ v = VDict [("type", ty); ("content", co); ("locked", lo)])
          facts fs)
  \/ (exists k f,
        map_outcome
          (fun f =>
             letO ty := dict_index "type" f in
             letO co := dict_index "fact" f in
             letO lo := dict_index "locked" f in
             Ok (VDict [("type", ty); ("content", co); ("locked", lo)])) facts
        = Raise ("'" ++ k ++ "'")
        /\ k ∈ ["type"; "fact"; "locked"] /\ f ∈ facts /\ dict_get k f = None).
Proof.
  induction facts as [|f facts IH].
  - left. exists []. by split; [|constructor].
  - cbn [map_outcome].
    assert (Hidx : forall k, dict_index k f
                   = match dict_get k f with
                     | Some x => Ok x
                     | None => Raise ("'" ++ k ++ "'")
                     end) by done.
    rewrite !Hidx. clear Hidx.
    destruct (dict_get "type" f) as [ty|] eqn:Ety; cbn [bind_outcome].
    2:{ right. exists "type", f. split_and!;
          [done|apply list_elem_of_In; simpl; auto|apply list_elem_of_here|done]. }
    destruct (dict_get "fact" f) as [co|] eqn:Eco; cbn [bind_outcome].
    2:{ right. exists "fact", f. split_and!;
          [done|apply list_elem_of_In; simpl; auto|apply list_elem_of_here|done]. }
    destruct (dict_get "locked" f) as [lo|] eqn:Elo; cbn [bind_outcome].
    2:{ right. exists "locked", f. split_and!;
          [done|apply list_elem_of_In; simpl; auto|apply list_elem_of_here|done]. }
    destruct IH as [(fs & -> & HF)|(k & f0 & -> & Hk & Hf0 & Hnone)];
      cbn [bind_outcome].
    + left. eexists. split; [done|]. constructor; [|done]. eauto 10.
    + right. exists k, f0.
      split_and!; [done|done|by apply list_elem_of_further|done].
Qed.

(** X12. The fact-fetch handler, given a dict as [tool_input]: it asks
    the memory service for the facts of [topic_name] (the empty string
    when the key is missing) and returns a dict with that topic and one
    [{type, content, locked}] entry per fact, in order, an empty list
    when there is none; an exception of the memory service is passed on;
    a fact without one of the keys [type], [fact], [locked] makes it
    raise the KeyError for that key. *)
Theorem get_facts_handler_result w s d :
  tool_input s = VDict d ->
  let topic := default (VStr EmptyString) (dict_get "topic_name" d) in
  match get_topic_facts w topic with
  | (w', Raise e) => _execute_get_facts w s = (w', Raise e)
  | (w', Ok facts) =>
      (exists fs,
         _execute_get_facts w s
         = (w', Ok (VDict [("topic", topic); ("facts", VList fs)]))
         /\ length fs = length facts
         /\ Forall2
              (fun f v => exists ty co lo,
                 dict_get "type" f = Some ty /\ dict_get "fact" f = Some co
                 /\ dict_get "locked" f = Some lo
                 /\ v = VDict [("type", ty); ("content", co); ("locked", lo)])
              facts fs)
      \/ (exists k f,
            _execute_get_facts w s = (w', Raise ("'" ++ k ++ "'"))
            /\ k ∈ ["type"; "fact"; "locked"] /\ f ∈ facts
            /\ dict_get k f = None)
  end.
Proof.
  intros Hin topic. unfold _execute_get_facts, value_get. rewrite Hin.
  change (match dict_get "topic_name" d with
          | Some x => x
          | None => VStr EmptyString
          end) with topic.
  cbv beta iota.
  destruct (get_topic_facts w topic) as [w' [facts|e]]; [|done].
  destruct (render_facts_cases facts) as [(fs & -> & HF)|(k & f & -> & ?)].
  - left. exists fs. split_and!; [done| |done]. symmetry. by eapply Forall2_length.
  - right. by exists k, f.
Qed.

End Context_.

Section LoopFacts.

Context {World : Type} `{Collaborators World}.

Implicit Types (pl : Planner) (w : World) (p plan : Plan).
Implicit Types (s : PlanStep) (l : list PlanStep).

Lemma get_next_steps_again pl pid pl1 wave :
  get_next_steps pl pid = (pl1, wave) -> get_next_steps pl1 pid = (pl1, wave).
Proof.
  unfold get_next_steps.
  destruct (plans pl !! pid) as [plan|] eqn:Hp.
  - intros [= <- <-]. cbn [plans set_plans tools]. rewrite lookup_insert_eq.
    rewrite update_pass_twice. unfold set_plans. cbn [tools plans plans_table].
    by rewrite insert_insert_eq.
  - intros [= <- <-]. by rewrite Hp.
Qed.

Lemma wave_loop_quiescent fuel pl w pid results pl' w' results' :
  wave_loop fuel pl w pid results = Some (pl', w', results') ->
  get_next_steps pl' pid = (pl', []).
Proof.
  revert pl w results. induction fuel as [|fuel IH]; intros pl w results; [done|].
  cbn [wave_loop].
  destruct (get_next_steps pl pid) as [pl1 [|x wave]] eqn:Hn.
  - intros [= <- <- <-]. by eapply get_next_steps_again.
  - destruct (run_wave pl1 w pid (x :: wave) results) as [[pl2 w2] r2].
    apply IH.
Qed.

(** X13. What [execute_full_plan] returns when it returns. For an
    unknown plan id: the "Plan not found" answer, nothing changed. For a
    registered plan: its id and goal, the result entries and the plan as
    it is then stored; no step of that plan is READY, a further readiness
    pass would change nothing, and [get_next_steps] returns no step: the
    steps left open are stuck until something else changes. *)
Theorem execute_full_plan_runs_to_quiescence fuel pl w pid pl' w' r :
  execute_full_plan fuel pl w pid = Some (pl', w', r) ->
  match plans pl !! pid with
  | None => r = PlanNotFound /\ pl' = pl /\ w' = w
  | Some plan =>
      exists results plan',
        r = FullResult pid (goal plan) results plan'
        /\ plans pl' !! pid = Some plan'
        /\ Forall (fun s => status s <> READY) (steps plan')
        /\ _update_ready_status (tools pl') plan' = plan'
        /\ get_next_steps pl' pid = (pl', [])
  end.
Proof.
  unfold execute_full_plan.
  destruct (plans pl !! pid) as [plan|] eqn:Hp; [|by intros [= <- <- <-]].
  destruct (wave_loop fuel pl w pid []) as [[[pl2 w2] results]|] eqn:Hl; [|done].
  intros [= <- <- <-].
  pose proof (wave_loop_quiescent _ _ _ _ _ _ _ _ Hl) as Hq.
  pose proof (wave_loop_headers _ _ _ _ _ _ _ _ pid Hl) as Hh.
  rewrite Hp in Hh.
  destruct (plans pl2 !! pid) as [plan'|] eqn:Hp'; [|done].
  simpl in Hh. injection Hh as Hh. unfold plan_header in Hh.
  exists results, plan'. simpl.
  assert (Hg : goal plan' = goal plan) by congruence.
  rewrite Hg. split; [done|]. split; [done|].
  assert (Hm : (get_next_steps pl2 pid).1 = pl2) by by rewrite Hq.
  assert (Hf : (get_next_steps pl2 pid).2 = []) by by rewrite Hq.
  unfold get_next_steps in Hm, Hf. rewrite Hp' in Hm, Hf. cbn [fst snd] in Hm, Hf.
  assert (Hfix : _update_ready_status (tools pl2) plan' = plan').
  { assert (Hlk : plans (set_plans
                    (<[pid:=_update_ready_status (tools pl2) plan']> (plans pl2)) pl2)
                  !! pid = plans pl2 !! pid) by by rewrite Hm.
    simpl in Hlk. rewrite lookup_insert_eq, Hp' in Hlk. congruence. }
  split_and!; [|done|].
  - rewrite Hfix in Hf. apply Forall_forall. intros s Hs Hst.
    assert (Hin : s ∈ filter (fun s => status s = READY) (steps plan'))
      by by apply list_elem_of_filter.
    rewrite Hf in Hin. by apply elem_of_nil in Hin.
  - done.
Qed.

Lemma open_insert_exact l i s s' :
  l !! i = Some s -> terminal s = false -> terminal s' = true ->
  open_steps (<[i := s']> l) + 1 = open_steps l.
Proof.
  revert i. induction l as [|x l IH]; intros i Hi Hs Hs'; [done|].
  destruct i as [|i]; simpl in *.
  - simplify_eq. rewrite !open_steps_cons, Hs, Hs'. simpl. lia.
  - rewrite !open_steps_cons. specialize (IH i Hi Hs Hs'). lia.
Qed.

Lemma terminal_update tl c s : terminal (update_step tl c s) = terminal s.
Proof.
  destruct (decide (status s = PENDING)) as [Hs|Hs].
  - unfold terminal, status_is.
    destruct (update_step_pending tl c s Hs) as [[_ ->]|[(_ & _ & ->)|[_ ->]]];
      simpl; by rewrite ?Hs.
  - by rewrite update_step_frozen.
Qed.

Lemma open_update_exact tl c l :
  open_steps (update_step tl c <$> l) = open_steps l.
Proof.
  induction l as [|x l IH]; [done|].
  rewrite fmap_cons, !open_steps_cons, terminal_update, IH. done.
Qed.

(** The wave of a plan: READY steps of the plan, with distinct ids. *)
Lemma run_wave_count pid wave : forall pl w results plan,
  plans pl !! pid = Some plan ->
  NoDup (step_id <$> steps plan) ->
  NoDup (step_id <$> wave) ->
  (forall x, x ∈ wave -> x ∈ steps plan /\ status x = READY) ->
  exists plan',
    plans (run_wave pl w pid wave results).1.1 !! pid = Some plan'
    /\ step_id <$> steps plan' = step_id <$> steps plan
    /\ open_steps (steps plan') + length wave = open_steps (steps plan)
    /\ length (run_wave pl w pid wave results).2 = length results + length wave.
Proof.
  induction wave as [|x wave IH]; intros pl w results plan Hp Hnd Hndw Hw.
  - exists plan. simpl. split_and!; [done|done|lia|lia].
  - destruct (Hw x) as [Hx Hxs]; [apply list_elem_of_here|].
    apply list_elem_of_lookup in Hx as (i & Hi).
    pose proof (find_step_nodup _ _ _ Hnd Hi) as Hf.
    apply NoDup_cons in Hndw as [Hxw Hndw].
    assert (Hopen : terminal x = false).
    { unfold terminal, status_is. by rewrite Hxs. }
    assert (Hnext : exists plan1,
              plans (execute_step pl w pid (step_id x)).1.1 !! pid = Some plan1
              /\ step_id <$> steps plan1 = step_id <$> steps plan
              /\ open_steps (steps plan1) + 1 = open_steps (steps plan)
              /\ forall k y, k <> i -> steps plan !! k = Some y ->
                   status y = READY -> steps plan1 !! k = Some y).
    { destruct (execute_step_cases pl w pid (step_id x))
        as [Hno|plan0 i0 s0 w' r Hp0 Hf0 Hs0 Hd|plan0 i0 s0 w' e Hp0 Hf0 Hs0 Hd].
      - exfalso. destruct Hno as [Hno|(q & Hq & [Hno|(k & y & Hk & Hy)])];
          [congruence| |]; assert (q = plan) as -> by congruence; congruence.
      - assert (plan0 = plan) as -> by congruence.
        assert (i0 = i /\ s0 = x) as [-> ->] by (split; congruence).
        eexists. cbn [fst]. split; [apply lookup_insert_eq|]. simpl.
        split_and!.
        + rewrite <- list_fmap_compose.
          rewrite <- (ids_insert (steps plan) i x
                        (set_output_data r (set_status COMPLETED x))) by done.
          apply list_fmap_ext. intros ? ? _. apply update_step_id.
        + rewrite open_update_exact. by apply (open_insert_exact _ _ x).
        + intros k y Hk Hy Hys.
          rewrite list_lookup_fmap, list_lookup_insert_ne, Hy by done. simpl.
          rewrite update_step_frozen; [done|congruence].
      - assert (plan0 = plan) as -> by congruence.
        assert (i0 = i /\ s0 = x) as [-> ->] by (split; congruence).
        eexists. cbn [fst]. split; [apply lookup_insert_eq|]. simpl.
        split_and!.
        + by apply (ids_insert _ _ x).
        + by apply (open_insert_exact _ _ x).
        + intros k y Hk Hy Hys. by rewrite list_lookup_insert_ne. }
    destruct Hnext as (plan1 & Hp1 & Hids1 & Hopen1 & Hkeep).
    cbn [run_wave].
    destruct (execute_step pl w pid (step_id x)) as [[pl1 w1] r1].
    cbn [fst] in Hp1.
    destruct (IH pl1 w1 (results ++ [(description x, r1)]) plan1)
      as (plan' & Hp' & Hids' & Hopen' & Hlen'); [done|by rewrite Hids1|done| |].
    { intros y Hy. destruct (Hw y) as [Hyin Hys]; [by apply list_elem_of_further|].
      split; [|done].
      apply list_elem_of_lookup in Hyin as (k & Hk).
      eapply list_elem_of_lookup_2. apply (Hkeep k y); [|done|done].
      intros ->. assert (y = x) as -> by congruence.
      apply Hxw. by apply list_elem_of_fmap_2. }
    exists plan'. split_and!; [done|congruence|simpl; lia|].
    rewrite Hlen', length_app. simpl. lia.
Qed.

Lemma wave_loop_count fuel : forall pl w pid results plan pl' w' results',
  wave_loop fuel pl w pid results = Some (pl', w', results') ->
  plans pl !! pid = Some plan ->
  NoDup (step_id <$> steps plan) ->
  exists plan',
    plans pl' !! pid = Some plan'
    /\ open_steps (steps plan') + length results'
       = open_steps (steps plan) + length results.
Proof.
  induction fuel as [|fuel IH]; intros pl w pid results plan pl' w' results';
    [done|].
  cbn [wave_loop]. intros Hl Hp Hnd.
  assert (Hn : get_next_steps pl pid
               = (store_plan pid (_update_ready_status (tools pl) plan) pl,
                  filter (fun s => status s = READY)
                    (steps (_update_ready_status (tools pl) plan))))
    by (unfold get_next_steps; by rewrite Hp).
  rewrite Hn in Hl.
  set (plan1 := _update_ready_status (tools pl) plan) in *.
  assert (Hp1 : plans (store_plan pid plan1 pl) !! pid = Some plan1)
    by apply lookup_insert_eq.
  assert (Hids1 : step_id <$> steps plan1 = step_id <$> steps plan).
  { apply related_ids, update_pass_trans. }
  assert (Hopen1 : open_steps (steps plan1) = open_steps (steps plan))
    by apply open_update_exact.
  destruct (filter _ (steps plan1)) as [|x wave] eqn:Hw.
  - injection Hl as <- <- <-. exists plan1. split; [done|lia].
  - destruct (run_wave_count pid (x :: wave) (store_plan pid plan1 pl) w results plan1)
      as (plan2 & Hp2 & Hids2 & Hopen2 & Hlen2); [done|by rewrite Hids1| |..].
    { rewrite <- Hw.
      apply (sublist_NoDup _ (step_id <$> steps plan1)); [by rewrite Hids1|].
      apply fmap_sublist, sublist_filter. }
    { intros y Hy. rewrite <- Hw in Hy.
      by apply list_elem_of_filter in Hy as [? ?]. }
    destruct (run_wave (store_plan pid plan1 pl) w pid (x :: wave) results)
      as [[pl2 w2] r2]. cbn [fst snd] in Hp2, Hlen2.
    destruct (IH pl2 w2 pid r2 plan2 pl' w' results' Hl Hp2) as (plan' & Hp' & Hc).
    { by rewrite Hids2, Hids1. }
    exists plan'. split; [done|]. lia.
Qed.

(** X14. With pairwise distinct step ids every step is executed at most
    once and every dispatch executes a step: when [execute_full_plan]
    returns, the number of result entries is the number of steps that
    went from open to COMPLETED or FAILED during the call. *)
Theorem execute_full_plan_counts_executed_steps fuel pl w pid plan pl' w' g results plan' :
  plans pl !! pid = Some plan ->
  NoDup (step_id <$> steps plan) ->
  execute_full_plan fuel pl w pid = Some (pl', w', FullResult pid g results plan') ->
  open_steps (steps plan) = open_steps (steps plan') + length results
  /\ length results <= length (steps plan).
Proof.
  intros Hp Hnd. unfold execute_full_plan. rewrite Hp.
  destruct (wave_loop fuel pl w pid []) as [[[pl2 w2] r2]|] eqn:Hl; [|done].
  intros [= <- <- <- <- <-].
  destruct (wave_loop_count fuel pl w pid [] plan pl2 w2 r2 Hl Hp Hnd)
    as (plan2 & Hp2 & Hc).
  rewrite Hp2. simpl in *.
  assert (open_steps (steps plan) <= length (steps plan))
    by (unfold open_steps; apply length_filter).
  lia.
Qed.

End LoopFacts.

Section DeadDependencies.

Context {World : Type} `{Collaborators World}.

Implicit Types (pl : Planner) (w : World) (p plan : Plan).
Implicit Types (s : PlanStep) (l : list PlanStep).

Lemma dead_related l l' d :
  Forall2 (rtc step_trans) l l' -> dead_dependency l d -> dead_dependency l' d.
Proof.
  intros HF Hdead x' Hin Hid.
  apply list_elem_of_lookup in Hin as (k & Hk).
  destruct (Forall2_lookup_r _ _ _ _ _ HF Hk) as (x & Hx & Ht).
  pose proof (step_trans_id _ _ Ht) as Hidx.
  assert (Hst : status x = FAILED \/ status x = NEEDS_TOOL).
  { apply Hdead; [by eapply list_elem_of_lookup_2|congruence]. }
  apply frozen_step_stays in Ht as ->; [done| |]; destruct Hst; congruence.
Qed.

Lemma dead_not_completed l d : dead_dependency l d -> d ∉ completed_ids l.
Proof.
  intros Hdead (x & Hin & Hst & Hid)%elem_of_completed_ids.
  destruct (Hdead x Hin Hid); congruence.
Qed.

Section Blocked.

Variables (s : PlanStep) (d : string) (j : nat).
Hypothesis Hs : status s = PENDING \/ status s = NEEDS_TOOL.
Hypothesis Hd : d ∈ depends_on s.

Lemma blocked_update tl p :
  blocked_by (steps p) j s d ->
  blocked_by (steps (_update_ready_status tl p)) j s d.
Proof.
  intros [(s' & Hj & Hs') Hdead]. split.
  - exists (update_step tl (completed_ids (steps p)) s').
    split; [simpl; by rewrite list_lookup_fmap, Hj|].
    destruct (update_step_blocked tl (completed_ids (steps p)) s' d)
      as [[Hu|Hu] _].
    + destruct Hs' as [-> | ->]; [done|by right].
    + by destruct Hs' as [-> | ->].
    + by apply dead_not_completed.
    + rewrite Hu. done.
    + rewrite Hu. right. by destruct Hs' as [-> | ->].
  - eapply dead_related; [apply update_pass_trans|done].
Qed.

Lemma blocked_insert l i x x' :
  blocked_by l j s d -> l !! i = Some x -> status x = READY ->
  step_trans x x' ->
  blocked_by (<[i := x']> l) j s d.
Proof.
  intros [(s' & Hj & Hs') Hdead] Hi Hx Ht. split.
  - exists s'. split; [|done]. rewrite list_lookup_insert_ne; [done|].
    intros ->. assert (x = s') as -> by congruence.
    destruct Hs' as [-> | ->], Hs; simpl in *; congruence.
  - eapply dead_related; [by apply (insert_trans _ _ x)|done].
Qed.

Lemma blocked_execute_step pl w pid pid' sid plan :
  plans pl !! pid = Some plan -> blocked_by (steps plan) j s d ->
  exists plan', plans (execute_step pl w pid' sid).1.1 !! pid = Some plan'
                /\ blocked_by (steps plan') j s d.
Proof.
  intros Hp Hb.
  destruct (execute_step_cases pl w pid' sid) as [?|plan0 k sk w' r Hp0 Hf0 Hs0 Hd0
                                                   |plan0 k sk w' e Hp0 Hf0 Hs0 Hd0];
    cbn [fst]; [eauto| |].
  all: destruct (decide (pid' = pid)) as [->|Hne];
    [|exists plan; split; [simpl; by rewrite lookup_insert_ne|done]].
  all: assert (plan0 = plan) as -> by congruence.
  all: apply find_step_Some in Hf0 as (Hk & _ & _).
  all: eexists; split; [apply lookup_insert_eq|].
  - apply (blocked_update _ (set_context _ (set_steps _ plan))). simpl.
    apply (blocked_insert _ _ sk); [done|done|done|by constructor].
  - simpl. apply (blocked_insert _ _ sk); [done|done|done|by constructor].
Qed.

Lemma blocked_get_next_steps pl pid pid' plan :
  plans pl !! pid = Some plan -> blocked_by (steps plan) j s d ->
  exists plan', plans (get_next_steps pl pid').1 !! pid = Some plan'
                /\ blocked_by (steps plan') j s d.
Proof.
  intros Hp Hb. unfold get_next_steps.
  destruct (plans pl !! pid') as [plan0|] eqn:Hp0; cbn [fst]; [|eauto].
  destruct (decide (pid' = pid)) as [->|Hne].
  - assert (plan0 = plan) as -> by congruence.
    eexists. split; [apply lookup_insert_eq|]. by apply blocked_update.
  - exists plan. split; [simpl; by rewrite lookup_insert_ne|done].
Qed.

Lemma blocked_run_wave pid' wave : forall pl w results pid plan,
  plans pl !! pid = Some plan -> blocked_by (steps plan) j s d ->
  exists plan', plans (run_wave pl w pid' wave results).1.1 !! pid = Some plan'
                /\ blocked_by (steps plan') j s d.
Proof.
  induction wave as [|x wave IH]; intros pl w results pid plan Hp Hb; [eauto|].
  cbn [run_wave].
  destruct (blocked_execute_step pl w pid pid' (step_id x) plan Hp Hb)
    as (plan1 & Hp1 & Hb1).
  destruct (execute_step pl w pid' (step_id x)) as [[pl1 w1] r1].
  by eapply IH.
Qed.

Lemma blocked_wave_loop fuel : forall pl w pid' results pl' w' results' pid plan,
  wave_loop fuel pl w pid' results = Some (pl', w', results') ->
  plans pl !! pid = Some plan -> blocked_by (steps plan) j s d ->
  exists plan', plans pl' !! pid = Some plan' /\ blocked_by (steps plan') j s d.
Proof.
  induction fuel as [|fuel IH];
    intros pl w pid' results pl' w' results' pid plan; [done|].
  cbn [wave_loop]. intros Hl Hp Hb.
  destruct (blocked_get_next_steps pl pid pid' plan Hp Hb) as (plan1 & Hp1 & Hb1).
  destruct (get_next_steps pl pid') as [pl1 [|x wave]]; cbn [fst] in Hp1.
  - injection Hl as <- <- <-. eauto.
  - destruct (blocked_run_wave pid' (x :: wave) pl1 w results pid plan1 Hp1 Hb1)
      as (plan2 & Hp2 & Hb2).
    destruct (run_wave pl1 w pid' (x :: wave) results) as [[pl2 w2] r2].
    by eapply IH.
Qed.

Lemma blocked_engine_op pl pl' pid plan :
  engine_op pl pl' ->
  plans pl !! pid = Some plan -> blocked_by (steps plan) j s d ->
  exists plan', plans pl' !! pid = Some plan' /\ blocked_by (steps plan') j s d.
Proof.
  destruct 1 as [pl c|pl pid'|pl w pid' sid|fuel pl w pid' pl' w' r Hfull];
    intros Hp Hb.
  - eauto.
  - by apply (blocked_get_next_steps pl pid pid' plan).
  - by apply (blocked_execute_step pl w pid pid' sid plan).
  - unfold execute_full_plan in Hfull.
    destruct (plans pl !! pid'); [|simplify_eq; eauto].
    destruct (wave_loop fuel pl w pid' []) as [[[pl2 w2] r2]|] eqn:Hl; [|done].
    simplify_eq. by eapply blocked_wave_loop.
Qed.

End Blocked.

(** X15. Failure propagates by starvation: a PENDING or NEEDS_TOOL step
    one of whose dependency ids is dead (every step carrying the id is
    FAILED or NEEDS_TOOL, or no step carries it) is never made READY and
    never executed, through any sequence of engine operations; it can
    only be flagged NEEDS_TOOL, and the dependency stays dead. *)
Theorem dead_dependency_starves_step pl pl' pid plan j s d :
  plans pl !! pid = Some plan ->
  steps plan !! j = Some s ->
  status s = PENDING \/ status s = NEEDS_TOOL ->
  d ∈ depends_on s ->
  dead_dependency (steps plan) d ->
  rtc engine_op pl pl' ->
  exists plan' s',
    plans pl' !! pid = Some plan'
    /\ steps plan' !! j = Some s'
    /\ (s' = s \/ s' = set_status NEEDS_TOOL s)
    /\ (status s' = PENDING \/ status s' = NEEDS_TOOL)
    /\ output_data s' = output_data s /\ error s' = error s
    /\ dead_dependency (steps plan') d.
Proof.
  intros Hp Hj Hs Hd Hdead Hops.
  assert (Hb : blocked_by (steps plan) j s d) by (split; eauto).
  clear Hj Hdead. revert plan Hp Hb.
  induction Hops as [pl|pl1 pl2 pl3 Hop _ IH]; intros plan Hp Hb.
  - destruct Hb as [(s' & Hj & Hs') Hdead]. exists plan, s'.
    split_and!; try done; destruct Hs' as [-> | ->]; simpl; auto.
  - destruct (blocked_engine_op s d j Hs Hd pl1 pl2 pid plan Hop Hp Hb)
      as (plan2 & Hp2 & Hb2).
    by apply (IH plan2).
Qed.

End DeadDependencies.

Section ExtractionFacts.

Context {World : Type} `{Collaborators World}.

Lemma brace_scan_sound text rest i n st p :
  brace_scan text rest i n st = Some p -> parses p = true.
Proof.
  revert i n st. induction rest as [|c rest IH]; intros i n st; [done|].
  cbn [brace_scan].
  destruct (Ascii.eqb c "{"%char); [apply IH|].
  destruct (Ascii.eqb c "}"%char); [|apply IH].
  destruct (if Z.eqb (n - 1) 0 then st else None) as [st0|]; [|apply IH].
  destruct (parses (slice st0 (i + 1) text)) eqn:Hp; [|apply IH].
  by intros [= <-].
Qed.

Lemma try_fences_sound text p : try_fences text = Some p -> parses p = true.
Proof.
  unfold try_fences. destruct (_ || _); [|done].
  destruct (fence_scan false (split_lines text)) as [|line more]; [done|].
  destruct (parses _) eqn:Hp; [|done]. by intros [= <-].
Qed.

Lemma extract_json_sound text :
  _extract_json text = EmptyString \/ parses (_extract_json text) = true.
Proof.
  unfold _extract_json.
  destruct (parses text) eqn:Hp; [by right|].
  destruct (try_fences text) as [p|] eqn:Hf; [right; by eapply try_fences_sound|].
  destruct (brace_scan text text 0 0 None) as [p|] eqn:Hb;
    [right; by eapply brace_scan_sound|].
  destruct (find parses (regex_matches text)) as [m|] eqn:Hm; [|by left].
  right. by apply find_some in Hm as [_ ?].
Qed.

(** X16. Whatever [_extract_json] returns is either the empty string or
    a text that [json.loads] accepts. As [json.loads] rejects the empty
    string, the result is non-empty exactly when it is valid JSON, and
    extraction fails only for a reply that is not JSON as a whole. *)
Theorem extract_json_returns_json_or_nothing text :
  parses EmptyString = false ->
  (_extract_json text = EmptyString \/ parses (_extract_json text) = true)
  /\ (_extract_json text <> EmptyString <-> parses (_extract_json text) = true)
  /\ (_extract_json text = EmptyString -> parses text = false).
Proof.
  intros Hempty. split; [apply extract_json_sound|]. split.
  - split.
    + intros Hne. by destruct (extract_json_sound text).
    + intros Hp He. rewrite He in Hp. congruence.
  - unfold _extract_json. destruct (parses text) eqn:Hp; [|done].
    intros ->. congruence.
Qed.

Lemma field_error {A : Type} (f : value -> option A) k (x : A) d e :
  field f k x d = inl e -> e = FieldTypeMismatch.
Proof.
  unfold field. destruct (dict_get k d) as [v|]; [|done].
  destruct (f v); [done|]. by intros [= <-].
Qed.

Lemma parse_step_error n v e :
  parse_step n v = inl e -> e = StepNotAnObject \/ e = FieldTypeMismatch.
Proof.
  unfold parse_step. destruct v; try (intros [= <-]; by left).
  unfold bind_sum. intros Hst. right.
  repeat match type of Hst with
         | context [field ?f ?k ?x ?d0] =>
             let E := fresh "E" in
             destruct (field f k x d0) eqn:E;
             [apply field_error in E; congruence|]
         end.
  done.
Qed.

Lemma parse_steps_error acc (vs : list value) e :
  parse_steps acc vs = inl e -> e = StepNotAnObject \/ e = FieldTypeMismatch.
Proof.
  revert acc. induction vs as [|v vs IH]; intros acc; simpl; [done|].
  destruct (parse_step (length acc) v) as [e0|st] eqn:Hst; simpl.
  - intros [= <-]. by eapply parse_step_error.
  - apply IH.
Qed.

(** X17. [create_plan] never raises the JSON decode error it re-raises
    after extraction: the text it parses was already accepted by
    [json.loads] inside [_extract_json], so that [except] branch is
    dead. *)
Theorem create_plan_never_raises_decode_error pl w g c :
  (create_plan pl w g c).2 <> inl JsonDecodeError.
Proof.
  unfold create_plan.
  destruct (ollama_plan w g c (tools pl)) as [w1 [content|e]]; [|done].
  destruct (String.eqb _ _) eqn:He; [done|].
  destruct (extract_json_sound (strip content)) as [Hnil|Hp].
  { rewrite Hnil in He. done. }
  unfold parses in Hp.
  destruct (json_loads _) as [[| | | | | |data]|]; try done.
  destruct (dict_get "complexity" data) as [cv|]; [|done].
  destruct (dict_get "steps" data) as [sv|]; [|done].
  destruct (bind_sum _ _) as [e|steps_] eqn:Hparse.
  { cbn [snd]. intros [= ->]. unfold bind_sum in Hparse.
    destruct (iterate sv) as [e|vs] eqn:Hit.
    - destruct sv; simpl in Hit; congruence.
    - apply parse_steps_error in Hparse as [?|?]; congruence. }
  destruct (uuid4_hex8 w1) as [w2 hex].
  destruct (complexity_of_value cv) as [cx|]; [|done].
  destruct (datetime_now w2) as [w3 now].
  unfold _save_plan_to_db. by destruct (existsb _ _).
Qed.

Lemma brace_scan_skip text pre rest i n st :
  first_index "{"%char pre = None ->
  first_index "}"%char pre = None ->
  brace_scan text (pre ++ rest) i n st
  = brace_scan text rest (i + String.length pre) n st.
Proof.
  revert i. induction pre as [|c pre IH]; intros i.
  - intros _ _. rewrite append_nil_l. simpl. by rewrite Nat.add_0_r.
  - intros [Ho Ho']%first_index_None_cons [Hc Hc']%first_index_None_cons.
    rewrite append_cons. cbn [brace_scan String.length].
    rewrite (Ascii.eqb_sym c "{"%char), Ho, (Ascii.eqb_sym c "}"%char), Hc.
    rewrite IH by done. f_equal. lia.
Qed.

Lemma brace_scan_close text body post : forall i depth st,
  (1 <= depth)%Z ->
  closes_at_end depth body = true ->
  parses (slice st (i + String.length body) text) = true ->
  brace_scan text (body ++ post) i depth (Some st)
  = Some (slice st (i + String.length body) text).
Proof.
  induction body as [|c body IH]; intros i depth st Hdepth Hclose Hp; [done|].
  rewrite append_cons. cbn [brace_scan closes_at_end String.length] in *.
  replace (i + S (String.length body)) with (S i + String.length body) in * by lia.
  destruct (Ascii.eqb c "{"%char).
  - destruct (Z.eqb_spec (depth + 1) 0) as [?|_]; [lia|].
    destruct (Z.eqb_spec depth 0) as [?|_]; [lia|].
    apply IH; [lia|done|done].
  - destruct (Ascii.eqb c "}"%char).
    + destruct (Z.eqb_spec (depth - 1) 0) as [Hz|Hnz].
      * destruct body; [|done]. cbn [String.length] in *.
        replace (S i + 0) with (i + 1) in * by lia.
        cbv beta iota. by rewrite Hp.
      * apply IH; [lia|done|done].
    + destruct (Z.eqb_spec depth 0) as [?|_]; [lia|].
      apply IH; [lia|done|done].
Qed.

Lemma substring_skip a n b :
  substring (String.length a) n (a ++ b) = substring 0 n b.
Proof. induction a as [|c a IH]; [done|]. by rewrite append_cons. Qed.

Lemma substring_prefix b c :
  substring 0 (String.length b) (b ++ c) = b.
Proof.
  induction b as [|x b IH].
  - rewrite append_nil_l. by destruct c.
  - rewrite append_cons. cbn [String.length substring]. by rewrite IH.
Qed.

(** X18. The brace strategy recovers a JSON object embedded in prose:
    for a reply made of text without braces, then a span that opens with
    a brace and whose nesting depth comes back to zero at its last
    character and not before, then anything, [_extract_json] returns that
    span when it parses (and the whole reply and its fenced lines do
    not). *)
Theorem extract_json_finds_embedded_object pre body post :
  first_index "{"%char pre = None ->
  first_index "}"%char pre = None ->
  closes_at_end 1 body = true ->
  parses (String "{"%char body) = true ->
  parses (pre ++ String "{"%char body ++ post) = false ->
  try_fences (pre ++ String "{"%char body ++ post) = None ->
  _extract_json (pre ++ String "{"%char body ++ post) = String "{"%char body.
Proof.
  intros Ho Hc Hclose Hp Hnp Hf.
  unfold _extract_json. rewrite Hnp, Hf.
  set (text := (pre ++ String "{"%char body ++ post)%string).
  assert (Hslice : slice (String.length pre)
                     (S (String.length pre) + String.length body) text
                   = String "{"%char body).
  { unfold slice, text.
    replace (S (String.length pre) + String.length body - String.length pre)
      with (String.length (String "{"%char body)) by (simpl; lia).
    by rewrite substring_skip, substring_prefix. }
  assert (Hscan : brace_scan text text 0 0 None = Some (String "{"%char body)).
  { unfold text at 2. rewrite brace_scan_skip by done.
    rewrite append_cons. cbn [brace_scan]. simpl (Z.eqb 0 0). cbn match.
    simpl (0 + String.length pre). change (0 + 1)%Z with 1%Z.
    rewrite brace_scan_close; [by rewrite Hslice|lia|done|by rewrite Hslice]. }
  by rewrite Hscan.
Qed.

End ExtractionFacts.

Section CreationFacts.

Context {World : Type} `{Collaborators World}.

Implicit Types (pl : Planner) (w : World) (p plan : Plan).
Implicit Types (s : PlanStep) (l : list PlanStep).

(** X19. [Complexity] and its values round-trip: [Complexity(c.value)]
    is [c], and [Complexity(v)] succeeds for the four lower-case names
    only. *)
Theorem complexity_value_round_trip c v :
  complexity_of_value (VStr (complexity_value c)) = Some c
  /\ (complexity_of_value v = Some c <-> v = VStr (complexity_value c)).
Proof.
  split; [by destruct c|]. split.
  - destruct v as [| | | |str| |]; try done. simpl.
    repeat match goal with
           | |- context [String.eqb str ?k] =>
               destruct (String.eqb_spec str k) as [->|?]
           end; try done; by intros [= <-].
  - intros ->. by destruct c.
Qed.

Lemma field_default {A : Type} (f : value -> option A) k (x a : A) d :
  field f k x d = inr a ->
  match dict_get k d with
  | None => a = x
  | Some v => f v = Some a
  end.
Proof.
  unfold field. destruct (dict_get k d) as [v|]; [|by intros [= <-]].
  destruct (f v); [by intros [= <-]|done].
Qed.

Lemma parse_step_fields n v st :
  parse_step n v = inr st ->
  exists d,
    v = VDict d
    /\ status st = PENDING /\ output_data st = VNone /\ error st = None
    /\ match dict_get "id" d with
       | None => step_id st = ("step_" ++ pretty (S n))%string
       | Some x => x = VStr (step_id st)
       end
    /\ match dict_get "tool" d with
       | None | Some VNone => tool st = None
       | Some x => exists t, x = VStr t /\ tool st = Some t
       end
    /\ (dict_get "depends_on" d = None -> depends_on st = [])
    /\ (dict_get "deferred_requirements" d = None -> deferred_requirements st = [])
    /\ (dict_get "description" d = None -> description st = EmptyString)
    /\ tool_input st = default (VDict []) (dict_get "tool_input" d).
Proof.
  unfold parse_step. destruct v as [| | | | | |d]; try done.
  unfold bind_sum. intros Hst.
  destruct (field as_str "id" _ d) as [|i] eqn:Ei; [done|].
  destruct (field as_str "description" _ d) as [|de] eqn:Ede; [done|].
  destruct (field _ "tool" None d) as [|t] eqn:Et; [done|].
  destruct (field as_str "expected_output" _ d) as [|eo] eqn:Eeo; [done|].
  destruct (field (as_list as_str) "depends_on" [] d) as [|deps] eqn:Edeps; [done|].
  destruct (field (as_list as_requirement) "deferred_requirements" [] d)
    as [|reqs] eqn:Ereqs; [done|].
  injection Hst as <-. exists d. cbn.
  apply field_default in Ei, Ede, Et, Edeps, Ereqs.
  split_and!; try done.
  - destruct (dict_get "id" d) as [x|]; [|done].
    destruct x; simpl in Ei; congruence.
  - destruct (dict_get "tool" d) as [x|]; [|done].
    destruct x; simpl in Et; try congruence. eexists. split; [done|congruence].
  - intros Hn. by rewrite Hn in Edeps.
  - intros Hn. by rewrite Hn in Ereqs.
  - intros Hn. by rewrite Hn in Ede.
Qed.

Lemma parse_steps_app acc (vs : list value) res :
  parse_steps acc vs = inr res ->
  exists new,
    res = acc ++ new /\ length new = length vs
    /\ forall k v, vs !! k = Some v ->
         exists st, new !! k = Some st /\ parse_step (length acc + k) v = inr st.
Proof.
  revert acc. induction vs as [|v vs IH]; intros acc; simpl.
  - intros [= <-]. exists []. rewrite app_nil_r. split_and!; try done.
  - destruct (parse_step (length acc) v) as [|st] eqn:Hst; [done|]. simpl.
    intros Hres. destruct (IH _ Hres) as (new & -> & Hlen & Hk).
    exists (st :: new). split_and!.
    + by rewrite <- app_assoc.
    + simpl. lia.
    + intros [|k] x Hx; simpl in *.
      * simplify_eq. exists st. split; [done|]. by rewrite Nat.add_0_r.
      * destruct (Hk k x Hx) as (st' & Hn & Hp). exists st'. split; [done|].
        rewrite length_app in Hp. simpl in Hp.
        by replace (length acc + S k) with (length acc + 1 + k) by lia.
Qed.

Lemma update_step_fresh tl c s :
  status s = PENDING -> output_data s = VNone -> error s = None ->
  (status (update_step tl c s) = PENDING \/ status (update_step tl c s) = READY
   \/ status (update_step tl c s) = NEEDS_TOOL)
  /\ output_data (update_step tl c s) = VNone
  /\ error (update_step tl c s) = None.
Proof.
  intros Hs Ho He.
  destruct (update_step_pending tl c s Hs) as [[_ ->]|[(_ & _ & ->)|[_ ->]]];
    simpl; auto.
Qed.

(** What a successful [create_plan] has done. *)
Lemma create_plan_success pl w g c pl' w' plan :
  create_plan pl w g c = (pl', w', inr plan) ->
  exists steps_ (vs : list value),
    parse_steps [] vs = inr steps_
    /\ steps plan = update_step (tools pl) (completed_ids steps_) <$> steps_
    /\ goal plan = g
    /\ pl' = {| tools := tools pl;
                plans := <[plan_id plan := plan]> (plans pl);
                plans_table := plans_table pl ++ [plan] |}
    /\ existsb (fun row => String.eqb (plan_id row) (plan_id plan)) (plans_table pl)
       = false.
Proof.
  unfold create_plan.
  destruct (ollama_plan w g c (tools pl)) as [w1 [content|e]]; [|done].
  destruct (String.eqb _ _); [done|].
  destruct (json_loads _) as [[| | | | | |data]|]; try done.
  destruct (dict_get "complexity" data) as [cv|]; [|done].
  destruct (dict_get "steps" data) as [sv|]; [|done].
  destruct (bind_sum _ _) as [e|steps_] eqn:Hparse; [done|].
  destruct (uuid4_hex8 w1) as [w2 hex].
  destruct (complexity_of_value cv) as [cx|]; [|done].
  destruct (datetime_now w2) as [w3 now].
  unfold _save_plan_to_db.
  destruct (existsb _ _) eqn:Hex; [done|].
  intros [= <- <- <-].
  unfold bind_sum in Hparse. destruct (iterate sv) as [|vs]; [done|].
  exists steps_, vs. split_and!; try done.
Qed.

(** X21. A successful [create_plan]: the returned plan is registered
    under its id (so [get_plan] finds it) and appended as the last row of
    the plans table, whose other rows carry other ids; the registry and
    the other plans are unchanged; the plan has the given goal; each of
    its steps is PENDING, READY or NEEDS_TOOL with no output and no
    error, and a further readiness pass would change nothing. *)
Theorem create_plan_registers_and_persists pl w g c pl' w' plan :
  create_plan pl w g c = (pl', w', inr plan) ->
  get_plan pl' (plan_id plan) = Some plan
  /\ plans_table pl' = plans_table pl ++ [plan]
  /\ Forall (fun row => plan_id row <> plan_id plan) (plans_table pl)
  /\ tools pl' = tools pl
  /\ (forall k, k <> plan_id plan -> get_plan pl' k = get_plan pl k)
  /\ goal plan = g
  /\ Forall (fun s => (status s = PENDING \/ status s = READY
                       \/ status s = NEEDS_TOOL)
                      /\ output_data s = VNone /\ error s = None) (steps plan)
  /\ _update_ready_status (tools pl') plan = plan.
Proof.
  intros Hc.
  destruct (create_plan_success _ _ _ _ _ _ _ Hc)
    as (steps_ & vs & Hparse & Hsteps & Hg & -> & Hex).
  unfold get_plan. cbn [plans tools plans_table].
  split_and!; try done.
  - apply lookup_insert_eq.
  - apply Forall_forall. intros row Hrow Heq.
    apply not_true_iff_false in Hex. apply Hex, existsb_exists.
    exists row. split; [by apply list_elem_of_In|]. by apply String.eqb_eq.
  - intros k Hk. by apply lookup_insert_ne.
  - rewrite Hsteps. apply Forall_fmap, Forall_forall. intros s Hs. simpl.
    destruct (parse_steps_app _ _ _ Hparse) as (new & -> & Hlen & Hk).
    apply list_elem_of_lookup in Hs as (k & Hs). simpl in Hs.
    assert (exists v, vs !! k = Some v) as (v & Hv).
    { apply lookup_lt_is_Some. apply lookup_lt_Some in Hs. lia. }
    destruct (Hk k v Hv) as (st & Hst & Hp).
    assert (st = s) as -> by congruence.
    destruct (parse_step_fields _ _ _ Hp) as (d & _ & ? & ? & ? & _).
    by apply update_step_fresh.
  - destruct plan as [pid0 g0 cx0 st0 ca0 ctx0]. simpl in *.
    unfold _update_ready_status, set_steps. simpl. f_equal.
    rewrite Hsteps, completed_ids_update, <- list_fmap_compose.
    apply list_fmap_ext. intros i s _. simpl. apply update_step_twice.
Qed.

(** X22. When the INSERT of [_save_plan_to_db] raises, [create_plan]
    raises after it has registered the plan: the planner then holds the
    new plan under its id, in place of any plan that was there, while the
    plans table, the registry and the other plans are as before. *)
Theorem create_plan_persist_failure_keeps_plan pl w g c pl' w' :
  create_plan pl w g c = (pl', w', inl PersistError) ->
  exists plan,
    get_plan pl' (plan_id plan) = Some plan
    /\ goal plan = g
    /\ plans_table pl' = plans_table pl
    /\ tools pl' = tools pl
    /\ (forall k, k <> plan_id plan -> get_plan pl' k = get_plan pl k).
Proof.
  unfold create_plan.
  destruct (ollama_plan w g c (tools pl)) as [w1 [content|e]]; [|done].
  destruct (String.eqb _ _); [done|].
  destruct (json_loads _) as [[| | | | | |data]|]; try done.
  destruct (dict_get "complexity" data) as [cv|]; [|done].
  destruct (dict_get "steps" data) as [sv|]; [|done].
  destruct (bind_sum _ _) as [e|steps_] eqn:Hparse.
  { intros [= _ _ ->]. unfold bind_sum in Hparse.
    destruct (iterate sv) as [e|vs] eqn:Hit.
    - destruct sv; simpl in Hit; congruence.
    - apply parse_steps_error in Hparse as [?|?]; congruence. }
  destruct (uuid4_hex8 w1) as [w2 hex].
  destruct (complexity_of_value cv) as [cx|]; [|done].
  destruct (datetime_now w2) as [w3 now].
  unfold _save_plan_to_db.
  destruct (existsb _ _) eqn:Hex; [|done].
  intros [= <- _]. eexists. unfold get_plan. cbn [plans store_plan set_plans].
  split; [apply lookup_insert_eq|]. split; [done|]. split; [done|].
  split; [done|]. intros k Hk. by apply lookup_insert_ne.
Qed.

End CreationFacts.

Section MoreExamples.

Import Sample Runs.

Lemma update_ready_status_idempotent_witness :
  let p := mk_plan [image_step; mk_step "a" None (VDict []) PENDING [] []] in
  _update_ready_status (tools (register_tool image_gen new_planner))
    (_update_ready_status (tools new_planner) p)
  = _update_ready_status (tools new_planner) p.
Proof.
  apply (update_ready_status_idempotent (tools new_planner)
           (tools (register_tool image_gen new_planner))).
  intros n Hn. cbn [tools register_tool].
  destruct (decide (n = name image_gen)) as [->|Hne].
  - rewrite lookup_insert_eq. eauto.
  - rewrite lookup_insert_ne; [exact Hn|congruence].
Defined.


Lemma builtin_tools_stay_registered_witness :
  registered (tools chain_created.1.1) "memory_get_facts" = true.
Proof.
  apply (builtin_tools_stay_registered chain_created.1.1 "memory_get_facts").
  - exact (reach_create new_planner 0 chain_reply VNone reach_new).
  - apply list_elem_of_In. simpl. auto.
Defined.

Lemma execution_keeps_table_and_headers_witness :
  let pl := chain_created.1.1 in
  let pl' := (execute_step pl 3 "plan_1" "a").1.1 in
  plans_table pl' = plans_table pl
  /\ (forall pid, plan_header <$> get_plan pl' pid = plan_header <$> get_plan pl pid)
  /\ (forall pid, is_Some (get_plan pl' pid) <-> is_Some (get_plan pl pid)).
Proof.
  intros pl pl'.
  apply (execution_keeps_table_and_headers pl pl').
  apply rtc_once. exact (op_execute_step pl 3 "plan_1" "a").
Defined.

Lemma non_dict_tool_input_fails_step_witness :
  exists pl' plan',
    execute_step (with_plan [null_step]) 0 "plan_0" "n" = (pl', 0, VNone)
    /\ plans pl' !! "plan_0" = Some plan'
    /\ steps plan'
       = <[0 := set_error "'NoneType' object has no attribute 'get'"
                  (set_status FAILED null_step)]> [null_step]
    /\ context plan' = context (mk_plan [null_step]).
Proof.
  apply (non_dict_tool_input_fails_step (with_plan [null_step]) 0
           "plan_0" "n" (mk_plan [null_step]) 0 null_step);
    [vm_compute; reflexivity|vm_compute; reflexivity|reflexivity
    |intros d; discriminate|left; reflexivity].
Defined.


Lemma get_facts_handler_result_witness :
  match get_topic_facts 0 (VStr "coffee") with
  | (w', Raise e) => _execute_get_facts 0 facts_step = (w', Raise e)
  | (w', Ok facts) =>
      (exists fs,
         _execute_get_facts 0 facts_step
         = (w', Ok (VDict [("topic", VStr "coffee"); ("facts", VList fs)]))
         /\ length fs = length facts
         /\ Forall2
              (fun f v => exists ty co lo,
                 dict_get "type" f = Some ty /\ dict_get "fact" f = Some co
                 /\ dict_get "locked" f = Some lo
                 /\ v = VDict [("type", ty); ("content", co); ("locked", lo)])
              facts fs)
      \/ (exists k f,
            _execute_get_facts 0 facts_step = (w', Raise ("'" ++ k ++ "'"))
            /\ k ∈ ["type"; "fact"; "locked"] /\ f ∈ facts
            /\ dict_get k f = None)
  end.
Proof.
  exact (get_facts_handler_result 0 facts_step
           [("topic_name", VStr "coffee")] eq_refl).
Defined.

Lemma execute_full_plan_runs_to_quiescence_witness :
  exists pl',
    execute_full_plan 3 (with_plan chain_steps) 0 "plan_0"
    = Some (pl', 2,
            FullResult "plan_0" EmptyString
              [(EmptyString, VStr EmptyString); (EmptyString, VStr EmptyString)]
              chain_done)
    /\ plans pl' !! "plan_0" = Some chain_done
    /\ Forall (fun s => status s <> READY) (steps chain_done)
    /\ get_next_steps pl' "plan_0" = (pl', []).
Proof.
  exists (store_plan "plan_0" chain_done (with_plan chain_steps)).
  assert (Hrun : execute_full_plan 3 (with_plan chain_steps) 0 "plan_0"
                 = Some (store_plan "plan_0" chain_done (with_plan chain_steps), 2,
                         FullResult "plan_0" EmptyString
                           [(EmptyString, VStr EmptyString);
                            (EmptyString, VStr EmptyString)]
                           chain_done))
    by (vm_compute; reflexivity).
  split; [exact Hrun|].
  pose proof (execute_full_plan_runs_to_quiescence _ _ _ _ _ _ _ Hrun) as Hq.
  assert (Hp : plans (with_plan chain_steps) !! "plan_0" = Some (mk_plan chain_steps))
    by (vm_compute; reflexivity).
  rewrite Hp in Hq. destruct Hq as (results & plan' & Hr & Hp' & Hst & _ & Hn).
  injection Hr as <- <-. tauto.
Defined.

Lemma execute_full_plan_counts_executed_steps_witness :
  open_steps chain_steps = open_steps (steps chain_done) + 2 /\ 2 <= 2.
Proof.
  apply (execute_full_plan_counts_executed_steps 3 (with_plan chain_steps) 0
           "plan_0" (mk_plan chain_steps)
           (store_plan "plan_0" chain_done (with_plan chain_steps)) 2 EmptyString
           [(EmptyString, VStr EmptyString); (EmptyString, VStr EmptyString)]
           chain_done).
  - vm_compute. reflexivity.
  - apply NoDup_cons. split; [|apply NoDup_singleton].
    intros Hin. apply list_elem_of_In in Hin. simpl in Hin.
    destruct Hin as [Hin|[]]. discriminate Hin.
  - vm_compute. reflexivity.
Defined.

Lemma dead_dependency_starves_step_witness :
  let pl := with_plan starved_steps in
  let pl' := (execute_step (get_next_steps pl "plan_0").1 0 "plan_0" "b").1.1 in
  exists plan' s',
    plans pl' !! "plan_0" = Some plan'
    /\ steps plan' !! 1 = Some s'
    /\ status s' = PENDING.
Proof.
  intros pl pl'.
  destruct (dead_dependency_starves_step pl pl' "plan_0" (mk_plan starved_steps) 1
              (mk_step "b" None (VDict []) PENDING ["a"] []) "a")
    as (plan' & s' & Hp & Hs & _).
  - vm_compute. reflexivity.
  - reflexivity.
  - left. reflexivity.
  - apply list_elem_of_In. simpl. auto.
  - intros x Hx Hid. apply list_elem_of_In in Hx. simpl in Hx.
    destruct Hx as [<-|[<-|[]]]; [left; reflexivity|discriminate Hid].
  - eapply rtc_l; [exact (op_next_steps pl "plan_0")|].
    apply rtc_once.
    exact (op_execute_step (get_next_steps pl "plan_0").1 0 "plan_0" "b").
  - exists plan', s'. split; [exact Hp|]. split; [exact Hs|].
    vm_compute in Hp. injection Hp as <-. vm_compute in Hs. injection Hs as <-.
    reflexivity.
Defined.

Lemma extract_json_returns_json_or_nothing_witness :
  (_extract_json fenced_object = EmptyString
   \/ parses (_extract_json fenced_object) = true)
  /\ (_extract_json fenced_object <> EmptyString
      <-> parses (_extract_json fenced_object) = true)
  /\ (_extract_json fenced_object = EmptyString -> parses fenced_object = false).
Proof.
  apply (extract_json_returns_json_or_nothing fenced_object). reflexivity.
Defined.

Lemma extract_json_finds_embedded_object_witness :
  _extract_json embedded_reply = "{}".
Proof.
  apply (extract_json_finds_embedded_object "Plan: " "}" " done");
    vm_compute; reflexivity.
Defined.

Lemma create_plan_registers_and_persists_witness :
  chain_created = (chain_created.1.1, 3, inr chain_plan)
  /\ get_plan chain_created.1.1 "plan_1" = Some chain_plan
  /\ plans_table chain_created.1.1 = [chain_plan].
Proof.
  assert (Hc : create_plan new_planner 0 chain_reply VNone
               = (chain_created.1.1, 3, inr chain_plan))
    by (vm_compute; reflexivity).
  split; [exact Hc|].
  destruct (create_plan_registers_and_persists _ _ _ _ _ _ _ Hc)
    as (Hg & Ht & _).
  split; [exact Hg|exact Ht].
Defined.

Lemma create_plan_persist_failure_keeps_plan_witness :
  let r := create_plan chain_created.1.1 0 chain_reply VNone in
  r.2 = inl PersistError
  /\ exists plan,
       get_plan r.1.1 (plan_id plan) = Some plan
       /\ goal plan = chain_reply
       /\ plans_table r.1.1 = plans_table chain_created.1.1.
Proof.
  intros r.
  assert (Hc : create_plan chain_created.1.1 0 chain_reply VNone
               = (r.1.1, r.1.2, inl PersistError))
    by (vm_compute; reflexivity).
  split; [vm_compute; reflexivity|].
  destruct (create_plan_persist_failure_keeps_plan _ _ _ _ _ _ Hc)
    as (plan & Hp & Hg & Ht & _).
  exists plan. split; [exact Hp|]. split; [exact Hg|exact Ht].
Defined.

End MoreExamples.

Section Containment.

Context {World : Type} `{Collaborators World}.

Implicit Types (pl : Planner) (w : World) (p plan : Plan).
Implicit Types (s x : PlanStep) (l : list PlanStep).

Lemma run_wave_app pid wave1 wave2 : forall pl w results,
  run_wave pl w pid (wave1 ++ wave2) results
  = let '(pl1, w1, results1) := run_wave pl w pid wave1 results in
    run_wave pl1 w1 pid wave2 results1.
Proof.
  induction wave1 as [|x wave1 IH]; intros pl w results; simpl; [done|].
  destruct (execute_step pl w pid (step_id x)) as [[pl1 w1] r1]. apply IH.
Qed.

Lemma run_wave_results pid wave : forall pl w results,
  exists more,
    (run_wave pl w pid wave results).2 = results ++ more
    /\ length more = length wave.
Proof.
  induction wave as [|x wave IH]; intros pl w results; simpl.
  - exists []. by rewrite app_nil_r.
  - destruct (execute_step pl w pid (step_id x)) as [[pl1 w1] r1].
    destruct (IH pl1 w1 (results ++ [(description x, r1)])) as (more & -> & Hlen).
    exists ((description x, r1) :: more). rewrite <- app_assoc. simpl.
    split; [done|lia].
Qed.

Lemma wave_loop_results fuel : forall pl w pid results pl' w' results',
  wave_loop fuel pl w pid results = Some (pl', w', results') ->
  exists more, results' = results ++ more.
Proof.
  induction fuel as [|fuel IH]; intros pl w pid results pl' w' results'; [done|].
  cbn [wave_loop].
  destruct (get_next_steps pl pid) as [pl1 [|x wave]].
  - intros [= <- <- <-]. exists []. by rewrite app_nil_r.
  - destruct (run_wave_results pid (x :: wave) pl1 w results) as (more1 & Hr & _).
    destruct (run_wave pl1 w pid (x :: wave) results) as [[pl2 w2] r2].
    simpl in Hr. subst r2. intros Hl.
    destruct (IH _ _ _ _ _ _ _ Hl) as (more2 & ->).
    exists (more1 ++ more2). by rewrite app_assoc.
Qed.

Lemma wave_loop_wave fuel pl w pid results pl1 wave :
  get_next_steps pl pid = (pl1, wave) -> wave <> [] ->
  wave_loop (S fuel) pl w pid results
  = let '(pl2, w2, results2) := run_wave pl1 w pid wave results in
    wave_loop fuel pl2 w2 pid results2.
Proof.
  intros Hn Hne. cbn [wave_loop]. rewrite Hn. by destruct wave.
Qed.

(** A step is settled when it is COMPLETED or FAILED, and live when it
    is READY or settled: a live step stays live, with its id. *)
Lemma live_related y y' :
  rtc step_trans y y' ->
  status y = READY \/ terminal y = true ->
  step_id y' = step_id y /\ (status y' = READY \/ terminal y' = true).
Proof.
  intros Ht Hl. split; [by apply step_trans_id|].
  destruct Hl as [Hr|Hd].
  - destruct (step_lifetime _ _ Ht) as [->|[[Hs _]|[_ [[r ->]|[e ->]]]]];
      [by left|congruence|by right|by right].
  - apply step_trans_terminal in Ht as ->; [by right|done].
Qed.

Lemma execute_step_settles pl w pid sid plan i s :
  plans pl !! pid = Some plan ->
  find_step sid (steps plan) = Some (i, s) ->
  status s = READY ->
  exists plan' s',
    plans (execute_step pl w pid sid).1.1 !! pid = Some plan'
    /\ steps plan' !! i = Some s' /\ terminal s' = true.
Proof.
  intros Hp Hf Hs.
  pose proof (find_step_Some _ _ _ _ Hf) as (Hi & _ & _).
  assert (Hlt : i < length (steps plan)) by by eapply lookup_lt_Some.
  destruct (execute_step_cases pl w pid sid)
    as [Hno|plan0 i0 s0 w' r Hp0 Hf0 Hs0 Hd|plan0 i0 s0 w' e Hp0 Hf0 Hs0 Hd].
  - exfalso. destruct Hno as [Hno|(plan0 & Hp0 & [Hno|(i0 & s0 & Hf0 & Hns)])];
      simplify_eq.
  - simplify_eq. eexists _, _. simpl. split; [apply lookup_insert_eq|].
    simpl. rewrite list_lookup_fmap, list_lookup_insert_eq by done. simpl.
    rewrite update_step_frozen by done. done.
  - simplify_eq. eexists _, _. simpl. split; [apply lookup_insert_eq|].
    simpl. rewrite list_lookup_insert_eq by done. done.
Qed.

(** With pairwise distinct ids, a wave settles every live step it
    names, whatever the outcome of the others. *)
Lemma run_wave_settles pid wave : forall pl w results plan,
  plans pl !! pid = Some plan ->
  NoDup (step_id <$> steps plan) ->
  (forall x, x ∈ wave ->
     exists j y, steps plan !! j = Some y /\ step_id y = step_id x
                 /\ (status y = READY \/ terminal y = true)) ->
  exists plan',
    plans (run_wave pl w pid wave results).1.1 !! pid = Some plan'
    /\ Forall2 (rtc step_trans) (steps plan) (steps plan')
    /\ forall x, x ∈ wave ->
         exists y', y' ∈ steps plan' /\ step_id y' = step_id x
                    /\ terminal y' = true.
Proof.
  induction wave as [|x wave IH]; intros pl w results plan Hp Hnd Hw.
  - exists plan. simpl. split; [done|]. split.
    + by apply Forall_Forall2_diag, Forall_forall.
    + intros x Hx. by apply elem_of_nil in Hx.
  - cbn [run_wave].
    destruct (Hw x) as (j & y & Hj & Hid & Hlive); [by left|].
    pose proof (find_step_nodup _ _ _ Hnd Hj) as Hf. rewrite Hid in Hf.
    pose proof (execute_step_related pl w pid (step_id x) pid plan Hp)
      as (plan1 & Hp1 & HF1).
    assert (Hdone : exists y1, steps plan1 !! j = Some y1 /\ terminal y1 = true).
    { destruct Hlive as [Hr|Hd].
      - destruct (execute_step_settles pl w pid _ plan j y Hp Hf Hr)
          as (plan1' & y1 & Hp1' & Hj1 & Ht1).
        rewrite Hp1 in Hp1'. injection Hp1' as <-. eauto.
      - destruct (Forall2_lookup_l _ _ _ _ _ HF1 Hj) as (y1 & Hj1 & Ht).
        apply step_trans_terminal in Ht as ->; [|done]. eauto. }
    destruct Hdone as (y1 & Hj1 & Ht1).
    destruct (execute_step pl w pid (step_id x)) as [[pl1 w1] r1] eqn:Hex.
    simpl in Hp1.
    destruct (IH pl1 w1 (results ++ [(description x, r1)]) plan1 Hp1)
      as (plan' & Hp' & HF' & Hall).
    { by rewrite (related_ids _ _ HF1). }
    { intros z Hz. destruct (Hw z) as (k & yz & Hk & Hidz & Hlz); [by right|].
      destruct (Forall2_lookup_l _ _ _ _ _ HF1 Hk) as (yz1 & Hk1 & Htz).
      destruct (live_related _ _ Htz Hlz) as (Hidz1 & Hlz1).
      exists k, yz1. split; [done|]. split; [congruence|done]. }
    exists plan'. split; [done|]. split.
    { clear -HF1 HF'. revert HF'. generalize (steps plan').
      induction HF1 as [|a b la lb Hab _ IHF]; intros lc HF'.
      - by inversion HF'.
      - inversion HF' as [|b' c lb' lc' Hbc Hrest]; subst.
        constructor; [by etrans|by apply IHF]. }
    intros z [->|Hz]%elem_of_cons; [|by apply Hall].
    destruct (Forall2_lookup_l _ _ _ _ _ HF' Hj1) as (y2 & Hj2 & Ht2).
    apply step_trans_terminal in Ht2 as ->; [|done].
    exists y1. split; [by eapply list_elem_of_lookup_2|].
    split; [|done].
    destruct (Forall2_lookup_l _ _ _ _ _ HF1 Hj) as (y1' & Hj1' & Ht).
    assert (y1' = y1) as -> by congruence.
    apply step_trans_id in Ht. congruence.
Qed.

Lemma quiescent_no_ready pl pid plan :
  get_next_steps pl pid = (pl, []) ->
  plans pl !! pid = Some plan ->
  Forall (fun s => status s <> READY) (steps plan).
Proof.
  intros Hq Hp.
  assert (Hm : (get_next_steps pl pid).1 = pl) by by rewrite Hq.
  assert (Hf : (get_next_steps pl pid).2 = []) by by rewrite Hq.
  unfold get_next_steps in Hm, Hf. rewrite Hp in Hm, Hf. cbn [fst snd] in Hm, Hf.
  assert (Hfix : _update_ready_status (tools pl) plan = plan).
  { assert (Hlk : plans (set_plans
                    (<[pid:=_update_ready_status (tools pl) plan]> (plans pl)) pl)
                  !! pid = plans pl !! pid) by by rewrite Hm.
    simpl in Hlk. rewrite lookup_insert_eq, Hp in Hlk. congruence. }
  rewrite Hfix in Hf. apply Forall_forall. intros s Hs Hst.
  assert (Hin : s ∈ filter (fun s => status s = READY) (steps plan))
    by by apply list_elem_of_filter.
  rewrite Hf in Hin. by apply elem_of_nil in Hin.
Qed.

(** C6. When the handler of a READY step raises, [execute_step] returns
    [None] without raising; the step becomes FAILED with the exception
    text as its error; every other step, the plan's context and every
    other plan are untouched. And [execute_full_plan] goes on: when the
    step fails in the first wave of a call, after the steps [pre] of that
    wave, and the call returns, then (with pairwise distinct step ids)
    its results hold the entries of [pre], the entry [None] of the failed
    step, and at least one entry for each remaining step [rest] of the
    wave; every step of [rest] was executed and is COMPLETED or FAILED;
    the failed step still is FAILED with its error; and no step is left
    READY: the later waves ran too. *)
Theorem handler_failure_is_contained pl w pid sid plan i s w' e :
  plans pl !! pid = Some plan ->
  find_step sid (steps plan) = Some (i, s) ->
  status s = READY ->
  dispatch w (set_status EXECUTING s)
    (_get_execution_context
       (set_steps (<[i := set_status EXECUTING s]> (steps plan)) plan)
       (set_status EXECUTING s)) = (w', Raise e) ->
  let failed := set_error e (set_status FAILED s) in
  let plan' := set_steps (<[i := failed]> (steps plan)) plan in
  let pl' := store_plan pid plan' pl in
  execute_step pl w pid sid = (pl', w', VNone)
  /\ status failed = FAILED /\ error failed = Some e
  /\ output_data failed = output_data s
  /\ steps plan' !! i = Some failed
  /\ (forall j, j <> i -> steps plan' !! j = steps plan !! j)
  /\ context plan' = context plan
  /\ (forall pid', pid' <> pid -> plans pl' !! pid' = plans pl !! pid')
  /\ tools pl' = tools pl /\ plans_table pl' = plans_table pl
  /\ (forall step rest results, step_id step = sid ->
        run_wave pl w pid (step :: rest) results
        = run_wave pl' w' pid rest (results ++ [(description step, VNone)]))
  /\ (forall fuel pl0 step rest results,
        get_next_steps pl0 pid = (pl, step :: rest) -> step_id step = sid ->
        wave_loop (S fuel) pl0 w pid results
        = let '(pl2, w2, results2) :=
            run_wave pl' w' pid rest (results ++ [(description step, VNone)]) in
          wave_loop fuel pl2 w2 pid results2)
  /\ (forall fuel pl0 w0 pl1 pre step rest results_pre plf wf r,
        NoDup (step_id <$> steps plan) ->
        get_next_steps pl0 pid = (pl1, pre ++ step :: rest) ->
        run_wave pl1 w0 pid pre [] = (pl, w, results_pre) ->
        step_id step = sid ->
        execute_full_plan fuel pl0 w0 pid = Some (plf, wf, r) ->
        exists results more planf,
          r = FullResult pid (goal planf) results planf
          /\ results = results_pre ++ (description step, VNone) :: more
          /\ length rest <= length more
          /\ plans plf !! pid = Some planf
          /\ (exists sf, steps planf !! i = Some sf
                /\ status sf = FAILED /\ error sf = Some e
                /\ output_data sf = output_data s)
          /\ (forall x, x ∈ rest ->
                exists x', x' ∈ steps planf /\ step_id x' = step_id x
                           /\ (status x' = COMPLETED \/ status x' = FAILED))
          /\ Forall (fun x => status x <> READY) (steps planf)).
Proof.
  intros Hp Hf Hs Hd failed plan' pl'.
  assert (Hex : execute_step pl w pid sid = (pl', w', VNone)).
  { unfold execute_step. rewrite Hp, Hf. unfold status_is.
    rewrite bool_decide_eq_true_2 by done. simpl. rewrite Hd.
    by rewrite list_insert_insert_eq. }
  pose proof (find_step_Some _ _ _ _ Hf) as (Hi & Hid & _).
  assert (Hi' : steps plan' !! i = Some failed).
  { simpl. apply list_lookup_insert_eq. by eapply lookup_lt_Some. }
  split_and!; try done.
  - intros j Hj. simpl. by apply list_lookup_insert_ne.
  - intros pid' Hne. simpl. by apply lookup_insert_ne.
  - intros step rest results Hsid. cbn [run_wave]. by rewrite Hsid, Hex.
  - intros fuel pl0 step rest results Hn Hsid. cbn [wave_loop].
    rewrite Hn. cbn [run_wave]. by rewrite Hsid, Hex.
  - intros fuel pl0 w0 pl1 pre step rest results_pre plf wf r
      Hnd Hn Hpre Hsid Hfull.
    (* the plans along the way *)
    assert (Hp0 : exists plan0, plans pl0 !! pid = Some plan0).
    { unfold get_next_steps in Hn. destruct (plans pl0 !! pid); [eauto|].
      injection Hn as _ Hn. by destruct pre. }
    destruct Hp0 as (plan0 & Hp0).
    assert (Hp1 : exists plan1, plans pl1 !! pid = Some plan1
                  /\ forall x, x ∈ pre ++ step :: rest ->
                       x ∈ steps plan1 /\ status x = READY).
    { unfold get_next_steps in Hn. rewrite Hp0 in Hn. injection Hn as <- <-.
      eexists. split; [apply lookup_insert_eq|].
      intros x Hx. apply list_elem_of_filter in Hx. tauto. }
    destruct Hp1 as (plan1 & Hp1 & Hwave).
    pose proof (run_wave_related pl1 w0 pid pre [] pid plan1 Hp1)
      as (plan_ & Hp_ & HF1).
    rewrite Hpre in Hp_. simpl in Hp_. rewrite Hp in Hp_. injection Hp_ as <-.
    (* the loop after the failing step *)
    unfold execute_full_plan in Hfull. rewrite Hp0 in Hfull.
    destruct fuel as [|fuel]; [done|].
    rewrite (wave_loop_wave _ _ _ _ _ _ _ Hn) in Hfull by (by destruct pre).
    rewrite run_wave_app, Hpre in Hfull. cbn [run_wave] in Hfull.
    rewrite Hsid, Hex in Hfull.
    assert (Hp' : plans pl' !! pid = Some plan') by apply lookup_insert_eq.
    assert (HFp : Forall2 (rtc step_trans) (steps plan) (steps plan')).
    { pose proof (execute_step_related pl w pid sid pid plan Hp)
        as (q & Hq & HFq).
      rewrite Hex in Hq. simpl in Hq. rewrite lookup_insert_eq in Hq.
      by injection Hq as <-. }
    assert (Hnd' : NoDup (step_id <$> steps plan'))
      by (by rewrite (related_ids _ _ HFp)).
    destruct (run_wave_settles pid rest pl' w'
                (results_pre ++ [(description step, VNone)]) plan' Hp' Hnd')
      as (plan2 & Hp2 & HF2 & Hsettled).
    { intros x Hx.
      destruct (Hwave x) as (Hx1 & Hxr);
        [apply elem_of_app; right; by right|].
      apply list_elem_of_lookup in Hx1 as (k & Hk).
      destruct (Forall2_lookup_l _ _ _ _ _ HF1 Hk) as (xa & Hka & Hta).
      destruct (Forall2_lookup_l _ _ _ _ _ HFp Hka) as (xb & Hkb & Htb).
      destruct (live_related _ _ Hta (or_introl Hxr)) as (Hida & Hla).
      destruct (live_related _ _ Htb Hla) as (Hidb & Hlb).
      exists k, xb. split; [done|]. split; [congruence|done]. }
    destruct (run_wave_results pid rest pl' w'
                (results_pre ++ [(description step, VNone)]))
      as (more1 & Hres1 & Hlen1).
    destruct (run_wave pl' w' pid rest
                (results_pre ++ [(description step, VNone)]))
      as [[pl2 w2] results2] eqn:Hrw.
    simpl in Hp2, Hres1. subst results2.
    destruct (wave_loop fuel pl2 w2 pid _) as [[[pl3 w3] results3]|] eqn:Hl;
      [|done].
    injection Hfull as <- <- <-.
    destruct (wave_loop_results _ _ _ _ _ _ _ _ Hl) as (more2 & ->).
    pose proof (wave_loop_related _ _ _ _ _ _ _ _ Hl pid plan2 Hp2)
      as (planf & Hpf & HF3).
    pose proof (wave_loop_quiescent _ _ _ _ _ _ _ _ Hl) as Hq.
    exists (((results_pre ++ [(description step, VNone)]) ++ more1) ++ more2),
      (more1 ++ more2), planf.
    rewrite Hpf. simpl. split_and!.
    + done.
    + by rewrite <- !app_assoc.
    + rewrite length_app. lia.
    + done.
    + destruct (Forall2_lookup_l _ _ _ _ _ HF2 Hi') as (sa & Hsa & Hta).
      destruct (Forall2_lookup_l _ _ _ _ _ HF3 Hsa) as (sb & Hsb & Htb).
      apply frozen_step_stays in Hta as ->; [|done|done].
      apply frozen_step_stays in Htb as ->; [|done|done].
      exists failed. done.
    + intros x Hx. destruct (Hsettled x Hx) as (y' & Hy' & Hidy & Hty).
      apply list_elem_of_lookup in Hy' as (k & Hk).
      destruct (Forall2_lookup_l _ _ _ _ _ HF3 Hk) as (yf & Hkf & Htf).
      apply step_trans_terminal in Htf as ->; [|done].
      exists y'. split; [by eapply list_elem_of_lookup_2|]. split; [done|].
      unfold terminal, status_is in Hty.
      apply orb_true_iff in Hty as [Hc|Hc]; apply bool_decide_eq_true in Hc; auto.
    + by eapply quiescent_no_ready.
Qed.

End Containment.

Section RawFacts.

Context {World : Type} `{Collaborators World} `{Interpreter}.

Implicit Types (pl : Raw.Planner) (w : World) (p plan : Raw.Plan).
Implicit Types (s x : Raw.PlanStep) (l : list Raw.PlanStep).

Lemma raw_find_step_Some sid l i s :
  Raw.find_step sid l = Some (i, s) ->
  l !! i = Some s /\ py_eq (Raw.step_id s) sid = true.
Proof.
  unfold Raw.find_step. intros Hf. apply list_find_Some in Hf. tauto.
Qed.

Lemma raw_update_step_frozen tl c s :
  Raw.status s <> PENDING -> Raw.update_step tl c s = Ok s.
Proof.
  intros Hs. unfold Raw.update_step.
  by rewrite bool_decide_eq_false_2.
Qed.

Lemma raw_update_step_moves tl c s s' :
  Raw.update_step tl c s = Ok s' -> Raw.pass_moves s s'.
Proof.
  unfold Raw.update_step.
  destruct (decide (Raw.status s = PENDING)) as [Hs|Hs].
  - rewrite bool_decide_eq_true_2 by done. cbn [negb].
    destruct (if truthy (Raw.deferred_requirements s) then _ else _)
      as [[|]|e]; cbn [bind_outcome]; [| |done].
    + intros [= <-]. right. simpl. split_and!; auto.
    + destruct (py_iter (Raw.depends_on s)) as [deps|]; cbn [bind_outcome]; [|done].
      destruct (Raw.all_in c deps) as [[|]|]; cbn [bind_outcome]; [| |done].
      * intros [= <-]. right. simpl. split_and!; auto.
      * intros [= <-]. by left.
  - rewrite bool_decide_eq_false_2 by done. intros [= <-]. by left.
Qed.

Lemma raw_pass_loop_moves tl c l :
  Forall2 Raw.pass_moves l (Raw.pass_loop tl c l).1.
Proof.
  induction l as [|s l IH]; simpl; [constructor|].
  destruct (Raw.update_step tl c s) as [s'|e] eqn:Hu.
  - destruct (Raw.pass_loop tl c l) as [rest' e']. simpl in *.
    constructor; [by eapply raw_update_step_moves|done].
  - simpl. apply Forall_Forall2_diag, Forall_forall. intros x _. by left.
Qed.

(** The readiness pass, raising or not: every step is left alone or
    moved out of PENDING; nothing else of the plan changes. *)
Lemma raw_pass_moves tl p :
  Forall2 Raw.pass_moves (Raw.steps p) (Raw.steps (Raw._update_ready_status tl p).1)
  /\ Raw.context (Raw._update_ready_status tl p).1 = Raw.context p
  /\ Raw.goal (Raw._update_ready_status tl p).1 = Raw.goal p
  /\ Raw.plan_id (Raw._update_ready_status tl p).1 = Raw.plan_id p.
Proof.
  unfold Raw._update_ready_status.
  destruct (Raw.completed_ids (Raw.steps p)) as [c|e]; simpl.
  - pose proof (raw_pass_loop_moves tl c (Raw.steps p)) as HF.
    destruct (Raw.pass_loop tl c (Raw.steps p)) as [l' e']. simpl in *. done.
  - split; [|done]. apply Forall_Forall2_diag, Forall_forall. intros x _. by left.
Qed.

Lemma raw_pass_moves_frozen x x' :
  Raw.pass_moves x x' -> Raw.status x <> PENDING -> x' = x.
Proof. intros [->|[Hs _]]; [done|congruence]. Qed.

(** [execute_step] on a READY step whose context is built and whose
    handler returns: the planner stored, the world and the value
    returned, by what the readiness pass that follows does. *)
Lemma raw_execute_step_success pl w pid sid plan i s ctx w' r plan3 raised :
  Raw.plans pl !! pid = Some plan ->
  Raw.find_step sid (Raw.steps plan) = Some (i, s) ->
  Raw.status s = READY ->
  let step1 := Raw.set_status EXECUTING s in
  let plan1 := Raw.set_steps (<[i := step1]> (Raw.steps plan)) plan in
  Raw._get_execution_context plan1 step1 = Ok ctx ->
  Raw.dispatch w step1 ctx = (w', Ok r) ->
  let step2 := Raw.set_output_data r (Raw.set_status COMPLETED s) in
  let plan2 :=
    Raw.set_context (dict_set ("output_" ++ py_str sid) r (Raw.context plan))
      (Raw.set_steps (<[i := step2]> (Raw.steps plan)) plan) in
  Raw._update_ready_status (Raw.tools pl) plan2 = (plan3, raised) ->
  Raw.execute_step pl w pid sid
  = (Raw.store_plan pid
       (match raised with None => plan3 | Some m => Raw.fail_step i m plan3 end) pl,
     w', match raised with None => r | Some _ => VNone end)
  /\ Raw.steps plan3 !! i = Some step2
  /\ Raw.context plan3 = dict_set ("output_" ++ py_str sid) r (Raw.context plan)
  /\ Forall2 Raw.pass_moves (<[i := step2]> (Raw.steps plan)) (Raw.steps plan3).
Proof.
  intros Hp Hf Hs step1 plan1 Hctx Hd step2 plan2 Hpass.
  pose proof (raw_find_step_Some _ _ _ _ Hf) as (Hi & _).
  pose proof (raw_pass_moves (Raw.tools pl) plan2) as (HF & Hc & _).
  rewrite Hpass in HF, Hc. simpl in HF, Hc.
  assert (Hi3 : Raw.steps plan3 !! i = Some step2).
  { assert (Hi2 : (<[i := step2]> (Raw.steps plan)) !! i = Some step2).
    { apply list_lookup_insert_eq. by eapply lookup_lt_Some. }
    destruct (Forall2_lookup_l _ _ _ _ _ HF Hi2) as (y & Hy & Hm).
    apply raw_pass_moves_frozen in Hm as ->; [done|]. simpl. done. }
  split; [|done].
  unfold Raw.execute_step. rewrite Hp, Hf.
  rewrite bool_decide_eq_true_2 by done. cbn [negb]. cbv zeta.
  fold step1. fold plan1. rewrite Hctx, Hd.
  assert (Heq :
    Raw.set_context
      (dict_set ("output_" ++ py_str sid) r (Raw.context plan1))
      (Raw.set_steps
         (<[i := Raw.set_output_data r (Raw.set_status COMPLETED step1)]>
            (Raw.steps plan1)) plan1) = plan2).
  { unfold plan2, plan1, Raw.set_context, Raw.set_steps. simpl.
    by rewrite list_insert_insert_eq. }
  rewrite Heq, Hpass. by destruct raised.
Qed.

Lemma raw_fail_step_lookup i m p s :
  Raw.steps p !! i = Some s ->
  Raw.steps (Raw.fail_step i m p) !! i = Some (Raw.set_error m (Raw.set_status FAILED s))
  /\ (forall j, j <> i -> Raw.steps (Raw.fail_step i m p) !! j = Raw.steps p !! j)
  /\ Raw.context (Raw.fail_step i m p) = Raw.context p
  /\ length (Raw.steps (Raw.fail_step i m p)) = length (Raw.steps p).
Proof.
  intros Hi. unfold Raw.fail_step. rewrite Hi. simpl. split_and!.
  - apply list_lookup_insert_eq. by eapply lookup_lt_Some.
  - intros j Hj. by apply list_lookup_insert_ne.
  - done.
  - by rewrite length_insert.
Qed.

(** X9. A handler that returns, whatever the rest of the plan looks
    like: its result is written to the step's output and to the plan's
    context under [output_<step id>]. If the readiness pass that follows
    returns, the step is COMPLETED and [execute_step] returns the result;
    if the pass raises, the step ends FAILED with the text of that
    exception, keeping its output, and [execute_step] returns [None].
    Either way every other step is untouched or moved out of PENDING by
    the pass, and the other context entries, the other plans, the
    registry and the database table are unchanged. *)
Theorem execute_step_records_result pl w pid sid plan i s ctx w' r plan3 raised :
  Raw.plans pl !! pid = Some plan ->
  Raw.find_step sid (Raw.steps plan) = Some (i, s) ->
  Raw.status s = READY ->
  let step1 := Raw.set_status EXECUTING s in
  let plan1 := Raw.set_steps (<[i := step1]> (Raw.steps plan)) plan in
  Raw._get_execution_context plan1 step1 = Ok ctx ->
  Raw.dispatch w step1 ctx = (w', Ok r) ->
  let key := ("output_" ++ py_str sid)%string in
  let plan2 :=
    Raw.set_context (dict_set key r (Raw.context plan))
      (Raw.set_steps
         (<[i := Raw.set_output_data r (Raw.set_status COMPLETED s)]> (Raw.steps plan))
         plan) in
  Raw._update_ready_status (Raw.tools pl) plan2 = (plan3, raised) ->
  exists pl' plan' s',
    Raw.execute_step pl w pid sid
    = (pl', w', match raised with None => r | Some _ => VNone end)
    /\ Raw.plans pl' !! pid = Some plan'
    /\ Raw.steps plan' !! i = Some s'
    /\ Raw.output_data s' = r
    /\ match raised with
       | None => Raw.status s' = COMPLETED /\ Raw.error s' = Raw.error s
       | Some m => Raw.status s' = FAILED /\ Raw.error s' = Some m
       end
    /\ Raw.step_id s' = Raw.step_id s /\ Raw.depends_on s' = Raw.depends_on s
    /\ Raw.tool s' = Raw.tool s /\ Raw.tool_input s' = Raw.tool_input s
    /\ dict_get key (Raw.context plan') = Some r
    /\ (forall k, k <> key ->
          dict_get k (Raw.context plan') = dict_get k (Raw.context plan))
    /\ (forall j x, j <> i -> Raw.steps plan !! j = Some x ->
          exists x', Raw.steps plan' !! j = Some x' /\ Raw.pass_moves x x')
    /\ length (Raw.steps plan') = length (Raw.steps plan)
    /\ (forall k, k <> pid -> Raw.plans pl' !! k = Raw.plans pl !! k)
    /\ Raw.tools pl' = Raw.tools pl /\ Raw.plans_table pl' = Raw.plans_table pl.
Proof.
  intros Hp Hf Hs step1 plan1 Hctx Hd key plan2 Hpass.
  destruct (raw_execute_step_success _ _ _ _ _ _ _ _ _ _ _ _ Hp Hf Hs Hctx Hd Hpass)
    as (Hex & Hi3 & Hc3 & HF).
  pose proof (raw_fail_step_lookup i) as Hfail.
  assert (Hlen : length (Raw.steps plan3) = length (Raw.steps plan)).
  { apply Forall2_length in HF. by rewrite length_insert in HF. }
  assert (Hother : forall j x, j <> i -> Raw.steps plan !! j = Some x ->
            exists x', Raw.steps plan3 !! j = Some x' /\ Raw.pass_moves x x').
  { intros j x Hj Hx.
    assert (Hx2 : (<[i := Raw.set_output_data r (Raw.set_status COMPLETED s)]>
                     (Raw.steps plan)) !! j = Some x)
      by (by rewrite list_lookup_insert_ne).
    destruct (Forall2_lookup_l _ _ _ _ _ HF Hx2) as (x' & ? & ?). eauto. }
  destruct raised as [m|].
  - destruct (Hfail m plan3 _ Hi3) as (H1 & H2 & H3 & H4).
    eexists _, _, _. split; [exact Hex|].
    split; [apply lookup_insert_eq|].
    split; [exact H1|]. simpl. split_and!; try done.
    + rewrite H3, Hc3. apply dict_get_set_eq.
    + intros k Hk. rewrite H3, Hc3. by apply dict_get_set_ne.
    + intros j x Hj Hx. rewrite H2 by done. by apply Hother.
    + by rewrite H4.
    + intros k Hk. by rewrite lookup_insert_ne.
  - eexists _, _, _. split; [exact Hex|].
    split; [apply lookup_insert_eq|].
    split; [exact Hi3|]. simpl. split_and!; try done.
    + rewrite Hc3. apply dict_get_set_eq.
    + intros k Hk. rewrite Hc3. by apply dict_get_set_ne.
    + intros k Hk. by rewrite lookup_insert_ne.
Qed.


(** X7. A READY step bound to a capability that is neither [None] nor
    one of the four built-in names is not an error: the handler chain
    falls through to the text [Tool '<name>' not implemented yet] and
    calls no collaborator; when the context of the step is built and the
    readiness pass that follows returns, [execute_step] returns that
    text and the step is COMPLETED with it as its output. *)
Theorem unknown_tool_completes_with_placeholder pl w pid sid plan i s ctx plan3 :
  Raw.plans pl !! pid = Some plan ->
  Raw.find_step sid (Raw.steps plan) = Some (i, s) ->
  Raw.status s = READY ->
  Raw.tool s <> VNone ->
  (forall t, Raw.tool s = VStr t -> t ∉ builtin_names) ->
  let step1 := Raw.set_status EXECUTING s in
  let plan1 := Raw.set_steps (<[i := step1]> (Raw.steps plan)) plan in
  Raw._get_execution_context plan1 step1 = Ok ctx ->
  let text := VStr ("Tool '" ++ py_str (Raw.tool s) ++ "' not implemented yet") in
  let key := ("output_" ++ py_str sid)%string in
  let plan2 :=
    Raw.set_context (dict_set key text (Raw.context plan))
      (Raw.set_steps
         (<[i := Raw.set_output_data text (Raw.set_status COMPLETED s)]>
            (Raw.steps plan))
         plan) in
  Raw._update_ready_status (Raw.tools pl) plan2 = (plan3, None) ->
  exists pl' plan' s',
    Raw.execute_step pl w pid sid = (pl', w, text)
    /\ Raw.plans pl' !! pid = Some plan'
    /\ Raw.steps plan' !! i = Some s'
    /\ Raw.status s' = COMPLETED
    /\ Raw.output_data s' = text
    /\ Raw.error s' = Raw.error s
    /\ dict_get key (Raw.context plan') = Some text.
Proof.
  intros Hp Hf Hs Hnone Hnb step1 plan1 Hctx text key plan2 Hpass.
  assert (Hd : Raw.dispatch w step1 ctx = (w, Ok text)).
  { unfold Raw.dispatch, text. cbn [Raw.tool step1 Raw.set_status].
    destruct (Raw.tool s) as [| | | |t| |] eqn:Ht; try done.
    specialize (Hnb t eq_refl).
    assert (Hne : forall n, n ∈ builtin_names -> String.eqb t n = false).
    { intros n Hn. apply String.eqb_neq. intros ->. done. }
    rewrite !Hne; [done| | | |]; apply list_elem_of_In; simpl; auto. }
  destruct (raw_execute_step_success _ _ _ _ _ _ _ _ _ _ _ _ Hp Hf Hs Hctx Hd Hpass)
    as (Hex & Hi3 & Hc3 & _).
  eexists _, _, _. split; [exact Hex|].
  split; [apply lookup_insert_eq|]. split; [exact Hi3|]. simpl.
  split_and!; try done. rewrite Hc3. apply dict_get_set_eq.
Qed.

Lemma raw_save_fact_outcome w s d :
  Raw.tool_input s = VDict d ->
  let topic := default (VStr EmptyString) (dict_get "topic_name" d) in
  let fact_type := default (VStr "WHAT") (dict_get "fact_type" d) in
  let fact := default (VStr EmptyString) (dict_get "fact" d) in
  Raw._execute_save_fact w s
  = ((save_topic_fact w topic fact_type fact).1,
     Ok match (save_topic_fact w topic fact_type fact).2 with
        | Ok _ => VDict [("success", VBool true)]
        | Raise e => VDict [("success", VBool false); ("error", VStr e)]
        end).
Proof.
  intros Hin topic fact_type fact.
  unfold Raw._execute_save_fact, value_get. rewrite Hin.
  subst topic fact_type fact. cbn.
  by destruct (save_topic_fact w _ _ _) as [w1 [[]|e]].
Qed.

(** C9. A READY step bound to [memory_save_fact] whose [tool_input] is a
    dict is never FAILED by the memory service. Whatever the save does,
    the handler returns a payload: [{"success": True}] when the save
    returned, [{"success": False, "error": text}] when it raised. When
    the context of the step is built and the readiness pass that follows
    returns, [execute_step] returns the payload and the step has status
    COMPLETED, the payload as its output and no new error; the payload is
    also in the plan's context under [output_<step id>]. *)
Theorem save_fact_error_completes_step pl w pid sid plan i s d ctx plan3 :
  Raw.plans pl !! pid = Some plan ->
  Raw.find_step sid (Raw.steps plan) = Some (i, s) ->
  Raw.status s = READY ->
  Raw.tool s = VStr "memory_save_fact" ->
  Raw.tool_input s = VDict d ->
  let step1 := Raw.set_status EXECUTING s in
  let plan1 := Raw.set_steps (<[i := step1]> (Raw.steps plan)) plan in
  Raw._get_execution_context plan1 step1 = Ok ctx ->
  let topic := default (VStr EmptyString) (dict_get "topic_name" d) in
  let fact_type := default (VStr "WHAT") (dict_get "fact_type" d) in
  let fact := default (VStr EmptyString) (dict_get "fact" d) in
  let payload :=
    match (save_topic_fact w topic fact_type fact).2 with
    | Ok _ => VDict [("success", VBool true)]
    | Raise e => VDict [("success", VBool false); ("error", VStr e)]
    end in
  let key := ("output_" ++ py_str sid)%string in
  let plan2 :=
    Raw.set_context (dict_set key payload (Raw.context plan))
      (Raw.set_steps
         (<[i := Raw.set_output_data payload (Raw.set_status COMPLETED s)]>
            (Raw.steps plan))
         plan) in
  Raw._update_ready_status (Raw.tools pl) plan2 = (plan3, None) ->
  exists pl' plan' s',
    Raw.execute_step pl w pid sid
    = (pl', (save_topic_fact w topic fact_type fact).1, payload)
    /\ Raw.plans pl' !! pid = Some plan'
    /\ Raw.steps plan' !! i = Some s'
    /\ Raw.status s' = COMPLETED
    /\ Raw.output_data s' = payload
    /\ Raw.error s' = Raw.error s
    /\ dict_get key (Raw.context plan') = Some payload.
Proof.
  intros Hp Hf Hs Ht Hin step1 plan1 Hctx topic fact_type fact payload key plan2
    Hpass.
  assert (Hd : Raw.dispatch w step1 ctx
               = ((save_topic_fact w topic fact_type fact).1, Ok payload)).
  { unfold Raw.dispatch. cbn [Raw.tool step1 Raw.set_status]. rewrite Ht.
    cbn [String.eqb Ascii.eqb Bool.eqb]. cbn match.
    by apply raw_save_fact_outcome. }
  destruct (raw_execute_step_success _ _ _ _ _ _ _ _ _ _ _ _ Hp Hf Hs Hctx Hd Hpass)
    as (Hex & Hi3 & Hc3 & _).
  eexists _, _, _. split; [exact Hex|].
  split; [apply lookup_insert_eq|]. split; [exact Hi3|]. simpl.
  split_and!; try done. rewrite Hc3. apply dict_get_set_eq.
Qed.

Lemma raw_parse_steps_app acc (vs : list value) res :
  Raw.parse_steps acc vs = inr res ->
  exists new,
    res = acc ++ new /\ length new = length vs
    /\ forall k v, vs !! k = Some v ->
         exists st, new !! k = Some st
                    /\ Raw.parse_step (length acc + k) v = inr st.
Proof.
  revert acc. induction vs as [|v vs IH]; intros acc; simpl.
  - intros [= <-]. exists []. rewrite app_nil_r. split_and!; try done.
  - destruct (Raw.parse_step (length acc) v) as [|st] eqn:Hst; [done|]. simpl.
    intros Hres. destruct (IH _ Hres) as (new & -> & Hlen & Hk).
    exists (st :: new). split_and!.
    + by rewrite <- app_assoc.
    + simpl. lia.
    + intros [|k] x Hx; simpl in *.
      * simplify_eq. exists st. split; [done|]. by rewrite Nat.add_0_r.
      * destruct (Hk k x Hx) as (st' & Hn & Hp). exists st'. split; [done|].
        rewrite length_app in Hp. simpl in Hp.
        by replace (length acc + S k) with (length acc + 1 + k) by lia.
Qed.

Lemma raw_parse_steps_total acc (vs : list value) :
  (forall v, v ∈ vs -> exists d, v = VDict d) ->
  exists res, Raw.parse_steps acc vs = inr res.
Proof.
  revert acc. induction vs as [|v vs IH]; intros acc Hd; simpl; [eauto|].
  destruct (Hd v) as (d & ->); [by left|]. simpl.
  apply IH. intros x Hx. apply Hd. by right.
Qed.

Lemma raw_parse_steps_error acc (vs : list value) e :
  Raw.parse_steps acc vs = inl e ->
  e = StepNotAnObject /\ exists v, v ∈ vs /\ forall d, v <> VDict d.
Proof.
  revert acc. induction vs as [|v vs IH]; intros acc; simpl; [done|].
  destruct v as [| | | | | |d]; simpl;
    try (intros [= <-]; split; [done|]; eexists; split; [by left|done]).
  intros He. destruct (IH _ He) as (-> & x & Hx & Hnd).
  split; [done|]. exists x. split; [by right|done].
Qed.

(** X20. How [create_plan] turns the steps of a reply into steps,
    whatever the reply holds: the loop succeeds exactly when every
    element of the list is a JSON object (else it raises the
    AttributeError of a value without [get]); it makes one step per
    element, in order; every step starts PENDING with no output and no
    error; each field is the value the element gives for it, unchecked,
    or its default: [step_<position>] counted from 1 for [id], [None] for
    [tool], the empty string for [description] and [expected_output], the
    empty list for [depends_on] and [deferred_requirements], the empty
    dict for [tool_input]. *)
Theorem parse_steps_normalizes (vs : list value) :
  ((forall v, v ∈ vs -> exists d, v = VDict d)
   <-> exists steps_, Raw.parse_steps [] vs = inr steps_)
  /\ (forall e, Raw.parse_steps [] vs = inl e -> e = StepNotAnObject)
  /\ forall steps_, Raw.parse_steps [] vs = inr steps_ ->
       length steps_ = length vs
       /\ forall k v, vs !! k = Some v ->
            exists d st,
              v = VDict d /\ steps_ !! k = Some st
              /\ Raw.status st = PENDING /\ Raw.output_data st = VNone
              /\ Raw.error st = None
              /\ Raw.step_id st
                 = default (VStr ("step_" ++ pretty (S k))) (dict_get "id" d)
              /\ Raw.description st
                 = default (VStr EmptyString) (dict_get "description" d)
              /\ Raw.tool st = default VNone (dict_get "tool" d)
              /\ Raw.tool_input st = default (VDict []) (dict_get "tool_input" d)
              /\ Raw.expected_output st
                 = default (VStr EmptyString) (dict_get "expected_output" d)
              /\ Raw.depends_on st = default (VList []) (dict_get "depends_on" d)
              /\ Raw.deferred_requirements st
                 = default (VList []) (dict_get "deferred_requirements" d).
Proof.
  split_and!.
  - split; [apply raw_parse_steps_total|].
    intros (steps_ & Hres) v Hv.
    destruct (raw_parse_steps_app _ _ _ Hres) as (new & _ & _ & Hk).
    apply list_elem_of_lookup in Hv as (k & Hv).
    destruct (Hk k v Hv) as (st & _ & Hst).
    destruct v; try done. eauto.
  - intros e He. by apply raw_parse_steps_error in He as [-> _].
  - intros steps_ Hres.
    destruct (raw_parse_steps_app _ _ _ Hres) as (new & -> & Hlen & Hk).
    split; [done|]. intros k v Hv.
    destruct (Hk k v Hv) as (st & Hst & Hp). simpl in Hp.
    destruct v as [| | | | | |d]; try done. injection Hp as <-.
    exists d. eexists. split; [done|]. split; [exact Hst|]. simpl. done.
Qed.

End RawFacts.

Section RawComposition.

Context {World : Type} `{Collaborators World} `{Interpreter}.

Implicit Types (pl : Raw.Planner) (w : World) (p plan : Raw.Plan).

Lemma raw_store_frame pid p p' pl k :
  Raw.plans pl !! pid = Some p -> Raw.label p' = Raw.label p ->
  Raw.label <$> Raw.plans (Raw.store_plan pid p' pl) !! k
  = Raw.label <$> Raw.plans pl !! k.
Proof.
  intros Hp Hl. simpl. destruct (decide (k = pid)) as [->|Hne].
  - rewrite lookup_insert_eq, Hp. simpl. by rewrite Hl.
  - by rewrite lookup_insert_ne.
Qed.

Lemma raw_fail_step_label i e p : Raw.label (Raw.fail_step i e p) = Raw.label p.
Proof. unfold Raw.fail_step. by destruct (Raw.steps p !! i). Qed.

Lemma raw_pass_label tl p :
  Raw.label (Raw._update_ready_status tl p).1 = Raw.label p.
Proof.
  destruct (raw_pass_moves tl p) as (_ & _ & Hg & Hi).
  unfold Raw.label. by rewrite Hg, Hi.
Qed.

Lemma raw_execute_step_frame pl w pid sid k :
  Raw.tools (Raw.execute_step pl w pid sid).1.1 = Raw.tools pl
  /\ Raw.plans_table (Raw.execute_step pl w pid sid).1.1 = Raw.plans_table pl
  /\ Raw.label <$> Raw.plans (Raw.execute_step pl w pid sid).1.1 !! k
     = Raw.label <$> Raw.plans pl !! k.
Proof.
  unfold Raw.execute_step.
  destruct (Raw.plans pl !! pid) as [plan|] eqn:Hp; [|done].
  destruct (Raw.find_step sid (Raw.steps plan)) as [[i s]|]; [|done].
  destruct (negb _); [done|]. cbv zeta.
  destruct (Raw._get_execution_context _ _) as [ctx|e].
  - destruct (Raw.dispatch _ _ _) as [w' [r|e]].
    + match goal with
      | |- context [Raw._update_ready_status ?tl ?q] =>
          pose proof (raw_pass_label tl q) as Hl;
          destruct (Raw._update_ready_status tl q) as [plan3 [m|]]
      end; simpl in Hl; cbn [fst snd];
        (split; [done|]; split; [done|]);
        apply (raw_store_frame _ plan); try done.
      by rewrite raw_fail_step_label.
    + cbn [fst snd]. split; [done|]. split; [done|].
      apply (raw_store_frame _ plan); [done|]. by rewrite raw_fail_step_label.
  - cbn [fst snd]. split; [done|]. split; [done|].
    apply (raw_store_frame _ plan); [done|]. by rewrite raw_fail_step_label.
Qed.

Lemma raw_get_next_steps_frame pl pid k :
  Raw.tools (Raw.get_next_steps pl pid).1 = Raw.tools pl
  /\ Raw.plans_table (Raw.get_next_steps pl pid).1 = Raw.plans_table pl
  /\ Raw.label <$> Raw.plans (Raw.get_next_steps pl pid).1 !! k
     = Raw.label <$> Raw.plans pl !! k.
Proof.
  unfold Raw.get_next_steps.
  destruct (Raw.plans pl !! pid) as [plan|] eqn:Hp; [|done].
  pose proof (raw_pass_label (Raw.tools pl) plan) as Hl.
  destruct (Raw._update_ready_status (Raw.tools pl) plan) as [plan' e].
  cbn [fst snd]. split; [done|]. split; [done|].
  by apply (raw_store_frame _ plan).
Qed.

Lemma raw_run_wave_frame pid wave k : forall pl w results,
  Raw.tools (Raw.run_wave pl w pid wave results).1.1 = Raw.tools pl
  /\ Raw.plans_table (Raw.run_wave pl w pid wave results).1.1 = Raw.plans_table pl
  /\ Raw.label <$> Raw.plans (Raw.run_wave pl w pid wave results).1.1 !! k
     = Raw.label <$> Raw.plans pl !! k.
Proof.
  induction wave as [|x wave IH]; intros pl w results; [done|].
  cbn [Raw.run_wave].
  pose proof (raw_execute_step_frame pl w pid (Raw.step_id x) k) as (H1 & H2 & H3).
  destruct (Raw.execute_step pl w pid (Raw.step_id x)) as [[pl1 w1] r1].
  cbn [fst snd] in *.
  destruct (IH pl1 w1 (results ++ [(Raw.description x, r1)])) as (H4 & H5 & H6).
  split; [congruence|]. split; congruence.
Qed.

Lemma raw_wave_loop_frame fuel k : forall pl w pid results pl' w' r,
  Raw.wave_loop fuel pl w pid results = Some (pl', w', r) ->
  Raw.tools pl' = Raw.tools pl
  /\ Raw.plans_table pl' = Raw.plans_table pl
  /\ Raw.label <$> Raw.plans pl' !! k = Raw.label <$> Raw.plans pl !! k.
Proof.
  induction fuel as [|fuel IH]; intros pl w pid results pl' w' r; [done|].
  cbn [Raw.wave_loop].
  pose proof (raw_get_next_steps_frame pl pid k) as (H1 & H2 & H3).
  destruct (Raw.get_next_steps pl pid) as [pl1 [[|x wave]|m]]; cbn [fst snd] in *.
  - by intros [= <- <- <-].
  - pose proof (raw_run_wave_frame pid (x :: wave) k pl1 w results) as (H4 & H5 & H6).
    destruct (Raw.run_wave pl1 w pid (x :: wave) results) as [[pl2 w2] r2].
    cbn [fst snd] in *. intros Hl.
    destruct (IH _ _ _ _ _ _ _ Hl) as (H7 & H8 & H9).
    split; [congruence|]. split; congruence.
  - by intros [= <- <- <-].
Qed.

Lemma raw_create_plan_success pl w g c pl' w' plan :
  Raw.create_plan pl w g c = (pl', w', inr plan) ->
  Raw.goal plan = g
  /\ pl' = {| Raw.tools := Raw.tools pl;
              Raw.plans := <[Raw.plan_id plan := plan]> (Raw.plans pl);
              Raw.plans_table := Raw.plans_table pl ++ [plan] |}.
Proof.
  unfold Raw.create_plan.
  destruct (ollama_plan w g c (Raw.tools pl)) as [w1 [content|e]]; [|done].
  destruct (String.eqb _ _); [done|].
  destruct (json_loads _) as [[| | | | | |data]|]; try done.
  destruct (dict_get "complexity" data) as [cv|]; [|done].
  destruct (dict_get "steps" data) as [sv|]; [|done].
  destruct (bind_sum _ _) as [e|steps_]; [done|].
  destruct (uuid4_hex8 w1) as [w2 hex].
  destruct (complexity_of_value cv) as [cx|]; [|done].
  destruct (datetime_now w2) as [w3 now].
  match goal with
  | |- context [Raw._update_ready_status ?tl ?q] =>
      pose proof (raw_pass_label tl q) as Hl;
      destruct (Raw._update_ready_status tl q) as [plan0 [m|]]
  end; [done|].
  unfold Raw._save_plan_to_db.
  destruct (existsb _ _); [done|].
  intros [= <- <- <-]. simpl in Hl. injection Hl as _ Hg. done.
Qed.

(** X23. Creating a plan and executing it, as the planner dialog and the
    test script do, whatever the reply holds: after a successful
    [create_plan] the plan is registered and is the last row of the plans
    table; [execute_full_plan] on its id never answers "Plan not found":
    when the call ends, it has raised (a readiness pass or [to_readable]
    raised) or it returns the plan's id, its goal and the plan as
    registered; either way the plans table is as [create_plan] left it
    and the plan is still registered with its id and goal. *)
Theorem create_then_execute pl w g c pl1 w1 plan :
  Raw.create_plan pl w g c = (pl1, w1, inr plan) ->
  Raw.plans pl1 !! Raw.plan_id plan = Some plan
  /\ Raw.plans_table pl1 = Raw.plans_table pl ++ [plan]
  /\ Raw.goal plan = g
  /\ forall fuel pl2 w2 r,
       Raw.execute_full_plan fuel pl1 w1 (Raw.plan_id plan) = Some (pl2, w2, r) ->
       Raw.plans_table pl2 = Raw.plans_table pl ++ [plan]
       /\ (exists plan', Raw.plans pl2 !! Raw.plan_id plan = Some plan'
                         /\ Raw.plan_id plan' = Raw.plan_id plan
                         /\ Raw.goal plan' = g)
       /\ r <> Ok Raw.PlanNotFound
       /\ forall res, r = Ok res ->
            exists results plan',
              res = Raw.FullResult (Raw.plan_id plan) g results plan'
              /\ Raw.plans pl2 !! Raw.plan_id plan = Some plan'.
Proof.
  intros Hc. destruct (raw_create_plan_success _ _ _ _ _ _ _ Hc) as (Hg & ->).
  cbn [Raw.plans Raw.plans_table].
  split; [apply lookup_insert_eq|]. split; [done|]. split; [done|].
  intros fuel pl2 w2 r Hfull.
  set (pl1 := {| Raw.tools := Raw.tools pl;
                 Raw.plans := <[Raw.plan_id plan:=plan]> (Raw.plans pl);
                 Raw.plans_table := Raw.plans_table pl ++ [plan] |}) in *.
  assert (Hp : Raw.plans pl1 !! Raw.plan_id plan = Some plan)
    by apply lookup_insert_eq.
  unfold Raw.execute_full_plan in Hfull. rewrite Hp in Hfull.
  destruct (Raw.wave_loop fuel pl1 w1 (Raw.plan_id plan) [])
    as [[[pl3 w3] o]|] eqn:Hl; [|done].
  destruct (raw_wave_loop_frame _ (Raw.plan_id plan) _ _ _ _ _ _ _ Hl)
    as (_ & Htab & Hlab).
  rewrite Hp in Hlab.
  destruct (Raw.plans pl3 !! Raw.plan_id plan) as [plan'|] eqn:Hp'; [|done].
  simpl in Hlab. injection Hlab as Hid Hgoal.
  assert (pl2 = pl3) as ->.
  { destruct o; by injection Hfull as <- _ _. }
  split; [done|]. split; [exists plan'; split_and!; congruence|].
  destruct o as [results|m]; injection Hfull as _ <-; simpl.
  - unfold Raw.to_readable.
    destruct (list_find _ _) as [[j s]|]; simpl; [done|].
    split; [done|]. intros res [= <-].
    exists results, plan'. split; [|done]. f_equal. congruence.
  - done.
Qed.

End RawComposition.

Section Refinement.

Context {World : Type} `{Collaborators World} `{Interpreter}.

Implicit Types (pl : Planner) (w : World) (p plan : Plan).
Implicit Types (s x : PlanStep) (l : list PlanStep).

Lemma completed_embed l :
  Raw.completed_ids (embed_step <$> l)
  = Ok (VStr <$> (step_id <$> filter (fun s => status s = COMPLETED) l)).
Proof.
  induction l as [|a l IH]; [done|].
  rewrite fmap_cons, filter_cons. cbn [Raw.completed_ids].
  cbn [Raw.status embed_step].
  destruct (decide (status a = COMPLETED)) as [Hs|Hs].
  - rewrite bool_decide_eq_true_2 by done. cbn [Raw.step_id hashable].
    by rewrite IH.
  - by rewrite bool_decide_eq_false_2 by done.
Qed.

Lemma py_in_embed d (ids : list string) :
  Raw.py_in (VStr d) (VStr <$> ids) = Ok (bool_decide (d ∈ ids)).
Proof.
  unfold Raw.py_in. cbn [hashable]. f_equal.
  induction ids as [|a ids IH]; [done|].
  rewrite fmap_cons. cbn [existsb py_eq]. rewrite IH.
  destruct (String.eqb_spec a d) as [->|Hne]; simpl.
  - symmetry. apply bool_decide_eq_true_2. by left.
  - apply bool_decide_ext. rewrite elem_of_cons. split; [by right|].
    by intros [->|?].
Qed.

Lemma all_in_embed (ids deps : list string) :
  Raw.all_in (VStr <$> ids) (VStr <$> deps)
  = Ok (forallb (fun dep => bool_decide (dep ∈ (list_to_set ids : gset string))) deps).
Proof.
  induction deps as [|d deps IH]; [done|].
  rewrite fmap_cons. cbn [Raw.all_in forallb]. rewrite py_in_embed.
  cbn [bind_outcome].
  rewrite (bool_decide_ext (d ∈ ids) (d ∈ (list_to_set ids : gset string)))
    by (by rewrite elem_of_list_to_set).
  destruct (bool_decide _); [exact IH|done].
Qed.

Lemma dict_get_embed k (r : requirement) :
  dict_get k (map (fun kv => (fst kv, VStr (snd kv))) r) = VStr <$> dict_get k r.
Proof.
  induction r as [|[k' v] r IH]; [done|]. simpl.
  by destruct (String.eqb k k').
Qed.

Lemma unmet_requirement_embed tl (r : requirement) :
  Raw.unmet_requirement tl (embed_requirement r) = Ok (unmet_requirement tl r).
Proof.
  unfold Raw.unmet_requirement, unmet_requirement, embed_requirement, value_get.
  rewrite !dict_get_embed. cbn [bind_outcome].
  destruct (dict_get "type" r) as [t|]; simpl.
  - destruct (String.eqb_spec t "tool") as [->|Hne].
    + rewrite bool_decide_eq_true_2 by done.
      by destruct (dict_get "name" r).
    + rewrite bool_decide_eq_false_2 by congruence. done.
  - done.
Qed.

Lemma unmet_of_embed tl (rs : list requirement) :
  Raw.unmet_of tl (embed_requirement <$> rs)
  = Ok (embed_requirement <$> List.filter (unmet_requirement tl) rs).
Proof.
  induction rs as [|r rs IH]; [done|].
  rewrite fmap_cons. cbn [Raw.unmet_of List.filter].
  rewrite unmet_requirement_embed, IH. cbn [bind_outcome].
  by destruct (unmet_requirement tl r).
Qed.

Lemma update_step_embed tl (ids : list string) s :
  Raw.update_step tl (VStr <$> ids) (embed_step s)
  = Ok (embed_step (update_step tl (list_to_set ids) s)).
Proof.
  unfold Raw.update_step, update_step. cbn [Raw.status embed_step].
  destruct (bool_decide (status s = PENDING)); [|done]. cbn [negb].
  cbn [Raw.deferred_requirements Raw.depends_on].
  unfold unmet.
  assert (Hflag :
    (if truthy (VList (embed_requirement <$> deferred_requirements s))
     then
       letO rs := py_iter (VList (embed_requirement <$> deferred_requirements s)) in
       letO u := Raw.unmet_of tl rs in
       Ok (match u with [] => false | _ :: _ => true end)
     else Ok false)
    = Ok (match List.filter (unmet_requirement tl) (deferred_requirements s) with
          | [] => false | _ :: _ => true end)).
  { destruct (deferred_requirements s) as [|r rs]; [done|].
    cbn [truthy fmap list_fmap py_iter bind_outcome].
    rewrite <- fmap_cons, unmet_of_embed. cbn [bind_outcome].
    by destruct (List.filter _ _). }
  change (Raw.deferred_requirements (embed_step s))
    with (VList (embed_requirement <$> deferred_requirements s)).
  change (Raw.depends_on (embed_step s)) with (VList (VStr <$> depends_on s)).
  rewrite Hflag. cbn [bind_outcome].
  destruct (List.filter _ _); [|done].
  cbn [py_iter bind_outcome]. rewrite all_in_embed. cbn [bind_outcome].
  by destruct (forallb _ _).
Qed.

Lemma pass_loop_embed tl (ids : list string) l :
  Raw.pass_loop tl (VStr <$> ids) (embed_step <$> l)
  = (embed_step <$> (update_step tl (list_to_set ids) <$> l), None).
Proof.
  induction l as [|a l IH]; [done|].
  rewrite !fmap_cons. cbn [Raw.pass_loop].
  by rewrite update_step_embed, IH.
Qed.

(** On a plan whose fields have their annotated types the readiness
    pass does not raise, and does what the typed pass does. *)
Lemma update_ready_status_embed tl p :
  Raw._update_ready_status tl (embed_plan p)
  = (embed_plan (_update_ready_status tl p), None).
Proof.
  unfold Raw._update_ready_status, _update_ready_status.
  cbn [Raw.steps embed_plan]. rewrite completed_embed.
  unfold completed_ids. by rewrite pass_loop_embed.
Qed.

Lemma embed_store pid p pl :
  embed (store_plan pid p pl) = Raw.store_plan pid (embed_plan p) (embed pl).
Proof.
  unfold embed, store_plan, Raw.store_plan, set_plans, Raw.set_plans. simpl.
  by rewrite fmap_insert.
Qed.

Lemma embed_lookup pl pid :
  Raw.plans (embed pl) !! pid = embed_plan <$> plans pl !! pid.
Proof. unfold embed. simpl. apply lookup_fmap. Qed.

Lemma filter_embed st l :
  filter (fun y : Raw.PlanStep => Raw.status y = st) (embed_step <$> l)
  = embed_step <$> filter (fun s => status s = st) l.
Proof.
  induction l as [|a l IH]; [done|].
  rewrite fmap_cons, !filter_cons. cbn [Raw.status embed_step].
  destruct (decide (status a = st)); by rewrite IH.
Qed.

Lemma get_next_steps_embed pl pid :
  Raw.get_next_steps (embed pl) pid
  = (embed (get_next_steps pl pid).1, Ok (embed_step <$> (get_next_steps pl pid).2)).
Proof.
  unfold Raw.get_next_steps, get_next_steps. rewrite embed_lookup.
  destruct (plans pl !! pid) as [plan|]; [|done]. simpl.
  change (Raw.tools (embed pl)) with (tools pl).
  rewrite update_ready_status_embed. cbn [fst snd].
  f_equal.
  - symmetry. apply embed_store.
  - f_equal. apply filter_embed.
Qed.

Lemma find_step_embed sid l :
  Raw.find_step (VStr sid) (embed_step <$> l)
  = prod_map id embed_step <$> find_step sid l.
Proof.
  unfold Raw.find_step, find_step.
  induction l as [|a l IH]; [done|].
  rewrite fmap_cons. cbn [list_find]. rewrite IH.
  cbn [Raw.step_id embed_step py_eq].
  destruct (String.eqb_spec (step_id a) sid) as [Heq|Hne].
  - rewrite !decide_True by done. done.
  - rewrite !decide_False by done.
    by destruct (list_find _ l) as [[i x]|].
Qed.

Lemma vdict_set_embed k v (acc : list (string * value)) :
  vdict_set (VStr k) v (embed_keys acc) = embed_keys (dict_set k v acc).
Proof.
  induction acc as [|[k' v'] acc IH]; [done|]. simpl.
  rewrite String.eqb_sym.
  destruct (String.eqb_spec k k') as [->|Hne]; simpl; [done|].
  by rewrite IH.
Qed.

Lemma dumped_embed (acc : list (string * value)) :
  Raw.dumped (embed_keys acc) = acc.
Proof.
  unfold Raw.dumped, embed_keys. induction acc as [|[k v] acc IH]; [done|].
  simpl. by rewrite IH.
Qed.

Lemma dep_loop_embed l (deps : list string) acc :
  Raw.dep_loop (embed_step <$> l) (VStr <$> deps) (embed_keys acc)
  = Ok (embed_keys
          (fold_left
             (fun acc dep_id =>
                match find_step dep_id l with
                | Some (_, dep_step) =>
                    if truthy (output_data dep_step)
                    then dict_set dep_id (output_data dep_step) acc
                    else acc
                | None => acc
                end) deps acc)).
Proof.
  revert acc. induction deps as [|d deps IH]; intros acc; [done|].
  rewrite fmap_cons. cbn [Raw.dep_loop fold_left]. rewrite find_step_embed.
  destruct (find_step d l) as [[i ds]|]; simpl.
  - destruct (truthy (output_data ds)); [|apply IH].
    rewrite vdict_set_embed. apply IH.
  - apply IH.
Qed.

Lemma get_execution_context_embed p s :
  exists ctx,
    Raw._get_execution_context (embed_plan p) (embed_step s) = Ok ctx
    /\ Raw.dumped (Raw.dependency_outputs ctx)
       = dependency_outputs (_get_execution_context p s).
Proof.
  unfold Raw._get_execution_context. cbn [Raw.depends_on embed_step py_iter].
  cbn [bind_outcome Raw.steps embed_plan].
  change (@nil (value * value)) with (embed_keys []).
  rewrite dep_loop_embed. cbn [bind_outcome].
  eexists. split; [reflexivity|]. simpl. apply dumped_embed.
Qed.

Lemma dispatch_embed w s rctx ctx :
  Raw.dumped (Raw.dependency_outputs rctx) = dependency_outputs ctx ->
  Raw.dispatch w (embed_step s) rctx = dispatch w s ctx.
Proof.
  intros Hd. unfold Raw.dispatch, dispatch. cbn [Raw.tool embed_step].
  assert (Hllm : Raw._execute_llm w (embed_step s) rctx = _execute_llm w s ctx).
  { unfold Raw._execute_llm, _execute_llm. cbn [Raw.tool_input embed_step].
    cbn [Raw.description]. by rewrite Hd. }
  destruct (tool s) as [t|]; [|exact Hllm].
  destruct (String.eqb t "llm_generate"); [exact Hllm|].
  destruct (String.eqb t "memory_search_topics"); [done|].
  destruct (String.eqb t "memory_get_facts"); [done|].
  destruct (String.eqb t "memory_save_fact"); done.
Qed.

Lemma embed_set_steps l p :
  Raw.set_steps (embed_step <$> l) (embed_plan p) = embed_plan (set_steps l p).
Proof. done. Qed.

(** [execute_step] on a planner whose plans have their annotated types:
    the untyped function does what the typed one does. *)
Lemma execute_step_embed pl w pid sid :
  Raw.execute_step (embed pl) w pid (VStr sid)
  = (embed (execute_step pl w pid sid).1.1,
     (execute_step pl w pid sid).1.2, (execute_step pl w pid sid).2).
Proof.
  unfold Raw.execute_step, execute_step. rewrite embed_lookup.
  destruct (plans pl !! pid) as [plan|] eqn:Hp; [|done]. cbn [fmap option_fmap option_map].
  cbn [Raw.steps embed_plan]. rewrite find_step_embed.
  destruct (find_step sid (steps plan)) as [[i s]|] eqn:Hf; [|done].
  cbn [fmap option_fmap option_map prod_map fst snd id].
  pose proof (find_step_Some _ _ _ _ Hf) as (Hi & _ & _).
  assert (Hlt : i < length (steps plan)) by by eapply lookup_lt_Some.
  unfold status_is. cbn [Raw.status embed_step].
  destruct (bool_decide (status s = READY)); [|done]. cbn [negb]. cbv zeta.
  set (step1 := set_status EXECUTING s).
  set (plan1 := set_steps (<[i := step1]> (steps plan)) plan).
  change (Raw.set_status EXECUTING (embed_step s)) with (embed_step step1).
  assert (Hplan1 :
    Raw.set_steps (<[i := embed_step step1]> (embed_step <$> steps plan))
      (embed_plan plan) = embed_plan plan1).
  { unfold plan1. rewrite <- embed_set_steps. by rewrite list_fmap_insert. }
  rewrite Hplan1.
  destruct (get_execution_context_embed plan1 step1) as (rctx & -> & Hd).
  rewrite (dispatch_embed w step1 rctx _ Hd).
  destruct (dispatch w step1 (_get_execution_context plan1 step1)) as [w' [r|e]].
  - change (Raw.tools (embed pl)) with (tools pl).
    cbn [py_str].
    change (Raw.set_output_data r (Raw.set_status COMPLETED (embed_step step1)))
      with (embed_step (set_output_data r (set_status COMPLETED step1))).
    assert (Hplan2 :
      Raw.set_context (dict_set ("output_" ++ sid) r (Raw.context (embed_plan plan1)))
        (Raw.set_steps
           (<[i := embed_step (set_output_data r (set_status COMPLETED step1))]>
              (Raw.steps (embed_plan plan1))) (embed_plan plan1))
      = embed_plan
          (set_context (dict_set ("output_" ++ sid) r (context plan1))
             (set_steps
                (<[i := set_output_data r (set_status COMPLETED step1)]>
                   (steps plan1)) plan1))).
    { unfold embed_plan at 4. cbn [steps set_context set_steps].
      rewrite list_fmap_insert. done. }
    rewrite Hplan2, update_ready_status_embed. cbn [fst snd].
    by rewrite embed_store.
  - cbn [fst snd]. rewrite embed_store. f_equal. f_equal. f_equal.
    unfold Raw.fail_step. cbn [Raw.steps embed_plan].
    rewrite list_lookup_fmap.
    assert (Hi1 : steps plan1 !! i = Some step1).
    { unfold plan1. simpl. by apply list_lookup_insert_eq. }
    rewrite Hi1. cbn [fmap option_fmap option_map].
    rewrite <- embed_set_steps. by rewrite list_fmap_insert.
Qed.

Lemma run_wave_embed pid wave : forall pl w results,
  Raw.run_wave (embed pl) w pid (embed_step <$> wave) (embed_results results)
  = (embed (run_wave pl w pid wave results).1.1,
     (run_wave pl w pid wave results).1.2,
     embed_results (run_wave pl w pid wave results).2).
Proof.
  induction wave as [|x wave IH]; intros pl w results; [done|].
  rewrite fmap_cons. cbn [Raw.run_wave run_wave].
  cbn [Raw.step_id Raw.description embed_step].
  rewrite execute_step_embed.
  destruct (execute_step pl w pid (step_id x)) as [[pl1 w1] r1]. cbn [fst snd].
  change (embed_results results ++ [(VStr (description x), r1)])
    with (embed_results results ++ embed_results [(description x, r1)]).
  unfold embed_results at 1 2. rewrite <- map_app. apply IH.
Qed.

Lemma wave_loop_embed fuel : forall pl w pid results,
  Raw.wave_loop fuel (embed pl) w pid (embed_results results)
  = (fun res : Planner * World * list result_entry =>
       (embed res.1.1, res.1.2, Ok (embed_results res.2)))
    <$> wave_loop fuel pl w pid results.
Proof.
  induction fuel as [|fuel IH]; intros pl w pid results; [done|].
  cbn [Raw.wave_loop wave_loop]. rewrite get_next_steps_embed.
  destruct (get_next_steps pl pid) as [pl1 [|x wave]]; cbn [fst snd]; [done|].
  rewrite fmap_cons.
  change (embed_step x :: (embed_step <$> wave)) with (embed_step <$> (x :: wave)).
  rewrite run_wave_embed.
  destruct (run_wave pl1 w pid (x :: wave) results) as [[pl2 w2] r2].
  cbn [fst snd]. apply IH.
Qed.

Lemma join_items_embed i (deps : list string) :
  Raw.join_items i (VStr <$> deps) = None.
Proof. revert i. induction deps as [|d deps IH]; intros i; [done|]. apply IH. Qed.

Lemma to_readable_embed p :
  Raw.to_readable (embed_plan p) = Ok (embed_plan p).
Proof.
  unfold Raw.to_readable.
  destruct (list_find _ _) as [[i s]|] eqn:Hf; [exfalso|done].
  apply list_find_Some in Hf as (Hi & [m Hm] & _).
  cbn [Raw.steps embed_plan] in Hi.
  apply list_lookup_fmap_Some_1 in Hi as (s0 & -> & _).
  unfold Raw.join_error in Hm. cbn [Raw.depends_on embed_step] in Hm.
  rewrite join_items_embed in Hm. by destruct (truthy _).
Qed.

(** [execute_full_plan] on a planner whose plans have their annotated
    types: no pass raises, [to_readable] does not raise, and the result
    is that of the typed function. *)
Lemma execute_full_plan_embed fuel pl w pid :
  Raw.execute_full_plan fuel (embed pl) w pid
  = (fun res : Planner * World * full_result =>
       (embed res.1.1, res.1.2, Ok (embed_result res.2)))
    <$> execute_full_plan fuel pl w pid.
Proof.
  unfold Raw.execute_full_plan, execute_full_plan. rewrite embed_lookup.
  destruct (plans pl !! pid) as [plan|]; [|done].
  cbn [fmap option_fmap option_map].
  change (@nil (value * value)) with (embed_results []).
  rewrite wave_loop_embed.
  destruct (wave_loop fuel pl w pid []) as [[[pl' w'] results]|]; [|done].
  cbn [fmap option_fmap option_map fst snd]. rewrite embed_lookup.
  assert (Hdef : default (embed_plan plan) (embed_plan <$> plans pl' !! pid)
                 = embed_plan (default plan (plans pl' !! pid)))
    by by destruct (plans pl' !! pid).
  rewrite Hdef, to_readable_embed. done.
Qed.

Lemma mapM_as_str (l : list value) (deps : list string) :
  mapM as_str l = Some deps -> l = VStr <$> deps.
Proof.
  revert deps. induction l as [|v l IH]; intros deps; simpl.
  - by intros [= <-].
  - destruct v; simpl; try done.
    destruct (mapM as_str l) as [ds|]; simpl; [|done].
    intros [= <-]. by rewrite (IH ds).
Qed.

Lemma as_requirement_embed v (r : requirement) :
  as_requirement v = Some r -> v = embed_requirement r.
Proof.
  destruct v as [| | | | | |d]; simpl; try done.
  unfold embed_requirement. intros Hm. f_equal.
  revert r Hm. induction d as [|[k x] d IH]; intros r; simpl.
  - by intros [= <-].
  - destruct x; simpl; try done.
    destruct (mapM _ d) as [r'|]; simpl; [|done].
    intros [= <-]. simpl. by rewrite (IH r').
Qed.

Lemma mapM_as_requirement (l : list value) (reqs : list requirement) :
  mapM as_requirement l = Some reqs -> l = embed_requirement <$> reqs.
Proof.
  revert reqs. induction l as [|v l IH]; intros reqs; simpl.
  - by intros [= <-].
  - destruct (as_requirement v) as [r|] eqn:Hr; simpl; [|done].
    destruct (mapM as_requirement l) as [rs|]; simpl; [|done].
    intros [= <-]. rewrite fmap_cons.
    by rewrite (as_requirement_embed _ _ Hr), (IH rs).
Qed.

Lemma parse_step_embed n v st :
  parse_step n v = inr st -> Raw.parse_step n v = inr (embed_step st).
Proof.
  unfold parse_step. destruct v as [| | | | | |d]; try done.
  unfold bind_sum. intros Hst.
  destruct (field as_str "id" _ d) as [|i] eqn:Ei; [done|].
  destruct (field as_str "description" _ d) as [|de] eqn:Ede; [done|].
  destruct (field _ "tool" None d) as [|t] eqn:Et; [done|].
  destruct (field as_str "expected_output" _ d) as [|eo] eqn:Eeo; [done|].
  destruct (field (as_list as_str) "depends_on" [] d) as [|deps] eqn:Edeps; [done|].
  destruct (field (as_list as_requirement) "deferred_requirements" [] d)
    as [|reqs] eqn:Ereqs; [done|].
  injection Hst as <-.
  apply field_default in Ei, Ede, Et, Eeo, Edeps, Ereqs.
  unfold Raw.parse_step, embed_step. cbn. f_equal. f_equal.
  - destruct (dict_get "id" d) as [x|]; [|by subst].
    destruct x; simpl in Ei; by simplify_eq.
  - destruct (dict_get "description" d) as [x|]; [|by subst].
    destruct x; simpl in Ede; by simplify_eq.
  - destruct (dict_get "tool" d) as [x|]; [|by subst].
    destruct x; simpl in Et; by simplify_eq.
  - destruct (dict_get "expected_output" d) as [x|]; [|by subst].
    destruct x; simpl in Eeo; by simplify_eq.
  - destruct (dict_get "depends_on" d) as [x|]; [|by subst].
    destruct x as [| | | | |l|]; simpl in Edeps; try done.
    simpl. f_equal. by apply mapM_as_str.
  - destruct (dict_get "deferred_requirements" d) as [x|]; [|by subst].
    destruct x as [| | | | |l|]; simpl in Ereqs; try done.
    simpl. f_equal. by apply mapM_as_requirement.
Qed.

Lemma parse_step_dict_error n d e :
  parse_step n (VDict d) = inl e -> e = FieldTypeMismatch.
Proof.
  unfold parse_step, bind_sum. intros Hst.
  repeat match type of Hst with
         | match ?f with inl _ => _ | inr _ => _ end = _ =>
             let E := fresh "E" in
             destruct f eqn:E;
             [apply field_error in E; congruence|]
         end.
  done.
Qed.

Lemma parse_steps_embed (vs : list value) : forall acc r,
  parse_steps acc vs = r ->
  r <> inl FieldTypeMismatch ->
  Raw.parse_steps (embed_step <$> acc) vs
  = match r with
    | inl e => inl e
    | inr res => inr (embed_step <$> res)
    end.
Proof.
  induction vs as [|v vs IH]; intros acc r; simpl.
  - by intros <-.
  - rewrite length_fmap.
    destruct (parse_step (length acc) v) as [e|st] eqn:Hst; simpl.
    + intros <- Hne. destruct v as [| | | | | |d];
        try (by injection Hst as <-).
      by apply parse_step_dict_error in Hst as ->.
    + rewrite (parse_step_embed _ _ _ Hst). simpl. intros Hr Hne.
      replace ((embed_step <$> acc) ++ [embed_step st])
        with (embed_step <$> (acc ++ [st])) by by rewrite fmap_app.
      by apply IH.
Qed.

(** [create_plan] on a planner whose plans have their annotated types,
    for a reply whose steps have them too: the untyped function does
    what the typed one does. *)
Lemma create_plan_embed pl w g c :
  (create_plan pl w g c).2 <> inl FieldTypeMismatch ->
  Raw.create_plan (embed pl) w g c
  = (embed (create_plan pl w g c).1.1, (create_plan pl w g c).1.2,
     embed_created (create_plan pl w g c).2).
Proof.
  unfold Raw.create_plan, create_plan.
  change (Raw.tools (embed pl)) with (tools pl).
  destruct (ollama_plan w g c (tools pl)) as [w1 [content|e]]; [|done].
  destruct (String.eqb _ _); [done|].
  destruct (json_loads _) as [[| | | | | |data]|]; try done.
  destruct (dict_get "complexity" data) as [cv|]; [|done].
  destruct (dict_get "steps" data) as [sv|]; [|done].
  destruct (iterate sv) as [e|vs]; [done|]. cbn [bind_sum].
  destruct (parse_steps [] vs) as [e|steps_] eqn:Hparse.
  { intros Hne. pose proof (parse_steps_embed vs [] _ Hparse) as Hraw.
    change (embed_step <$> []) with (@nil Raw.PlanStep) in Hraw.
    rewrite Hraw by (simpl in Hne; congruence). done. }
  pose proof (parse_steps_embed vs [] _ Hparse) as Hraw.
  change (embed_step <$> []) with (@nil Raw.PlanStep) in Hraw.
  rewrite Hraw by done. clear Hraw.
  destruct (uuid4_hex8 w1) as [w2 hex].
  destruct (complexity_of_value cv) as [cx|]; [|done].
  destruct (datetime_now w2) as [w3 now]. intros _.
  match goal with
  | |- context [Raw._update_ready_status _ ?q] =>
      change q with (embed_plan
        {| plan_id := ("plan_" ++ hex)%string; goal := g; complexity := cx;
           steps := steps_; created_at := now;
           context := [("reasoning",
                        default (VStr EmptyString) (dict_get "reasoning" data))] |})
  end.
  rewrite update_ready_status_embed.
  set (plan := _update_ready_status (tools pl) _).
  change (Raw.plan_id (embed_plan plan)) with (plan_id plan).
  rewrite <- embed_store.
  unfold Raw._save_plan_to_db, _save_plan_to_db.
  change (Raw.plans_table (embed (store_plan (plan_id plan) plan pl)))
    with (embed_plan <$> plans_table pl).
  change (plans_table (store_plan (plan_id plan) plan pl)) with (plans_table pl).
  assert (Hex : existsb (fun row => String.eqb (Raw.plan_id row) (plan_id plan))
                  (embed_plan <$> plans_table pl)
                = existsb (fun row => String.eqb (plan_id row) (plan_id plan))
                    (plans_table pl)).
  { induction (plans_table pl) as [|row t IHt]; [done|].
    rewrite fmap_cons. cbn [existsb]. by rewrite IHt. }
  change (Raw.plan_id (embed_plan plan)) with (plan_id plan).
  rewrite Hex. destruct (existsb _ (plans_table pl)); [done|].
  cbn [fst snd embed_created]. f_equal. f_equal.
  unfold embed. cbn [tools plans plans_table Raw.tools Raw.plans Raw.plans_table].
  f_equal. by rewrite fmap_app.
Qed.

(** X24. The typed layer is the untyped planner on plans and replies
    whose step fields have their annotated types: there the readiness
    pass and [to_readable] never raise, and the readiness pass,
    [get_next_steps], [execute_step], [execute_full_plan] and
    [create_plan] of the module [Raw] return what the typed functions
    return. *)
Theorem typed_layer_is_untyped_planner pl w pid sid fuel g c tl p :
  Raw._update_ready_status tl (embed_plan p)
  = (embed_plan (_update_ready_status tl p), None)
  /\ Raw.get_next_steps (embed pl) pid
     = (embed (get_next_steps pl pid).1,
        Ok (embed_step <$> (get_next_steps pl pid).2))
  /\ Raw.execute_step (embed pl) w pid (VStr sid)
     = (embed (execute_step pl w pid sid).1.1,
        (execute_step pl w pid sid).1.2, (execute_step pl w pid sid).2)
  /\ Raw.execute_full_plan fuel (embed pl) w pid
     = (fun res : Planner * World * full_result =>
          (embed res.1.1, res.1.2, Ok (embed_result res.2)))
       <$> execute_full_plan fuel pl w pid
  /\ Raw.to_readable (embed_plan p) = Ok (embed_plan p)
  /\ ((create_plan pl w g c).2 <> inl FieldTypeMismatch ->
      Raw.create_plan (embed pl) w g c
      = (embed (create_plan pl w g c).1.1, (create_plan pl w g c).1.2,
         embed_created (create_plan pl w g c).2)).
Proof.
  split_and!.
  - apply update_ready_status_embed.
  - apply get_next_steps_embed.
  - apply execute_step_embed.
  - apply execute_full_plan_embed.
  - apply to_readable_embed.
  - apply create_plan_embed.
Qed.

End Refinement.

Section RawExamples.

Import Sample Runs.

(** C3 on the code. The reply [nested_reply] gives three steps: [a]
    without dependencies, [c] depending on [a], and [b] whose dependency
    list holds the id [a] and a list. [create_plan] accepts it: the pass
    stops at the first dependency of [b] that is not completed. Then
    [execute_step] runs [a]: its handler returns, the step is written
    COMPLETED, and the readiness pass makes [c] READY and raises on the
    list in the dependencies of [b]; the pass is inside the [try], so [a]
    ends FAILED. Now [c] is READY and its one dependency [a] is not
    COMPLETED: no step is. [get_next_steps] returns [c] all the same. *)
Theorem ready_step_with_failed_dependency :
  let pl1 := nested_created.1.1 in
  let x := Raw.execute_step pl1 nested_created.1.2 "plan_1" (VStr "a") in
  let view := fun pl =>
    (fun p => (Raw.step_id <$> Raw.steps p, Raw.status <$> Raw.steps p))
      <$> Raw.plans pl !! "plan_1" in
  nested_created.2 = inr nested_plan
  /\ view pl1 = Some ([VStr "a"; VStr "c"; VStr "b"], [READY; PENDING; PENDING])
  /\ x.2 = VNone
  /\ view x.1.1 = Some ([VStr "a"; VStr "c"; VStr "b"], [FAILED; READY; PENDING])
  /\ ((fun p => Raw.depends_on <$> Raw.steps p) <$> Raw.plans x.1.1 !! "plan_1")
     = Some [VList []; VList [VStr "a"]; VList [VStr "a"; VList [VStr "x"]]]
  /\ ((fun p => Raw.completed_ids (Raw.steps p)) <$> Raw.plans x.1.1 !! "plan_1")
     = Some (Ok [])
  /\ (match (Raw.get_next_steps x.1.1 "plan_1").2 with
      | Ok wave => Some (Raw.step_id <$> wave, Raw.status <$> wave)
      | Raise _ => None
      end) = Some ([VStr "c"], [READY]).
Proof. vm_compute. repeat split; reflexivity. Qed.

(** C8 on the code. On the plan of [nested_reply], [execute_step] runs
    the step [a]: the handler returns the text [collect]; the step is
    written COMPLETED with that output ([nested_written]); the readiness
    pass on that plan raises; and the step that was COMPLETED ends
    FAILED, with both the output of the handler and the text of the
    exception as its error, while [execute_step] returns [None]. *)
Theorem completed_step_turned_failed :
  let pl1 := nested_created.1.1 in
  let step1 := Raw.set_status EXECUTING nested_a in
  let plan1 := Raw.set_steps (<[0 := step1]> (Raw.steps nested_plan)) nested_plan in
  let x := Raw.execute_step pl1 3 "plan_1" (VStr "a") in
  Raw.plans pl1 !! "plan_1" = Some nested_plan
  /\ Raw.find_step (VStr "a") (Raw.steps nested_plan) = Some (0, nested_a)
  /\ Raw.status nested_a = READY
  /\ (match Raw._get_execution_context plan1 step1 with
      | Ok ctx => Some (Raw.dispatch 3 step1 ctx)
      | Raise _ => None
      end) = Some (4, Ok (VStr "collect"))
  /\ (Raw.status <$> Raw.steps nested_written) = [COMPLETED; PENDING; PENDING]
  /\ (Raw.output_data <$> Raw.steps nested_written)
     = [VStr "collect"; VNone; VNone]
  /\ (Raw._update_ready_status (Raw.tools pl1) nested_written).2
     = Some "unhashable type: 'list'"
  /\ x.2 = VNone
  /\ ((fun p => (fun s => (Raw.status s, Raw.output_data s, Raw.error s))
                  <$> Raw.steps p !! 0) <$> Raw.plans x.1.1 !! "plan_1")
     = Some (Some (FAILED, VStr "collect", Some "unhashable type: 'list'"))
  /\ ((fun p => dict_get "output_a" (Raw.context p)) <$> Raw.plans x.1.1 !! "plan_1")
     = Some (Some (VStr "collect")).
Proof. vm_compute. repeat split; reflexivity. Qed.

Lemma handler_failure_is_contained_witness :
  let pl0 := with_plan contained_steps in
  execute_step (get_next_steps pl0 "plan_0").1 0 "plan_0" "a"
  = (store_plan "plan_0"
       (mk_plan [set_error "backend unreachable" (set_status FAILED raising_step);
                 mk_step "b" None (VDict []) READY [] []])
       (get_next_steps pl0 "plan_0").1,
     1, VNone)
  /\ exists results more planf,
       execute_full_plan 2 pl0 0 "plan_0"
       = Some (store_plan "plan_0" contained_done pl0, 2,
               FullResult "plan_0" (goal planf) results planf)
       /\ results = (EmptyString, VNone) :: more
       /\ 1 <= length more
       /\ (status <$> steps planf) = [FAILED; COMPLETED]
       /\ (error <$> steps planf) = [Some "backend unreachable"; None].
Proof.
  intros pl0.
  destruct (handler_failure_is_contained (get_next_steps pl0 "plan_0").1
              0 "plan_0" "a" (mk_plan contained_steps) 0 raising_step 1
              "backend unreachable")
    as (Hex & _ & _ & _ & _ & _ & _ & _ & _ & _ & _ & _ & Hfull);
    [vm_compute; reflexivity|vm_compute; reflexivity|reflexivity
    |vm_compute; reflexivity|].
  split; [exact Hex|].
  assert (Hrun : execute_full_plan 2 pl0 0 "plan_0"
                 = Some (store_plan "plan_0" contained_done pl0, 2,
                         FullResult "plan_0" EmptyString
                           [(EmptyString, VNone); (EmptyString, VStr EmptyString)]
                           contained_done))
    by (vm_compute; reflexivity).
  destruct (Hfull 2 pl0 0 (get_next_steps pl0 "plan_0").1 [] raising_step
              [mk_step "b" None (VDict []) READY [] []] []
              (store_plan "plan_0" contained_done pl0) 2
              (FullResult "plan_0" EmptyString
                 [(EmptyString, VNone); (EmptyString, VStr EmptyString)]
                 contained_done))
    as (results & more & planf & Hr & Hres & Hlen & _).
  - apply NoDup_cons. split; [|apply NoDup_singleton].
    intros Hin. apply list_elem_of_In in Hin. simpl in Hin.
    destruct Hin as [Hin|[]]. discriminate Hin.
  - vm_compute. reflexivity.
  - reflexivity.
  - reflexivity.
  - exact Hrun.
  - exists results, more, planf. injection Hr as Hg <- <-.
    split; [exact Hrun|]. split; [exact Hres|]. split; [exact Hlen|].
    split; reflexivity.
Defined.

Lemma save_fact_error_completes_step_witness :
  exists pl' plan' s',
    Raw.execute_step (raw_with_plan [raw_locked_step]) 0 "plan_0" (VStr "save")
    = (pl', 1,
       VDict [("success", VBool false); ("error", VStr "database is locked")])
    /\ Raw.plans pl' !! "plan_0" = Some plan'
    /\ Raw.steps plan' !! 0 = Some s'
    /\ Raw.status s' = COMPLETED
    /\ Raw.output_data s'
       = VDict [("success", VBool false); ("error", VStr "database is locked")]
    /\ Raw.error s' = None.
Proof.
  destruct (save_fact_error_completes_step (raw_with_plan [raw_locked_step]) 0
              "plan_0" (VStr "save") (raw_plan [raw_locked_step]) 0 raw_locked_step
              [("topic_name", VStr "locked"); ("fact", VStr "likes coffee")]
              (raw_ctx (Raw.set_status EXECUTING raw_locked_step))
              (Raw.set_context
                 [("output_save",
                   VDict [("success", VBool false);
                          ("error", VStr "database is locked")])]
                 (raw_plan
                    [Raw.set_output_data
                       (VDict [("success", VBool false);
                               ("error", VStr "database is locked")])
                       (Raw.set_status COMPLETED raw_locked_step)])))
    as (pl' & plan' & s' & Hex & Hp & Hi & Hst & Ho & He & _);
    [vm_compute; reflexivity|vm_compute; reflexivity|reflexivity|reflexivity
    |reflexivity|vm_compute; reflexivity| |].
  - vm_compute. reflexivity.
  - exists pl', plan', s'. split; [exact Hex|]. split; [exact Hp|].
    split; [exact Hi|]. split; [exact Hst|]. split; [exact Ho|exact He].
Defined.

Lemma unknown_tool_completes_with_placeholder_witness :
  exists pl' plan' s',
    Raw.execute_step (raw_with_plan [raw_draw_step]) 0 "plan_0" (VStr "draw")
    = (pl', 0, VStr "Tool 'image_gen' not implemented yet")
    /\ Raw.plans pl' !! "plan_0" = Some plan'
    /\ Raw.steps plan' !! 0 = Some s'
    /\ Raw.status s' = COMPLETED
    /\ Raw.output_data s' = VStr "Tool 'image_gen' not implemented yet".
Proof.
  destruct (unknown_tool_completes_with_placeholder (raw_with_plan [raw_draw_step])
              0 "plan_0" (VStr "draw") (raw_plan [raw_draw_step]) 0 raw_draw_step
              (raw_ctx (Raw.set_status EXECUTING raw_draw_step))
              (Raw._update_ready_status (Raw.tools (raw_with_plan [raw_draw_step]))
                 (Raw.set_context
                    [("output_draw", VStr "Tool 'image_gen' not implemented yet")]
                    (raw_plan
                       [Raw.set_output_data
                          (VStr "Tool 'image_gen' not implemented yet")
                          (Raw.set_status COMPLETED raw_draw_step)]))).1)
    as (pl' & plan' & s' & Hex & Hp & Hi & Hst & Ho & _);
    [vm_compute; reflexivity|vm_compute; reflexivity|reflexivity|discriminate
    | |vm_compute; reflexivity|vm_compute; reflexivity|].
  - intros t [= <-] Hin. apply list_elem_of_In in Hin. simpl in Hin.
    repeat destruct Hin as [Hin|Hin]; try discriminate Hin. exact Hin.
  - exists pl', plan', s'. split; [exact Hex|]. split; [exact Hp|].
    split; [exact Hi|]. split; [exact Hst|exact Ho].
Defined.

Lemma execute_step_records_result_witness :
  exists pl' plan' s',
    Raw.execute_step nested_created.1.1 3 "plan_1" (VStr "a") = (pl', 4, VNone)
    /\ Raw.plans pl' !! "plan_1" = Some plan'
    /\ Raw.steps plan' !! 0 = Some s'
    /\ Raw.output_data s' = VStr "collect"
    /\ Raw.status s' = FAILED
    /\ Raw.error s' = Some "unhashable type: 'list'"
    /\ dict_get "output_a" (Raw.context plan') = Some (VStr "collect").
Proof.
  destruct (execute_step_records_result nested_created.1.1 3 "plan_1" (VStr "a")
              nested_plan 0 nested_a
              {| Raw.plan_goal := nested_reply;
                 Raw.ctx_step := Raw.set_status EXECUTING nested_a;
                 Raw.dependency_outputs := [];
                 Raw.plan_context := [("reasoning", VStr EmptyString)] |}
              4 (VStr "collect")
              (Raw._update_ready_status (Raw.tools nested_created.1.1)
                 nested_written).1
              (Some "unhashable type: 'list'"))
    as (pl' & plan' & s' & Hex & Hp & Hi & Ho & [Hst He] & _ & _ & _ & _ & Hc & _);
    [vm_compute; reflexivity|vm_compute; reflexivity|reflexivity
    |vm_compute; reflexivity|vm_compute; reflexivity|vm_compute; reflexivity|].
  exists pl', plan', s'. split; [exact Hex|]. split; [exact Hp|].
  split; [exact Hi|]. split; [exact Ho|]. split; [exact Hst|].
  split; [exact He|exact Hc].
Defined.

Lemma create_then_execute_witness :
  Raw.execute_full_plan 5 nested_created.1.1 3 "plan_1"
  = Some (Raw.store_plan "plan_1" nested_done nested_created.1.1, 5,
          Raise "sequence item 1: expected str instance, list found")
  /\ Raw.plans_table (Raw.store_plan "plan_1" nested_done nested_created.1.1)
     = [nested_plan]
  /\ exists plan',
       Raw.plans (Raw.store_plan "plan_1" nested_done nested_created.1.1)
         !! "plan_1" = Some plan'
       /\ Raw.goal plan' = nested_reply.
Proof.
  assert (Hc : Raw.create_plan Raw.new_planner 0 nested_reply VNone
               = (nested_created.1.1, 3, inr nested_plan))
    by (vm_compute; reflexivity).
  assert (Hrun : Raw.execute_full_plan 5 nested_created.1.1 3 "plan_1"
                 = Some (Raw.store_plan "plan_1" nested_done nested_created.1.1, 5,
                         Raise "sequence item 1: expected str instance, list found"))
    by (vm_compute; reflexivity).
  destruct (create_then_execute _ _ _ _ _ _ _ Hc) as (_ & _ & _ & Hex).
  destruct (Hex _ _ _ _ Hrun) as (Htab & (plan' & Hp' & _ & Hg) & _).
  split; [exact Hrun|]. split; [exact Htab|].
  exists plan'. split; [exact Hp'|exact Hg].
Defined.

End RawExamples.
